(** * Sandbox manager: a shallow embedding of [src/lib/k8s/sandbox-manager.ts]

    The class [SandboxManager] drives a Kubernetes cluster through the typed
    client ([readNamespacedStatefulSet], [patchNamespacedStatefulSet], ...).
    Every method is [async]: here a method is a computation that reads an
    environment (how the cluster answers), threads a world (the objects the
    API server stores, the requests issued so far, a clock) and ends in a
    resolved value or a rejection.

    Strings are sequences of bytes (UTF-8); Kubernetes counters are integers;
    optional fields of the client's types are [option]s. *)

From Stdlib Require Import ZArith String Ascii List Bool Lia DecimalString.
From stdpp Require Import gmap strings.
Import ListNotations.

Local Open Scope Z_scope.

(** ** Kubernetes objects (the fields the manager reads or writes) *)

(** [V1EnvVar]: [name] is required, [value] and [valueFrom] are optional;
    [valueFrom] is kept as the name of the referenced source. *)
Record V1EnvVar := mkEnvVar {
  ev_name : string;
  ev_value : option string;
  ev_valueFrom : option string
}.

Record V1Container := mkContainer {
  c_name : string;
  c_image : string;
  c_env : option (list V1EnvVar)
}.

Record V1PodSpec := mkPodSpec {
  pod_containers : list V1Container
}.

Record V1PodTemplateSpec := mkPodTemplate {
  tpl_labels : list (string * string);
  tpl_spec : option V1PodSpec
}.

Record V1StatefulSetSpec := mkStsSpec {
  spec_replicas : option Z;
  spec_serviceName : string;
  spec_template : V1PodTemplateSpec
}.

Record V1StatefulSetStatus := mkStsStatus {
  status_replicas : option Z;
  status_readyReplicas : option Z;
  status_currentReplicas : option Z;
  status_updatedReplicas : option Z;
  status_currentRevision : option string;
  status_updateRevision : option string
}.

Record V1ObjectMeta := mkMeta {
  meta_name : string;
  meta_namespace : string;
  meta_labels : list (string * string)
}.

Record V1StatefulSet := mkSts {
  sts_metadata : V1ObjectMeta;
  sts_spec : option V1StatefulSetSpec;
  sts_status : option V1StatefulSetStatus
}.

Record V1ServicePort := mkPort {
  port_port : Z;
  port_targetPort : Z;
  port_name : string
}.

Record V1Service := mkService {
  svc_metadata : V1ObjectMeta;
  svc_ports : list V1ServicePort;
  svc_selector : list (string * string)
}.

Record V1Ingress := mkIngress {
  ing_metadata : V1ObjectMeta;
  ing_host : string;
  ing_serviceName : string;
  ing_servicePort : Z
}.

(** One operation of a JSON Patch body. *)
Record JsonPatchOp := mkPatchOp {
  patch_op : string;
  patch_path : string;
  patch_value : Z
}.

(** ** Thrown values

    A [catch (error)] clause receives a value of unknown shape.  The manager
    looks at: whether it is an object, whether it is an [Error] (for
    [error.message]), and at [error.response.statusCode].  The property
    [response] is absent, [null], of another type than object, or an
    object with an optional status code. *)
Inductive ErrorResponse :=
| NoResponse
| NullResponse
| NonObjectResponse
| ObjectResponse (statusCode : option Z).

Inductive JsError :=
| ThrownPrimitive (text : string)
| ThrownObject (isError : bool) (message : string)
               (response : ErrorResponse) (code : option Z).

(** [error instanceof Error ? error.message : String(error)] *)
Definition errorMessageOf (error : JsError) : string :=
  match error with
  | ThrownPrimitive text => text
  | ThrownObject true message _ _ => message
  | ThrownObject false _ _ _ => "[object Object]"
  end.

(** [new Error(message)] and the [TypeError] of a property read on
    [undefined] or on [null]. *)
Definition newError (message : string) : JsError :=
  ThrownObject true message NoResponse None.

Definition typeErrorUndefined (prop : string) : JsError :=
  newError ("Cannot read properties of undefined (reading '" +:+ prop +:+ "')").

Definition typeErrorNull (prop : string) : JsError :=
  newError ("Cannot read properties of null (reading '" +:+ prop +:+ "')").

(** The guard of the manager's [catch] blocks,

    [typeof error === 'object' && error !== null && 'response' in error &&
    typeof error.response === 'object' && error.response.statusCode === n]

    reads [error.response.statusCode] as soon as [typeof error.response] is
    ['object'], which it is for [null] as well: there the read throws a
    [TypeError], inside the [catch] block. *)
Definition statusCodeReadThrows (error : JsError) : option JsError :=
  match error with
  | ThrownObject _ _ NullResponse _ => Some (typeErrorNull "statusCode")
  | _ => None
  end.

(** The value of the guard where it has one. *)
Definition responseStatusIs (n : Z) (error : JsError) : bool :=
  match error with
  | ThrownObject _ _ (ObjectResponse (Some c)) _ => c =? n
  | _ => false
  end.

(** The same guard with [!== n] as its last conjunct (see [createService]):
    an error without a [response], or whose [response] is not an object,
    does not pass it. *)
Definition responseStatusIsNot (n : Z) (error : JsError) : bool :=
  match error with
  | ThrownObject _ _ (ObjectResponse (Some c)) _ => negb (c =? n)
  | ThrownObject _ _ (ObjectResponse None) _ => true
  | _ => false
  end.

(** ** Outcomes of promises *)

Inductive Outcome (A : Type) :=
| Resolved (a : A)
| Rejected (e : JsError).
Arguments Resolved {A} a.
Arguments Rejected {A} e.

(** ** Requests to the cluster API, named as the client's methods *)

Inductive ApiCall :=
| ReadStatefulSet (name namespace : string)
| CreateStatefulSet (namespace : string) (body : V1StatefulSet)
| PatchStatefulSet (name namespace : string) (body : list JsonPatchOp)
| ReplaceStatefulSet (name namespace : string) (body : V1StatefulSet)
| DeleteStatefulSet (name namespace : string)
| ReadService (name namespace : string)
| CreateService (namespace : string) (body : V1Service)
| DeleteService (name namespace : string)
| ReadIngress (name namespace : string)
| CreateIngress (namespace : string) (body : V1Ingress)
| DeleteIngress (name namespace : string)
| DeletePersistentVolumeClaim (name namespace : string).

(** The client hands back either an envelope with a [body] or the object
    itself; the manager copes with both ([body || response]). *)
Inductive ApiResponse (A : Type) :=
| WithBody (body : A)
| Bare (object : A).
Arguments WithBody {A} body.
Arguments Bare {A} object.

(** ** The cluster and the world

    The API server's store, keyed by (namespace, name). *)
Record Cluster := mkCluster {
  statefulSets : gmap (string * string) V1StatefulSet;
  services : gmap (string * string) V1Service;
  ingresses : gmap (string * string) V1Ingress;
  persistentVolumeClaims : gset (string * string)
}.

(** A chunk of a stream: a [Buffer], by its bytes. *)
Definition Buffer : Type := string.

(** What one exec channel does.  [Exec.exec] of the client is an [async]
    method: it never throws to its caller, and the manager drops the promise
    it returns.  Either the status callback runs, with a [V1Status], after
    the ['data'] handlers have received some chunks of stdout and stderr; or
    it never runs: the connection fails (the dropped promise rejects) or the
    channel ends without a status. *)
Inductive ExecBehaviour :=
| ExecStatus (stdoutChunks stderrChunks : list Buffer)
             (status : option string) (message : option string)
| ExecNoCallback.

(** Everything outside the manager: which requests fail and how (transport
    and API failures), how long each takes, the shape in which the client
    reports an HTTP status, the response format, the exec channel, the
    wall clock. *)
Record Env := mkEnv {
  fault : ApiCall -> option JsError;
  latency : ApiCall -> nat;
  apiError : Z -> JsError;
  wrapsBody : bool;
  execChannel : string -> string -> string -> list string -> ExecBehaviour;
  dateNow : Z
}.

Record World := mkWorld {
  cluster : Cluster;
  calls : list ApiCall;
  now : nat
}.

(** An [async] method: [Promise<A>] as a function of environment and world. *)
Definition M (A : Type) : Type := Env -> World -> Outcome A * World.

#[global] Instance M_ret : MRet M := fun A a _ w => (Resolved a, w).

(** [await m] followed by the rest of the body. *)
#[global] Instance M_bind : MBind M := fun A B k m env w =>
  match m env w with
  | (Resolved a, w1) => k a env w1
  | (Rejected e, w1) => (Rejected e, w1)
  end.

Definition throw {A} (e : JsError) : M A := fun _ w => (Rejected e, w).

(** [try { body } catch (error) { handler }] *)
Definition tryCatch {A} (body : M A) (handler : JsError -> M A) : M A :=
  fun env w =>
    match body env w with
    | (Resolved a, w1) => (Resolved a, w1)
    | (Rejected e, w1) => handler e env w1
    end.

(** [if (<guard> && error.response.statusCode === n) yes else no] in a
    [catch] block: evaluating the condition may throw. *)
Definition ifResponseStatusIs {A} (n : Z) (error : JsError) (yes no : M A) : M A :=
  match statusCodeReadThrows error with
  | Some typeError => throw typeError
  | None => if responseStatusIs n error then yes else no
  end.

(** The same with [!== n]. *)
Definition ifResponseStatusIsNot {A} (n : Z) (error : JsError) (yes no : M A)
    : M A :=
  match statusCodeReadThrows error with
  | Some typeError => throw typeError
  | None => if responseStatusIsNot n error then yes else no
  end.

(** ** Promises that may stay pending

    The requests to the cluster API settle.  A promise built by hand around
    a callback settles only if the callback runs: [Pending] is a promise
    that never does, and an [await] of it never returns, neither to the
    rest of the body nor to a [catch]. *)
Inductive Settlement (A : Type) :=
| Settled (o : Outcome A) (w : World)
| Pending.
Arguments Settled {A} o w.
Arguments Pending {A}.

Definition Promise (A : Type) : Type := Env -> World -> Settlement A.

#[global] Instance Promise_ret : MRet Promise :=
  fun A a _ w => Settled (Resolved a) w.

#[global] Instance Promise_bind : MBind Promise := fun A B k m env w =>
  match m env w with
  | Settled (Resolved a) w1 => k a env w1
  | Settled (Rejected e) w1 => Settled (Rejected e) w1
  | Pending => Pending
  end.

Definition throwP {A} (e : JsError) : Promise A := fun _ w => Settled (Rejected e) w.

Definition tryCatchP {A} (body : Promise A) (handler : JsError -> Promise A)
    : Promise A :=
  fun env w =>
    match body env w with
    | Settled (Resolved a) w1 => Settled (Resolved a) w1
    | Settled (Rejected e) w1 => handler e env w1
    | Pending => Pending
    end.

(** One request: it is logged and takes its latency whether it succeeds or
    not; an injected fault rejects it and leaves the store alone; otherwise
    the store serves it. *)
Definition request {A} (c : ApiCall)
    (serve : Env -> Cluster -> Outcome A * Cluster) : M A :=
  fun env w =>
    let issued := calls w ++ [c] in
    let done := (now w + latency env c)%nat in
    match fault env c with
    | Some e => (Rejected e, mkWorld (cluster w) issued done)
    | None =>
        let '(o, cl) := serve env (cluster w) in
        (o, mkWorld cl issued done)
    end.

Definition respond {A} (env : Env) (a : A) : ApiResponse A :=
  if wrapsBody env then WithBody a else Bare a.

(** ** The typed client

    [k8sAppsApi], [k8sApi] and [k8sNetworkingApi] against the store: a read
    or delete of a missing object and a create of an existing one are
    answered with the HTTP status the API server gives (404, 409). *)

Definition setStatefulSets (m : gmap (string * string) V1StatefulSet)
    (cl : Cluster) : Cluster :=
  mkCluster m (services cl) (ingresses cl) (persistentVolumeClaims cl).

Definition setServices (m : gmap (string * string) V1Service)
    (cl : Cluster) : Cluster :=
  mkCluster (statefulSets cl) m (ingresses cl) (persistentVolumeClaims cl).

Definition setIngresses (m : gmap (string * string) V1Ingress)
    (cl : Cluster) : Cluster :=
  mkCluster (statefulSets cl) (services cl) m (persistentVolumeClaims cl).

Definition setPersistentVolumeClaims (s : gset (string * string))
    (cl : Cluster) : Cluster :=
  mkCluster (statefulSets cl) (services cl) (ingresses cl) s.

Definition withReplicas (n : Z) (s : V1StatefulSet) : option V1StatefulSet :=
  match sts_spec s with
  | Some sp =>
      match spec_replicas sp with
      | Some _ =>
          Some (mkSts (sts_metadata s)
                  (Some (mkStsSpec (Some n) (spec_serviceName sp) (spec_template sp)))
                  (sts_status s))
      | None => None
      end
  | None => None
  end.

(** JSON Patch: [replace] needs its target to exist; the manager only ever
    sends [replace /spec/replicas]. *)
Definition applyPatchOp (op : JsonPatchOp) (s : V1StatefulSet)
    : option V1StatefulSet :=
  if String.eqb (patch_op op) "replace" && String.eqb (patch_path op) "/spec/replicas"
  then withReplicas (patch_value op) s
  else None.

Definition applyPatch (ops : list JsonPatchOp) (s : V1StatefulSet)
    : option V1StatefulSet :=
  fold_left (fun acc op => match acc with
                           | Some s1 => applyPatchOp op s1
                           | None => None
                           end) ops (Some s).

Definition k8sAppsApi_readNamespacedStatefulSet (name namespace : string)
    : M (ApiResponse V1StatefulSet) :=
  request (ReadStatefulSet name namespace) (fun env cl =>
    match statefulSets cl !! (namespace, name) with
    | Some s => (Resolved (respond env s), cl)
    | None => (Rejected (apiError env 404), cl)
    end).

Definition k8sAppsApi_createNamespacedStatefulSet (namespace : string)
    (body : V1StatefulSet) : M unit :=
  request (CreateStatefulSet namespace body) (fun env cl =>
    let key := (namespace, meta_name (sts_metadata body)) in
    match statefulSets cl !! key with
    | Some _ => (Rejected (apiError env 409), cl)
    | None => (Resolved tt, setStatefulSets (<[key := body]> (statefulSets cl)) cl)
    end).

Definition k8sAppsApi_patchNamespacedStatefulSet (name namespace : string)
    (body : list JsonPatchOp) : M unit :=
  request (PatchStatefulSet name namespace body) (fun env cl =>
    match statefulSets cl !! (namespace, name) with
    | Some s =>
        match applyPatch body s with
        | Some s1 =>
            (Resolved tt,
             setStatefulSets (<[(namespace, name) := s1]> (statefulSets cl)) cl)
        | None => (Rejected (apiError env 422), cl)
        end
    | None => (Rejected (apiError env 404), cl)
    end).

Definition k8sAppsApi_replaceNamespacedStatefulSet (name namespace : string)
    (body : V1StatefulSet) : M unit :=
  request (ReplaceStatefulSet name namespace body) (fun env cl =>
    match statefulSets cl !! (namespace, name) with
    | Some _ =>
        (Resolved tt,
         setStatefulSets (<[(namespace, name) := body]> (statefulSets cl)) cl)
    | None => (Rejected (apiError env 404), cl)
    end).

Definition k8sAppsApi_deleteNamespacedStatefulSet (name namespace : string)
    : M unit :=
  request (DeleteStatefulSet name namespace) (fun env cl =>
    match statefulSets cl !! (namespace, name) with
    | Some _ =>
        (Resolved tt, setStatefulSets (delete (namespace, name) (statefulSets cl)) cl)
    | None => (Rejected (apiError env 404), cl)
    end).

Definition k8sApi_readNamespacedService (name namespace : string)
    : M (ApiResponse V1Service) :=
  request (ReadService name namespace) (fun env cl =>
    match services cl !! (namespace, name) with
    | Some s => (Resolved (respond env s), cl)
    | None => (Rejected (apiError env 404), cl)
    end).

Definition k8sApi_createNamespacedService (namespace : string)
    (body : V1Service) : M unit :=
  request (CreateService namespace body) (fun env cl =>
    let key := (namespace, meta_name (svc_metadata body)) in
    match services cl !! key with
    | Some _ => (Rejected (apiError env 409), cl)
    | None => (Resolved tt, setServices (<[key := body]> (services cl)) cl)
    end).

Definition k8sApi_deleteNamespacedService (name namespace : string) : M unit :=
  request (DeleteService name namespace) (fun env cl =>
    match services cl !! (namespace, name) with
    | Some _ => (Resolved tt, setServices (delete (namespace, name) (services cl)) cl)
    | None => (Rejected (apiError env 404), cl)
    end).

Definition k8sNetworkingApi_readNamespacedIngress (name namespace : string)
    : M (ApiResponse V1Ingress) :=
  request (ReadIngress name namespace) (fun env cl =>
    match ingresses cl !! (namespace, name) with
    | Some s => (Resolved (respond env s), cl)
    | None => (Rejected (apiError env 404), cl)
    end).

Definition k8sNetworkingApi_createNamespacedIngress (namespace : string)
    (body : V1Ingress) : M unit :=
  request (CreateIngress namespace body) (fun env cl =>
    let key := (namespace, meta_name (ing_metadata body)) in
    match ingresses cl !! key with
    | Some _ => (Rejected (apiError env 409), cl)
    | None => (Resolved tt, setIngresses (<[key := body]> (ingresses cl)) cl)
    end).

Definition k8sNetworkingApi_deleteNamespacedIngress (name namespace : string)
    : M unit :=
  request (DeleteIngress name namespace) (fun env cl =>
    match ingresses cl !! (namespace, name) with
    | Some _ => (Resolved tt, setIngresses (delete (namespace, name) (ingresses cl)) cl)
    | None => (Rejected (apiError env 404), cl)
    end).

Definition k8sApi_deleteNamespacedPersistentVolumeClaim (name namespace : string)
    : M unit :=
  request (DeletePersistentVolumeClaim name namespace) (fun env cl =>
    if decide ((namespace, name) ∈ persistentVolumeClaims cl)
    then (Resolved tt,
          setPersistentVolumeClaims (persistentVolumeClaims cl ∖ {[(namespace, name)]}) cl)
    else (Rejected (apiError env 404), cl)).

(** [Promise.all]: every promise of the array is started before any is
    awaited.  Each branch starts at the same instant; the store and the log
    collect the requests of all of them, branch by branch (the branches of
    the manager touch different objects).  For branches of one request, as
    in [deleteSandbox], that is the order in which the requests are issued.
    For branches of two, as in [createIngresses], the code issues the first
    request of every branch before the second of any: the log has the
    requests of the call, not their order across branches.  The result
    rejects with the rejection that settles first, and otherwise resolves
    when the last branch does. *)
Fixpoint startAll {A} (ps : list (M A)) (t0 : nat) (env : Env) (w : World)
    : list (nat * Outcome A) * World :=
  match ps with
  | [] => ([], w)
  | p :: rest =>
      let '(o, w1) := p env (mkWorld (cluster w) (calls w) t0) in
      let '(os, w2) := startAll rest t0 env w1 in
      ((now w1, o) :: os, w2)
  end.

Fixpoint firstRejection {A} (settled : list (nat * Outcome A))
    : option (nat * JsError) :=
  match settled with
  | [] => None
  | (_, Resolved _) :: rest => firstRejection rest
  | (t, Rejected e) :: rest =>
      match firstRejection rest with
      | Some (t1, e1) => if (t1 <? t)%nat then Some (t1, e1) else Some (t, e)
      | None => Some (t, e)
      end
  end.

Fixpoint resolvedValues {A} (settled : list (nat * Outcome A)) : list A :=
  match settled with
  | [] => []
  | (_, Resolved a) :: rest => a :: resolvedValues rest
  | (_, Rejected _) :: rest => resolvedValues rest
  end.

Definition Promise_all {A} (ps : list (M A)) : M (list A) :=
  fun env w =>
    let '(settled, w1) := startAll ps (now w) env w in
    match firstRejection settled with
    | Some (t, e) => (Rejected e, mkWorld (cluster w1) (calls w1) t)
    | None =>
        (Resolved (resolvedValues settled),
         mkWorld (cluster w1) (calls w1)
                 (fold_right Nat.max (now w) (map fst settled)))
    end.

(** ** JavaScript strings and numbers *)

Definition byte (a : ascii) : N := N_of_ascii a.

(** White space and line terminators of [String.prototype.trim], as UTF-8:
    one byte (TAB, LF, VT, FF, CR, SP), two bytes (U+00A0), three bytes
    (U+1680, U+2000..U+200A, U+2028, U+2029, U+202F, U+205F, U+3000,
    U+FEFF). *)
Definition isWhiteSpace1 (a : ascii) : bool :=
  let n := byte a in
  ((9 <=? n) && (n <=? 13) || (n =? 32))%N.

Definition isWhiteSpace2 (a b : ascii) : bool :=
  ((byte a =? 194) && (byte b =? 160))%N.

Definition isWhiteSpace3 (a b c : ascii) : bool :=
  let '(x, y, z) := (byte a, byte b, byte c) in
  (((x =? 225) && (y =? 154) && (z =? 128))
   || ((x =? 226) && (y =? 128)
       && (((128 <=? z) && (z <=? 138)) || (z =? 168) || (z =? 169) || (z =? 175)))
   || ((x =? 226) && (y =? 129) && (z =? 159))
   || ((x =? 227) && (y =? 128) && (z =? 128))
   || ((x =? 239) && (y =? 187) && (z =? 191)))%N.

Fixpoint trimStart (s : string) : string :=
  match s with
  | EmptyString => EmptyString
  | String a r1 =>
      if isWhiteSpace1 a then trimStart r1
      else match r1 with
           | EmptyString => s
           | String b r2 =>
               if isWhiteSpace2 a b then trimStart r2
               else match r2 with
                    | EmptyString => s
                    | String c r3 =>
                        if isWhiteSpace3 a b c then trimStart r3 else s
                    end
           end
  end.

(** The same scan from the end, on the reversed string. *)
Fixpoint trimStartRev (s : string) : string :=
  match s with
  | EmptyString => EmptyString
  | String a r1 =>
      if isWhiteSpace1 a then trimStartRev r1
      else match r1 with
           | EmptyString => s
           | String b r2 =>
               if isWhiteSpace2 b a then trimStartRev r2
               else match r2 with
                    | EmptyString => s
                    | String c r3 =>
                        if isWhiteSpace3 c b a then trimStartRev r3 else s
                    end
           end
  end.

Definition trimEnd (s : string) : string :=
  String.rev (trimStartRev (String.rev s)).

(** [s.trim()] *)
Definition trim (s : string) : string := trimEnd (trimStart s).

Definition digitValue (a : ascii) : option Z :=
  let n := byte a in
  if ((48 <=? n) && (n <=? 57))%N then Some (Z.of_N n - 48) else None.

(** The longest prefix of decimal digits, as a number; [None] when the
    prefix is empty. *)
Fixpoint parseDigits (s : string) (acc : option Z) : option Z :=
  match s with
  | EmptyString => acc
  | String a rest =>
      match digitValue a with
      | Some d => parseDigits rest (Some (10 * default 0 acc + d))
      | None => acc
      end
  end.

(** The integer a numeral denotes: leading white space is skipped, then an
    optional sign, then the longest prefix of digits; [None] when there is
    no digit. *)
Definition mathInt (s : string) : option Z :=
  match trimStart s with
  | String "-" rest => Z.opp <$> parseDigits rest None
  | String "+" rest => parseDigits rest None
  | t => parseDigits t None
  end.

(** A JavaScript number that is an integer or infinite.  The two zeros are
    not told apart. *)
Inductive JsInteger :=
| Finite (n : Z)
| Infinite (negative : bool).

(** The number (a double) nearest to an integer: the integer itself up to
    2^53 in magnitude; beyond, it is rounded to 53 significant bits, a tie
    going to the even neighbour; what rounds to 2^1024 or more is
    infinite. *)
Definition roundToDouble (n : Z) : JsInteger :=
  let magnitude := Z.abs n in
  let excess := Z.log2 magnitude + 1 - 53 in
  let rounded :=
    if excess <=? 0 then magnitude
    else
      let quotient := Z.shiftr magnitude excess in
      let remainder := Z.land magnitude (Z.ones excess) in
      let half := Z.shiftl 1 (excess - 1) in
      let up := (half <? remainder) || ((remainder =? half) && Z.odd quotient) in
      Z.shiftl (if up then quotient + 1 else quotient) excess in
  if Z.shiftl 1 1024 <=? rounded then Infinite (n <? 0)
  else Finite (if n <? 0 then - rounded else rounded).

(** [parseInt(s, 10)]; [None] is [NaN].  The digits are read in full and
    the integer is rounded once. *)
Definition parseInt (s : string) : option JsInteger :=
  roundToDouble <$> mathInt s.

(** Template interpolation of an integer, [`${n}`]. *)
Definition numberToString (n : Z) : string :=
  DecimalString.NilZero.string_of_int (Z.to_int n).

Definition base64Alphabet : string :=
  "ABCDEFGHIJKLMNOPQRSTUVWXYZabcdefghijklmnopqrstuvwxyz0123456789+/".

Definition base64Char (n : N) : ascii :=
  match String.get (N.to_nat n) base64Alphabet with
  | Some a => a
  | None => "="%char
  end.

(** [Buffer.from(s).toString('base64')] on the bytes of [s]. *)
Fixpoint base64 (s : string) : string :=
  match s with
  | EmptyString => EmptyString
  | String a EmptyString =>
      let x := byte a in
      String (base64Char (N.shiftr x 2))
        (String (base64Char (N.shiftl (N.land x 3) 4)) "==")
  | String a (String b EmptyString) =>
      let '(x, y) := (byte a, byte b) in
      String (base64Char (N.shiftr x 2))
        (String (base64Char (N.lor (N.shiftl (N.land x 3) 4) (N.shiftr y 4)))
           (String (base64Char (N.shiftl (N.land y 15) 2)) "="))
  | String a (String b (String c rest)) =>
      let '(x, y, z) := (byte a, byte b, byte c) in
      String (base64Char (N.shiftr x 2))
        (String (base64Char (N.lor (N.shiftl (N.land x 3) 4) (N.shiftr y 4)))
           (String (base64Char (N.lor (N.shiftl (N.land y 15) 2) (N.shiftr z 6)))
              (String (base64Char (N.land z 63)) (base64 rest))))
  end.

(** ** [Record<string, string>]

    An object used as a map: its own properties in the order
    [Object.entries] lists them, that is array-index keys first, by
    ascending value, then the other keys in insertion order.  A key occurs
    once. *)
Definition JsObject : Type := list (string * string).

Fixpoint allDigits (s : string) (acc : Z) : option Z :=
  match s with
  | EmptyString => Some acc
  | String a rest =>
      match digitValue a with
      | Some d => allDigits rest (10 * acc + d)
      | None => None
      end
  end.

(** A canonical array index: a decimal numeral without a leading zero,
    below 2^32 - 1. *)
Definition arrayIndex (k : string) : option Z :=
  match k with
  | EmptyString => None
  | String "0" EmptyString => Some 0
  | String "0" _ => None
  | _ => match allDigits k 0 with
         | Some n => if n <? 4294967295 then Some n else None
         | None => None
         end
  end.

(** [o[k]], [undefined] as [None]. *)
Fixpoint obj_get (k : string) (o : JsObject) : option string :=
  match o with
  | [] => None
  | (k1, v1) :: rest => if String.eqb k1 k then Some v1 else obj_get k rest
  end.

Fixpoint obj_update (k v : string) (o : JsObject) : JsObject :=
  match o with
  | [] => []
  | (k1, v1) :: rest =>
      if String.eqb k1 k then (k1, v) :: rest else (k1, v1) :: obj_update k v rest
  end.

Fixpoint obj_insertIndex (n : Z) (k v : string) (o : JsObject) : JsObject :=
  match o with
  | [] => [(k, v)]
  | (k1, v1) :: rest =>
      match arrayIndex k1 with
      | Some n1 =>
          if n1 <? n then (k1, v1) :: obj_insertIndex n k v rest
          else (k, v) :: o
      | None => (k, v) :: o
      end
  end.

(** Defining the own property [k] of [o] with value [v] (what a spread or
    an object literal does). *)
Definition obj_set (k v : string) (o : JsObject) : JsObject :=
  match obj_get k o with
  | Some _ => obj_update k v o
  | None =>
      match arrayIndex k with
      | Some n => obj_insertIndex n k v o
      | None => o ++ [(k, v)]
      end
  end.

(** [o[k] = v] written as an assignment on a plain object: the name
    [__proto__] is an accessor inherited from [Object.prototype], and
    assigning a string to it creates no property. *)
Definition obj_assign (k v : string) (o : JsObject) : JsObject :=
  if String.eqb k "__proto__" then o else obj_set k v o.

Definition Object_entries (o : JsObject) : list (string * string) := o.

(** [{ ...target, ...source }] copies the properties of [source] onto
    [target] one by one. *)
Definition spreadInto (target source : JsObject) : JsObject :=
  fold_left (fun acc kv => obj_set (fst kv) (snd kv) acc)
            (Object_entries source) target.

Fixpoint uniqueKeys (o : JsObject) : bool :=
  match o with
  | [] => true
  | (k, _) :: rest =>
      match obj_get k rest with
      | Some _ => false
      | None => uniqueKeys rest
      end
  end.

(** [x || 0] on an optional counter ([undefined] and [0] both give [0]). *)
Definition orZero (x : option Z) : Z :=
  match x with
  | Some n => n
  | None => 0
  end.

(** [s || fallback] on an optional string ([undefined] and the empty string
    are falsy). *)
Definition orElse (x : option string) (fallback : string) : string :=
  match x with
  | Some EmptyString => fallback
  | Some s => s
  | None => fallback
  end.

(** ** Results of the manager *)

Record SandboxInfo := mkSandboxInfo {
  statefulSetName : string;
  serviceName : string;
  publicUrl : string;
  ttydUrl : string;
  fileBrowserUrl : string
}.

Inductive SandboxStatus :=
| STARTING | RUNNING | STOPPING | STOPPED | TERMINATED | ERROR.

Record StatefulSetStatusDetail := mkDetail {
  status : SandboxStatus;
  replicas : Z;
  readyReplicas : Z;
  currentReplicas : Z;
  updatedReplicas : Z;
  currentRevision : option string;
  updateRevision : option string;
  isReady : bool
}.

Record ExecResult := mkExecResult {
  success : bool;
  pid : option JsInteger;
  error : option string
}.

Definition newline : string := String (ascii_of_nat 10) EmptyString.
Definition doubleQuote : string := String (ascii_of_nat 34) EmptyString.

(** ** The manager *)

Section SandboxManager.

(** Helpers of the repository that live outside this file:
    [isK8sNotFound] of [k8s-error-utils], [KubernetesUtils.toK8sProjectName]
    and [VERSIONS.RUNTIME_IMAGE]. *)
Variable isK8sNotFound : JsError -> bool.
Variable toK8sProjectName : string -> string.
Variable RUNTIME_IMAGE : string.

(** [Buffer.prototype.toString()] of Node: the text the bytes of a chunk
    decode to, as UTF-8. *)
Variable Buffer_toString : Buffer -> string.

Definition getServiceName (sandboxName : string) : string :=
  sandboxName +:+ "-service".

Definition getAppIngressName (sandboxName : string) : string :=
  sandboxName +:+ "-app-ingress".

Definition getTtydIngressName (sandboxName : string) : string :=
  sandboxName +:+ "-ttyd-ingress".

Definition getFileBrowserIngressName (sandboxName : string) : string :=
  sandboxName +:+ "-filebrowser-ingress".

Definition getStatefulSet (sandboxName namespace : string)
    : M (option V1StatefulSet) :=
  tryCatch
    (response ← k8sAppsApi_readNamespacedStatefulSet sandboxName namespace;
     mret (Some (match response with
                 | WithBody body => body
                 | Bare object => object
                 end)))
    (fun error => if isK8sNotFound error then mret None else throw error).

Definition stopSandbox (namespace sandboxName : string) : M unit :=
  tryCatch
    (statefulSet ← getStatefulSet sandboxName namespace;
     match statefulSet with
     | None => mret tt
     | Some statefulSet =>
         let currentReplicas := orZero (sts_spec statefulSet ≫= spec_replicas) in
         if currentReplicas =? 0 then mret tt
         else k8sAppsApi_patchNamespacedStatefulSet sandboxName namespace
                [mkPatchOp "replace" "/spec/replicas" 0]
     end)
    (fun error => throw error).

Definition startSandbox (namespace sandboxName : string) : M unit :=
  tryCatch
    (statefulSet ← getStatefulSet sandboxName namespace;
     match statefulSet with
     | None => mret tt
     | Some statefulSet =>
         let currentReplicas := orZero (sts_spec statefulSet ≫= spec_replicas) in
         if 1 <=? currentReplicas then mret tt
         else k8sAppsApi_patchNamespacedStatefulSet sandboxName namespace
                [mkPatchOp "replace" "/spec/replicas" 1]
     end)
    (fun error => throw error).

Definition getStatefulSetStatus (sandboxName namespace : string)
    : M StatefulSetStatusDetail :=
  tryCatch
    (statefulSet ← getStatefulSet sandboxName namespace;
     match statefulSet with
     | None => mret (mkDetail TERMINATED 0 0 0 0 None None false)
     | Some statefulSet =>
         let specReplicas := orZero (sts_spec statefulSet ≫= spec_replicas) in
         let statusReplicas := orZero (sts_status statefulSet ≫= status_replicas) in
         let readyReplicas := orZero (sts_status statefulSet ≫= status_readyReplicas) in
         let currentReplicas := orZero (sts_status statefulSet ≫= status_currentReplicas) in
         let updatedReplicas := orZero (sts_status statefulSet ≫= status_updatedReplicas) in
         let currentRevision := sts_status statefulSet ≫= status_currentRevision in
         let updateRevision := sts_status statefulSet ≫= status_updateRevision in
         let isReady :=
           (0 <? specReplicas)
           && (statusReplicas =? specReplicas)
           && (readyReplicas =? specReplicas)
           && (currentReplicas =? specReplicas)
           && (updatedReplicas =? specReplicas) in
         let status :=
           if specReplicas =? 0
           then (if 0 <? currentReplicas then STOPPING else STOPPED)
           else (if isReady then RUNNING else STARTING) in
         mret (mkDetail status specReplicas readyReplicas currentReplicas
                 updatedReplicas currentRevision updateRevision isReady)
     end)
    (fun error =>
       ifResponseStatusIs 404 error
         (mret (mkDetail TERMINATED 0 0 0 0 None None false))
         (mret (mkDetail ERROR 0 0 0 0 None None false))).

Definition getSandboxStatus (namespace sandboxName : string) : M SandboxStatus :=
  detail ← getStatefulSetStatus sandboxName namespace;
  mret (status detail).

(** The environment of a container as a map: entries without a name or
    without a literal value are skipped, the others are assigned in
    order, so a later entry of the same name overwrites an earlier one. *)
Definition currentEnvMapOf (mainContainer : V1Container) : JsObject :=
  match c_env mainContainer with
  | Some env =>
      fold_left (fun currentEnvMap envVar =>
                   match ev_name envVar, ev_value envVar with
                   | EmptyString, _ => currentEnvMap
                   | _, None => currentEnvMap
                   | name, Some value => obj_assign name value currentEnvMap
                   end) env []
  | None => []
  end.

(** Step 3 of [updateStatefulSetEnvVars]: some requested key is missing
    from the current map or has another value there. *)
Definition hasChanges (currentEnvMap envVars : JsObject) : bool :=
  existsb (fun kv =>
             match obj_get (fst kv) currentEnvMap with
             | Some current => negb (String.eqb current (snd kv))
             | None => true
             end) (Object_entries envVars).

(** Steps 4 and 5: the merged map as an [env] array, put on every
    container named as the sandbox; the rest of the object is copied. *)
Definition updatedStatefulSetOf (sandboxName : string)
    (statefulSet : V1StatefulSet) (spec : V1StatefulSetSpec)
    (podSpec : V1PodSpec) (currentEnvMap envVars : JsObject) : V1StatefulSet :=
  let mergedEnvMap := spreadInto (spreadInto [] currentEnvMap) envVars in
  let updatedEnv :=
    map (fun kv => mkEnvVar (fst kv) (Some (snd kv)) None)
        (Object_entries mergedEnvMap) in
  let containers :=
    map (fun container =>
           if String.eqb (c_name container) sandboxName
           then mkContainer (c_name container) (c_image container) (Some updatedEnv)
           else container)
        (pod_containers podSpec) in
  let updatedSpec :=
    mkStsSpec (spec_replicas spec) (spec_serviceName spec)
      (mkPodTemplate (tpl_labels (spec_template spec))
         (Some (mkPodSpec containers))) in
  mkSts (sts_metadata statefulSet) (Some updatedSpec) (sts_status statefulSet).

Definition updateStatefulSetEnvVars (namespace sandboxName : string)
    (envVars : JsObject) : M bool :=
  tryCatch
    (statefulSet ← getStatefulSet sandboxName namespace;
     match statefulSet with
     | None => mret false
     | Some statefulSet =>
         match sts_spec statefulSet with
         | None => throw (typeErrorUndefined "template")
         | Some spec =>
             match tpl_spec (spec_template spec) with
             | None => throw (typeErrorUndefined "containers")
             | Some podSpec =>
                 match find (fun container => String.eqb (c_name container) sandboxName)
                            (pod_containers podSpec) with
                 | None => mret false
                 | Some mainContainer =>
                     let currentEnvMap := currentEnvMapOf mainContainer in
                     if negb (hasChanges currentEnvMap envVars) then mret true
                     else
                       let updatedStatefulSet :=
                         updatedStatefulSetOf sandboxName statefulSet spec podSpec
                           currentEnvMap envVars in
                       _ ← k8sAppsApi_replaceNamespacedStatefulSet sandboxName namespace
                             updatedStatefulSet;
                       mret true
                 end
             end
         end
     end)
    (fun error => throw error).

Definition createStatefulSet (sandboxName k8sProjectName namespace : string)
    (containerEnv : JsObject) : M unit :=
  existingStatefulSet ← getStatefulSet sandboxName namespace;
  match existingStatefulSet with
  | Some _ => mret tt
  | None =>
      let statefulSet :=
        mkSts
          (mkMeta sandboxName namespace
             [("cloud.sealos.io/app-deploy-manager", sandboxName);
              ("app", sandboxName);
              ("project.fullstackagent.io/name", k8sProjectName)])
          (Some (mkStsSpec (Some 1) (getServiceName sandboxName)
             (mkPodTemplate
                [("app", sandboxName);
                 ("project.fullstackagent.io/name", k8sProjectName)]
                (Some (mkPodSpec
                   [mkContainer sandboxName RUNTIME_IMAGE
                      (Some (map (fun kv => mkEnvVar (fst kv) (Some (snd kv)) None)
                                 (Object_entries containerEnv)));
                    mkContainer "filebrowser" "filebrowser/filebrowser:v2-s6"
                      (Some [mkEnvVar "FILE_BROWSER_USERNAME"
                               (Some (orElse (obj_get "FILE_BROWSER_USERNAME" containerEnv)
                                             "admin")) None;
                             mkEnvVar "FILE_BROWSER_PASSWORD"
                               (Some (orElse (obj_get "FILE_BROWSER_PASSWORD" containerEnv)
                                             "admin")) None])])))))
          None in
      tryCatch
        (k8sAppsApi_createNamespacedStatefulSet namespace statefulSet)
        (fun error => ifResponseStatusIs 409 error (mret tt) (throw error))
  end.

Definition createService (sandboxName k8sProjectName namespace : string)
    : M unit :=
  let serviceName := getServiceName sandboxName in
  alreadyExists ←
    tryCatch
      (_ ← k8sApi_readNamespacedService serviceName namespace; mret true)
      (fun error => ifResponseStatusIsNot 404 error (throw error) (mret false));
  if (alreadyExists : bool) then mret tt
  else
    let service :=
      mkService
        (mkMeta serviceName namespace
           [("cloud.sealos.io/app-deploy-manager", sandboxName);
            ("project.fullstackagent.io/name", k8sProjectName)])
        [mkPort 3000 3000 "port-3000";
         mkPort 7681 7681 "port-7681";
         mkPort 8080 8080 "port-8080"]
        [("app", sandboxName)] in
    k8sApi_createNamespacedService namespace service.

Definition ingressLabels (sandboxName domainLabel k8sProjectName : string)
    : list (string * string) :=
  [("cloud.sealos.io/app-deploy-manager", sandboxName);
   ("cloud.sealos.io/app-deploy-manager-domain", domainLabel);
   ("project.fullstackagent.io/name", k8sProjectName)].

Definition createAppIngress
    (sandboxName k8sProjectName namespace serviceName ingressDomain : string)
    : V1Ingress :=
  let ingressName := getAppIngressName sandboxName in
  let host := sandboxName +:+ "-app." +:+ ingressDomain in
  mkIngress
    (mkMeta ingressName namespace
       (ingressLabels sandboxName (sandboxName +:+ "-app") k8sProjectName))
    host serviceName 3000.

Definition createTtydIngress
    (sandboxName k8sProjectName namespace serviceName ingressDomain : string)
    : V1Ingress :=
  let ingressName := getTtydIngressName sandboxName in
  let host := sandboxName +:+ "-ttyd." +:+ ingressDomain in
  mkIngress
    (mkMeta ingressName namespace
       (ingressLabels sandboxName (sandboxName +:+ "-ttyd") k8sProjectName))
    host serviceName 7681.

Definition createFileBrowserIngress
    (sandboxName k8sProjectName namespace serviceName ingressDomain : string)
    : V1Ingress :=
  let ingressName := getFileBrowserIngressName sandboxName in
  let host := sandboxName +:+ "-filebrowser." +:+ ingressDomain in
  mkIngress
    (mkMeta ingressName namespace
       (ingressLabels sandboxName (sandboxName +:+ "-filebrowser") k8sProjectName))
    host serviceName 8080.

Definition createIngressIfNotExists (ingressName namespace : string)
    (ingress : V1Ingress) : M unit :=
  tryCatch
    (_ ← k8sNetworkingApi_readNamespacedIngress ingressName namespace; mret tt)
    (fun error =>
       if isK8sNotFound error
       then k8sNetworkingApi_createNamespacedIngress namespace ingress
       else throw error).

Definition createIngresses
    (sandboxName k8sProjectName namespace serviceName ingressDomain : string)
    : M unit :=
  let appIngressName := getAppIngressName sandboxName in
  let ttydIngressName := getTtydIngressName sandboxName in
  let fileBrowserIngressName := getFileBrowserIngressName sandboxName in
  let appIngress :=
    createAppIngress sandboxName k8sProjectName namespace serviceName ingressDomain in
  let ttydIngress :=
    createTtydIngress sandboxName k8sProjectName namespace serviceName ingressDomain in
  let fileBrowserIngress :=
    createFileBrowserIngress sandboxName k8sProjectName namespace serviceName
      ingressDomain in
  _ ← Promise_all
        [createIngressIfNotExists appIngressName namespace appIngress;
         createIngressIfNotExists ttydIngressName namespace ttydIngress;
         createIngressIfNotExists fileBrowserIngressName namespace fileBrowserIngress];
  mret tt.

Definition createSandbox
    (projectName namespace ingressDomain sandboxName : string)
    (envVars : JsObject) : M SandboxInfo :=
  let k8sProjectName := toK8sProjectName projectName in
  let containerEnv := obj_set "PROJECT_NAME" projectName (spreadInto [] envVars) in
  _ ← createStatefulSet sandboxName k8sProjectName namespace containerEnv;
  let serviceName := getServiceName sandboxName in
  _ ← createService sandboxName k8sProjectName namespace;
  _ ← createIngresses sandboxName k8sProjectName namespace serviceName ingressDomain;
  let baseTtydUrl := "https://" +:+ sandboxName +:+ "-ttyd." +:+ ingressDomain in
  let ttydAccessToken := obj_get "TTYD_ACCESS_TOKEN" envVars in
  let ttydUrl :=
    match ttydAccessToken with
    | None => baseTtydUrl
    | Some EmptyString => baseTtydUrl
    | Some token =>
        let credentials := "user:" +:+ token in
        let authBase64 := base64 credentials in
        baseTtydUrl +:+ "?authorization=" +:+ authBase64
    end in
  let fileBrowserUrl :=
    "https://" +:+ sandboxName +:+ "-filebrowser." +:+ ingressDomain in
  mret (mkSandboxInfo sandboxName serviceName
          ("https://" +:+ sandboxName +:+ "-app." +:+ ingressDomain)
          ttydUrl fileBrowserUrl).

Definition deleteStatefulSet (sandboxName namespace : string) : M unit :=
  tryCatch
    (k8sAppsApi_deleteNamespacedStatefulSet sandboxName namespace)
    (fun error => if isK8sNotFound error then mret tt else throw error).

Definition deleteService (sandboxName namespace : string) : M unit :=
  let serviceName := getServiceName sandboxName in
  tryCatch
    (k8sApi_deleteNamespacedService serviceName namespace)
    (fun error => if isK8sNotFound error then mret tt else throw error).

Definition deleteIngress (ingressName namespace : string) : M unit :=
  tryCatch
    (k8sNetworkingApi_deleteNamespacedIngress ingressName namespace)
    (fun error => if isK8sNotFound error then mret tt else throw error).

Definition deleteIngresses (sandboxName namespace : string) : M unit :=
  let appIngressName := getAppIngressName sandboxName in
  let ttydIngressName := getTtydIngressName sandboxName in
  let fileBrowserIngressName := getFileBrowserIngressName sandboxName in
  _ ← Promise_all
        [deleteIngress appIngressName namespace;
         deleteIngress ttydIngressName namespace;
         deleteIngress fileBrowserIngressName namespace];
  mret tt.

Definition deletePVCs (sandboxName namespace : string) : M unit :=
  tryCatch
    (let pvcName := "vn-homevn-fulling-" +:+ sandboxName +:+ "-0" in
     tryCatch
       (k8sApi_deleteNamespacedPersistentVolumeClaim pvcName namespace)
       (fun error => if isK8sNotFound error then mret tt else throw error))
    (fun error => mret tt).

Definition deleteSandbox (namespace sandboxName : string) : M unit :=
  _ ← Promise_all
        [deleteStatefulSet sandboxName namespace;
         deleteService sandboxName namespace;
         deleteIngresses sandboxName namespace;
         deletePVCs sandboxName namespace];
  mret tt.

(** [output += chunk.toString()] for every chunk, in order: each chunk is
    decoded on its own. *)
Definition collectChunks (chunks : list Buffer) : string :=
  fold_left (fun output chunk => output +:+ Buffer_toString chunk) chunks "".

(** [status.status === 'Success'] *)
Definition isSuccess (st : option string) : bool :=
  match st with
  | Some s => String.eqb s "Success"
  | None => false
  end.

(** The promise built around [exec.exec]: the stream handlers append the
    text of each chunk to [output] and [errorOutput]; the status callback
    resolves on ['Success'] and rejects otherwise; when the callback never
    runs, the promise stays pending.  The two buffers are handed on as they
    are when the promise settles. *)
Definition execAndCapture (namespace podName containerName : string)
    (command : list string) : Promise (string * string) :=
  fun env w =>
    match execChannel env namespace podName containerName command with
    | ExecStatus stdoutChunks stderrChunks st message =>
        let output := collectChunks stdoutChunks in
        let errorOutput := collectChunks stderrChunks in
        if isSuccess st then Settled (Resolved (output, errorOutput)) w
        else Settled (Rejected (newError ("Command failed: "
                                          +:+ orElse message errorOutput))) w
    | ExecNoCallback => Pending
    end.

(** The script of [execCommandInBackground]. *)
Definition backgroundScript (workdir command : string) (timestamp : Z) : string :=
  trim (newline +:+ "#!/bin/bash" +:+ newline
        +:+ "cd " +:+ doubleQuote +:+ workdir +:+ doubleQuote +:+ " || exit 1"
        +:+ newline
        +:+ "mkdir -p /tmp/exec-logs" +:+ newline
        +:+ "nohup " +:+ command +:+ " > /tmp/exec-logs/"
        +:+ numberToString timestamp +:+ ".log 2>&1 &" +:+ newline
        +:+ "echo $!" +:+ newline).

Definition execCommandInBackground
    (namespace sandboxName command workdir : string) : Promise ExecResult :=
  fun env =>
    let podName := sandboxName +:+ "-0" in
    let timestamp := dateNow env in
    let script := backgroundScript workdir command timestamp in
    tryCatchP
      (captured ← execAndCapture namespace podName sandboxName ["bash"; "-c"; script];
       let output := fst captured in
       match parseInt (trim output) with
       | None =>
           mret (mkExecResult false None
                   (Some ("Failed to parse PID from output: " +:+ output)))
       | Some pid => mret (mkExecResult true (Some pid) None)
       end)
      (fun error =>
         let errorMessage := errorMessageOf error in
         mret (mkExecResult false None (Some errorMessage)))
      env.

End SandboxManager.

(** ** Vocabulary of the statements *)

(** The declared replica count and the observed counters, as the manager
    reads them. *)
Definition declaredReplicas (s : V1StatefulSet) : Z :=
  orZero (sts_spec s ≫= spec_replicas).

Definition observed (counter : V1StatefulSetStatus -> option Z)
    (s : V1StatefulSet) : Z :=
  orZero (sts_status s ≫= counter).

(** A failed read reports not-found when either test the manager applies to
    the error recognises it: [isK8sNotFound] in [getStatefulSet], or the
    check of [error.response.statusCode] in [getStatefulSetStatus]. *)
Definition reportsNotFound (isK8sNotFound : JsError -> bool) (e : JsError) : bool :=
  isK8sNotFound e || responseStatusIs 404 e.

(** The body [stopSandbox] sends: one [replace] of [/spec/replicas]. *)
Definition stopPatch : list JsonPatchOp := [mkPatchOp "replace" "/spec/replicas" 0].

(** The main container of a workload: the first container of the pod
    template that is named as the sandbox. *)
Definition mainContainer (sandboxName : string) (s : V1StatefulSet)
    : option V1Container :=
  spec ← sts_spec s;
  podSpec ← tpl_spec (spec_template spec);
  find (fun container => String.eqb (c_name container) sandboxName)
       (pod_containers podSpec).

Definition envOf (c : V1Container) : list V1EnvVar := default [] (c_env c).

(** A name the manager's map of the current environment can hold: not
    empty (entries without a name are skipped) and not [__proto__]. *)
Definition mapKey (k : string) : Prop := k ≠ "" ∧ k ≠ "__proto__".

(** The literal value a name has in an [env] array: that of the last entry
    of this name that carries a [value] (Kubernetes lets a later entry
    override an earlier one). *)
Fixpoint envLiteral (k : string) (env : list V1EnvVar) : option string :=
  match env with
  | [] => None
  | e :: rest =>
      match envLiteral k rest with
      | Some v => Some v
      | None => if String.eqb (ev_name e) k then ev_value e else None
      end
  end.

(** [body || response] *)
Definition unwrapResponse {A} (response : ApiResponse A) : A :=
  match response with
  | WithBody body => body
  | Bare object => object
  end.

(** ** Concrete environments for the examples *)

(** An error as the request-based client raises it: an [Error] with the
    HTTP response attached. *)
Definition httpError (statusCode : Z) : JsError :=
  ThrownObject true "HTTP request failed" (ObjectResponse (Some statusCode)) None.

Definition connectionRefused : JsError :=
  ThrownObject true "connect ECONNREFUSED" NoResponse None.

(** An error whose [response] property is [null]. *)
Definition nullResponseError : JsError :=
  ThrownObject true "socket hang up" NullResponse None.

(** One way to write [isK8sNotFound]: a 404 in [code] or in
    [response.statusCode]. *)
Definition statusIs404 (e : JsError) : bool :=
  match e with
  | ThrownObject _ _ _ (Some 404) => true
  | _ => responseStatusIs 404 e
  end.

(** The text of a chunk of ASCII bytes (all that the examples use): the
    bytes themselves. *)
Definition asciiText (chunk : Buffer) : string := chunk.

Definition quietChannel (ns pod container : string) (command : list string)
    : ExecBehaviour :=
  ExecStatus ["4242"; newline] [] (Some "Success") None.

(** No faults, every request takes one tick. *)
Definition calmEnv : Env :=
  mkEnv (fun _ => None) (fun _ => 1%nat) httpError false quietChannel 1730000000000.

Definition emptyCluster : Cluster := mkCluster ∅ ∅ ∅ ∅.

Definition workload (name namespace : string) (declared : option Z)
    (status : option V1StatefulSetStatus) (containers : list V1Container)
    : V1StatefulSet :=
  mkSts (mkMeta name namespace [("app", name)])
        (Some (mkStsSpec declared (name +:+ "-service")
                 (mkPodTemplate [("app", name)] (Some (mkPodSpec containers)))))
        status.

Definition clusterWith (s : V1StatefulSet) : Cluster :=
  mkCluster {[ (meta_namespace (sts_metadata s), meta_name (sts_metadata s)) := s ]}
            ∅ ∅ ∅.

Definition freshWorld (cl : Cluster) : World := mkWorld cl [] 0%nat.

(** Declared 2, observed total 2, ready 2, current 2, updated 1. *)
Definition rollingOut : V1StatefulSet :=
  workload "acme-x1" "ns1" (Some 2)
    (Some (mkStsStatus (Some 2) (Some 2) (Some 2) (Some 1) (Some "rev-1") (Some "rev-2")))
    [mkContainer "acme-x1" "runtime:latest" (Some [])].

Definition oneReplica : V1StatefulSet :=
  workload "acme-x1" "ns1" (Some 1)
    (Some (mkStsStatus (Some 1) (Some 1) (Some 1) (Some 1) (Some "rev-1") (Some "rev-1")))
    [mkContainer "acme-x1" "runtime:latest" (Some [])].

(** A workload whose pod template has no container named as the sandbox. *)
Definition sidecarOnly : V1StatefulSet :=
  workload "acme-x1" "ns1" (Some 1) None
    [mkContainer "filebrowser" "filebrowser/filebrowser:v2-s6" (Some [])].

(** A workload with two literal variables on its main container. *)
Definition devWorkload : V1StatefulSet :=
  workload "acme-x1" "ns1" (Some 1) None
    [mkContainer "acme-x1" "runtime:latest"
       (Some [mkEnvVar "MODE" (Some "dev") None; mkEnvVar "KEEP" (Some "1") None]);
     mkContainer "filebrowser" "filebrowser/filebrowser:v2-s6" (Some [])].

(** A workload whose main container takes one variable from a secret. *)
Definition databaseUrlFromSecret : V1EnvVar :=
  mkEnvVar "DATABASE_URL" None (Some "secretKeyRef:db-conn/url").

Definition withSecretRef : V1StatefulSet :=
  workload "acme-x1" "ns1" (Some 1) None
    [mkContainer "acme-x1" "runtime:latest"
       (Some [databaseUrlFromSecret; mkEnvVar "MODE" (Some "dev") None])].

Definition modeProd : JsObject := [("MODE", "prod")].

(** What the update of [withSecretRef] with [modeProd] submits. *)
Definition secretRefLost : V1StatefulSet :=
  workload "acme-x1" "ns1" (Some 1) None
    [mkContainer "acme-x1" "runtime:latest"
       (Some [mkEnvVar "MODE" (Some "prod") None])].





(** *** Deleting a sandbox *)

(** The error a delete request ends with, if any: an injected fault, or
    the API server's 404 when the object is not there. *)
Definition deleteError (env : Env) (cl : Cluster) (c : ApiCall) : option JsError :=
  match fault env c with
  | Some e => Some e
  | None =>
      match c with
      | DeleteStatefulSet name namespace =>
          match statefulSets cl !! (namespace, name) with
          | Some _ => None
          | None => Some (apiError env 404)
          end
      | DeleteService name namespace =>
          match services cl !! (namespace, name) with
          | Some _ => None
          | None => Some (apiError env 404)
          end
      | DeleteIngress name namespace =>
          match ingresses cl !! (namespace, name) with
          | Some _ => None
          | None => Some (apiError env 404)
          end
      | DeletePersistentVolumeClaim name namespace =>
          if decide ((namespace, name) ∈ persistentVolumeClaims cl) then None
          else Some (apiError env 404)
      | _ => None
      end
  end.

(** The store after a delete request. *)
Definition afterDelete (env : Env) (cl : Cluster) (c : ApiCall) : Cluster :=
  match deleteError env cl c with
  | Some _ => cl
  | None =>
      match c with
      | DeleteStatefulSet name namespace =>
          setStatefulSets (delete (namespace, name) (statefulSets cl)) cl
      | DeleteService name namespace =>
          setServices (delete (namespace, name) (services cl)) cl
      | DeleteIngress name namespace =>
          setIngresses (delete (namespace, name) (ingresses cl)) cl
      | DeletePersistentVolumeClaim name namespace =>
          setPersistentVolumeClaims
            (persistentVolumeClaims cl ∖ {[(namespace, name)]}) cl
      | _ => cl
      end
  end.

(** How a [catch] that lets not-found pass turns the request's end into the
    method's. *)
Definition toleratingNotFound (isK8sNotFound : JsError -> bool)
    (failure : option JsError) : Outcome unit :=
  match failure with
  | None => Resolved tt
  | Some e => if isK8sNotFound e then Resolved tt else Rejected e
  end.

(** The deletions of the workload, the service and the three routes, and
    that of the storage claim. *)
Definition resourceDeletions (namespace sandboxName : string) : list ApiCall :=
  [DeleteStatefulSet sandboxName namespace;
   DeleteService (getServiceName sandboxName) namespace;
   DeleteIngress (getAppIngressName sandboxName) namespace;
   DeleteIngress (getTtydIngressName sandboxName) namespace;
   DeleteIngress (getFileBrowserIngressName sandboxName) namespace].

Definition claimDeletion (namespace sandboxName : string) : ApiCall :=
  DeletePersistentVolumeClaim ("vn-homevn-fulling-" +:+ sandboxName +:+ "-0") namespace.

(** The deletion of the storage claim fails with a server error. *)
Definition claimDeletionFails : Env :=
  mkEnv (fun c => match c with
                  | DeletePersistentVolumeClaim _ _ => Some (httpError 500)
                  | _ => None
                  end)
        (fun _ => 1%nat) httpError false quietChannel 1730000000000.

(** *** Creating a sandbox *)

(** Another caller creates each object between the existence check and the
    create request: every create is answered with 409. *)
Definition everyCreateConflicts : Env :=
  mkEnv (fun c => match c with
                  | CreateStatefulSet _ _ => Some (httpError 409)
                  | CreateService _ _ => Some (httpError 409)
                  | CreateIngress _ _ => Some (httpError 409)
                  | _ => None
                  end)
        (fun _ => 1%nat) httpError false quietChannel 1730000000000.

(** A stand-in for [KubernetesUtils.toK8sProjectName]. *)
Definition projectLabel (projectName : string) : string := projectName.

Definition emptyToken : JsObject := [("TTYD_ACCESS_TOKEN", "")].
Definition tokenAbc : JsObject := [("TTYD_ACCESS_TOKEN", "abc")].

(** *** Background commands *)

(** The script prints something that is not a process id. *)
Definition echoesText (ns pod container : string) (command : list string)
    : ExecBehaviour :=
  ExecStatus ["not-a-pid"; newline] [] (Some "Success") None.

Definition textEnv : Env :=
  mkEnv (fun _ => None) (fun _ => 1%nat) httpError false echoesText 1730000000000.

(** The connection of every exec fails: no status callback ever runs. *)
Definition deadChannelEnv : Env :=
  mkEnv (fun _ => None) (fun _ => 1%nat) httpError false
        (fun _ _ _ _ => ExecNoCallback) 1730000000000.

(** *** Reading the status *)

(** The read of a StatefulSet fails with an error whose [response] is
    [null]. *)
Definition readFailsWithNullResponse : Env :=
  mkEnv (fun c => match c with
                  | ReadStatefulSet _ _ => Some nullResponseError
                  | _ => None
                  end)
        (fun _ => 1%nat) httpError false quietChannel 1730000000000.

(** Declared 0 with three replicas still current, and fully stopped. *)
Definition scalingDown : V1StatefulSet :=
  workload "acme-x1" "ns1" (Some 0)
    (Some (mkStsStatus (Some 3) (Some 3) (Some 3) (Some 3) None None))
    [mkContainer "acme-x1" "runtime:latest" (Some [])].

Definition stopped : V1StatefulSet :=
  workload "acme-x1" "ns1" (Some 0)
    (Some (mkStsStatus (Some 0) None (Some 0) None None None))
    [mkContainer "acme-x1" "runtime:latest" (Some [])].

(** ** Probing and killing by port *)

Section PortProbes.

Variable Buffer_toString : Buffer -> string.

(** The promise of [isPortListening] and [killProcessOnPort]: only stdout is
    collected, and the status callback resolves whatever the status; when
    the callback never runs, the promise stays pending. *)
Definition execIgnoringStatus (namespace podName containerName : string)
    (command : list string) : Promise string :=
  fun env w =>
    match execChannel env namespace podName containerName command with
    | ExecStatus stdoutChunks _ _ _ =>
        Settled (Resolved (collectChunks Buffer_toString stdoutChunks)) w
    | ExecNoCallback => Pending
    end.

Definition portProbeScript (port : Z) : string :=
  "netstat -tuln 2>/dev/null | grep -q ':" +:+ numberToString port
  +:+ " ' && echo 'listening' || echo 'not listening'".

Definition isPortListening (namespace sandboxName : string) (port : Z)
    : Promise bool :=
  let podName := sandboxName +:+ "-0" in
  let script := portProbeScript port in
  tryCatchP
    (output ← execIgnoringStatus namespace podName sandboxName ["bash"; "-c"; script];
     mret (String.eqb (trim output) "listening"))
    (fun error => mret false).

Record KillResult := mkKillResult {
  kill_success : bool;
  kill_error : option string
}.

Definition portKillScript (port : Z) : string :=
  trim (newline
        +:+ "pid=$(netstat -tulnp 2>/dev/null | grep ':" +:+ numberToString port
        +:+ " ' | awk '{print $7}' | cut -d'/' -f1 | head -1)" +:+ newline
        +:+ "if [ -n " +:+ doubleQuote +:+ "$pid" +:+ doubleQuote
        +:+ " ] && [ " +:+ doubleQuote +:+ "$pid" +:+ doubleQuote
        +:+ " != " +:+ doubleQuote +:+ "-" +:+ doubleQuote +:+ " ]; then" +:+ newline
        +:+ "  kill $pid 2>/dev/null && echo " +:+ doubleQuote +:+ "killed $pid"
        +:+ doubleQuote +:+ " || echo " +:+ doubleQuote +:+ "failed" +:+ doubleQuote
        +:+ newline
        +:+ "else" +:+ newline
        +:+ "  echo " +:+ doubleQuote +:+ "no process" +:+ doubleQuote +:+ newline
        +:+ "fi" +:+ newline).

Definition killProcessOnPort (namespace sandboxName : string) (port : Z)
    : Promise KillResult :=
  let podName := sandboxName +:+ "-0" in
  let script := portKillScript port in
  tryCatchP
    (output ← execIgnoringStatus namespace podName sandboxName ["bash"; "-c"; script];
     let result := trim output in
     if String.prefix "killed" result then mret (mkKillResult true None)
     else if String.eqb result "no process" then mret (mkKillResult true None)
     else mret (mkKillResult false (Some "Failed to kill process")))
    (fun error =>
       let errorMessage := errorMessageOf error in
       mret (mkKillResult false (Some errorMessage))).

End PortProbes.

(** ** The facade, [KubernetesService]

    The constructor keeps the default namespace of the kubeconfig; the
    ingress domain is read from the kubeconfig at each call. *)
Module KubernetesService.

Record t := mk {
  defaultNamespace : string;
  ingressDomain : string
}.

Section Facade.

Variable isK8sNotFound : JsError -> bool.
Variable toK8sProjectName : string -> string.
Variable RUNTIME_IMAGE : string.
Variable Buffer_toString : Buffer -> string.
Variable this : t.

(** [namespace || this.defaultNamespace] *)
Definition orDefaultNamespace (namespace : string) : string :=
  match namespace with
  | EmptyString => defaultNamespace this
  | _ => namespace
  end.

Definition getIngressDomain : string := ingressDomain this.

Definition createSandbox (projectName namespace sandboxName : string)
    (envVars : JsObject) : M SandboxInfo :=
  let namespace := orDefaultNamespace namespace in
  let ingressDomain := getIngressDomain in
  createSandbox isK8sNotFound toK8sProjectName RUNTIME_IMAGE
    projectName namespace ingressDomain sandboxName envVars.

Definition deleteSandbox (namespace sandboxName : string) : M unit :=
  let namespace := orDefaultNamespace namespace in
  deleteSandbox isK8sNotFound namespace sandboxName.

Definition getSandboxStatus (namespace sandboxName : string) : M SandboxStatus :=
  let namespace := orDefaultNamespace namespace in
  getSandboxStatus isK8sNotFound namespace sandboxName.

Definition getSandboxDetailedStatus (sandboxName namespace : string)
    : M StatefulSetStatusDetail :=
  let namespace := orDefaultNamespace namespace in
  getStatefulSetStatus isK8sNotFound sandboxName namespace.

Definition stopSandbox (namespace sandboxName : string) : M unit :=
  let namespace := orDefaultNamespace namespace in
  stopSandbox isK8sNotFound namespace sandboxName.

Definition startSandbox (namespace sandboxName : string) : M unit :=
  let namespace := orDefaultNamespace namespace in
  startSandbox isK8sNotFound namespace sandboxName.

Definition updateSandboxEnvVars (namespace sandboxName : string)
    (envVars : JsObject) : M bool :=
  let namespace := orDefaultNamespace namespace in
  updateStatefulSetEnvVars isK8sNotFound namespace sandboxName envVars.

(** [workdir] is optional here; the manager's parameter defaults to
    [/home/fulling] when it is [undefined]. *)
Definition execCommandInBackground (namespace sandboxName command : string)
    (workdir : option string) : Promise ExecResult :=
  let namespace := orDefaultNamespace namespace in
  execCommandInBackground Buffer_toString namespace sandboxName command
    (match workdir with
     | Some dir => dir
     | None => "/home/fulling"
     end).

Definition isPortListening (namespace sandboxName : string) (port : Z)
    : Promise bool :=
  let namespace := orDefaultNamespace namespace in
  isPortListening Buffer_toString namespace sandboxName port.

Definition killProcessOnPort (namespace sandboxName : string) (port : Z)
    : Promise KillResult :=
  let namespace := orDefaultNamespace namespace in
  killProcessOnPort Buffer_toString namespace sandboxName port.

End Facade.

End KubernetesService.

(** ** The route handlers of [app/api/sandbox/[id]]

    A handler runs inside [withAuth], which hands it the session; the
    database lookups it awaits ([verifySandboxAccess],
    [getK8sServiceForUser]) live outside these files and are part of the
    handler's dependencies. *)

(** A value of [resolvedParams.id]: a string or an array of strings. *)
Inductive RouteParam :=
| SingleParam (value : string)
| ArrayParam (values : list string).

(** [Array.isArray(id) ? id[0] : id] *)
Definition paramId (id : RouteParam) : option string :=
  match id with
  | SingleParam value => Some value
  | ArrayParam values => head values
  end.

Record SandboxRow := mkSandboxRow {
  row_sandboxName : string;
  row_k8sNamespace : string
}.

Record RouteDeps := mkRouteDeps {
  verifySandboxAccess : option string -> string -> Outcome SandboxRow;
  getK8sServiceForUser : string -> Outcome KubernetesService.t
}.

(** A value of [JSON.parse].  A number is kept by the text [String] gives
    for it (["0"] for zero, of either sign); an object by its own
    properties, each key once. *)
#[local] Unset Elimination Schemes.
Inductive JsonValue :=
| JsonNull
| JsonBool (b : bool)
| JsonNumber (text : string)
| JsonString (s : string)
| JsonArray (items : list JsonValue)
| JsonObject (properties : list (string * JsonValue)).
#[local] Set Elimination Schemes.

(** Truthiness, as [!value] and [value || other] test it. *)
Definition truthy (value : option JsonValue) : bool :=
  match value with
  | None => false
  | Some JsonNull => false
  | Some (JsonBool b) => b
  | Some (JsonNumber text) => negb (String.eqb text "0")
  | Some (JsonString s) => negb (String.eqb s "")
  | Some (JsonArray _) => true
  | Some (JsonObject _) => true
  end.

Fixpoint ownProperty (name : string) (properties : list (string * JsonValue))
    : option JsonValue :=
  match properties with
  | [] => None
  | (key, value) :: rest =>
      if String.eqb key name then Some value else ownProperty name rest
  end.

(** [String(value)], as a template literal interpolates it; [None] is the
    [TypeError] of a value that has no primitive.  An array joins its items
    with commas, [null] items giving the empty string.  An object gives
    [[object Object]], unless it has an own property [toString]: a value
    of [JSON.parse] is never callable, and [valueOf] hands the object
    back. *)
Fixpoint toStringOf (value : JsonValue) : option string :=
  match value with
  | JsonNull => Some "null"
  | JsonBool true => Some "true"
  | JsonBool false => Some "false"
  | JsonNumber text => Some text
  | JsonString s => Some s
  | JsonArray items =>
      (fix join (rest : list JsonValue) : option string :=
         match rest with
         | [] => Some ""
         | item :: more =>
             let itemText :=
               match item with
               | JsonNull => Some ""
               | _ => toStringOf item
               end in
             match more with
             | [] => itemText
             | _ =>
                 match itemText, join more with
                 | Some text, Some others => Some (text +:+ "," +:+ others)
                 | _, _ => None
                 end
             end
         end) items
  | JsonObject properties =>
      match ownProperty "toString" properties with
      | Some _ => None
      | None => Some "[object Object]"
      end
  end.

Definition typeErrorNotPrimitive : JsError :=
  newError "Cannot convert object to primitive value".

(** [`${value}`] for a value that may be [undefined]. *)
Definition interpolate (value : option JsonValue) : Outcome string :=
  match value with
  | None => Resolved "undefined"
  | Some present =>
      match toStringOf present with
      | Some text => Resolved text
      | None => Rejected typeErrorNotPrimitive
      end
  end.

(** The same for an argument that keeps [undefined] apart, as a parameter
    with a default does. *)
Definition interpolateIfDefined (value : option JsonValue) : Outcome (option string) :=
  match value with
  | None => Resolved None
  | Some present =>
      match toStringOf present with
      | Some text => Resolved (Some text)
      | None => Rejected typeErrorNotPrimitive
      end
  end.

(** [body.name] for a name that no prototype defines ([command],
    [workdir]): the own property of an object, [undefined] on an array or a
    primitive, a [TypeError] on [null]. *)
Definition readProperty (body : JsonValue) (name : string)
    : Outcome (option JsonValue) :=
  match body with
  | JsonNull => Rejected (typeErrorNull name)
  | JsonObject properties => Resolved (ownProperty name properties)
  | _ => Resolved None
  end.

(** [NextResponse.json(body, { status })] *)
Record HttpResponse (A : Type) := mkResponse {
  http_status : Z;
  http_body : A
}.
Arguments mkResponse {A} http_status http_body.
Arguments http_status {A} _.
Arguments http_body {A} _.

(** [await] of a promise that does not go through the cluster. *)
Definition awaitOutcome {A} (o : Outcome A) : Promise A := fun _ w => Settled o w.

(** [error instanceof Error ? error.message : 'Unknown error'] *)
Definition messageOrUnknown (error : JsError) : string :=
  match error with
  | ThrownObject true message _ _ => message
  | _ => "Unknown error"
  end.

Module ExecRoute.

(** [context.params] is awaited before the [try] block.  The body is
    used as parsed: [command] and [workdir] are whatever JSON values it
    holds.  The log line before the service lookup interpolates
    [body.command]; the manager interpolates [workdir] into its script
    ahead of its own [try] block, so a [workdir] without a primitive
    rejects the manager's call; a [workdir] that is [undefined] takes the
    manager's default. *)
Definition POST (Buffer_toString : Buffer -> string) (deps : RouteDeps)
    (params : Outcome RouteParam) (userId : string)
    (requestJson : Outcome JsonValue) : Promise (HttpResponse ExecResult) :=
  resolvedParams ← awaitOutcome params;
  let sandboxId := paramId resolvedParams in
  tryCatchP
    (body ← awaitOutcome requestJson;
     command ← awaitOutcome (readProperty body "command");
     if negb (truthy command)
     then mret (mkResponse 400 (mkExecResult false None (Some "command is required")))
     else
       sandbox ← awaitOutcome (verifySandboxAccess deps sandboxId userId);
       commandText ← awaitOutcome (interpolate command);
       k8sService ← awaitOutcome (getK8sServiceForUser deps userId);
       workdir ← awaitOutcome (readProperty body "workdir");
       workdirText ← awaitOutcome (interpolateIfDefined workdir);
       result ← KubernetesService.execCommandInBackground Buffer_toString k8sService
                  (row_k8sNamespace sandbox) (row_sandboxName sandbox)
                  commandText workdirText;
       mret (mkResponse (if success result then 200 else 500) result))
    (fun error =>
       let errorMessage := messageOrUnknown error in
       mret (mkResponse 500
               (mkExecResult false None
                  (Some ("Failed to execute command: " +:+ errorMessage))))).

End ExecRoute.

Module AppStatusRoute.

Definition APP_PORT : Z := 3000.

(** A response without [{ status }] is a 200. *)
Definition GET (Buffer_toString : Buffer -> string) (deps : RouteDeps)
    (params : Outcome RouteParam) (userId : string) : Promise (HttpResponse bool) :=
  resolvedParams ← awaitOutcome params;
  let sandboxId := paramId resolvedParams in
  tryCatchP
    (sandbox ← awaitOutcome (verifySandboxAccess deps sandboxId userId);
     k8sService ← awaitOutcome (getK8sServiceForUser deps userId);
     running ← KubernetesService.isPortListening Buffer_toString k8sService
                 (row_k8sNamespace sandbox) (row_sandboxName sandbox) APP_PORT;
     mret (mkResponse 200 running))
    (fun error => mret (mkResponse 200 false)).

Definition DELETE (Buffer_toString : Buffer -> string) (deps : RouteDeps)
    (params : Outcome RouteParam) (userId : string)
    : Promise (HttpResponse KillResult) :=
  resolvedParams ← awaitOutcome params;
  let sandboxId := paramId resolvedParams in
  tryCatchP
    (sandbox ← awaitOutcome (verifySandboxAccess deps sandboxId userId);
     k8sService ← awaitOutcome (getK8sServiceForUser deps userId);
     result ← KubernetesService.killProcessOnPort Buffer_toString k8sService
                (row_k8sNamespace sandbox) (row_sandboxName sandbox) APP_PORT;
     mret (mkResponse 200 result))
    (fun error =>
       let errorMessage := messageOrUnknown error in
       mret (mkResponse 500 (mkKillResult false (Some errorMessage)))).

End AppStatusRoute.

(** ** The hook [useAppRunner] *)

Definition BASE_DIR : string := "/home/fulling/next".

(** [deployDir.replace(/^\.\//, '')] *)
Definition stripDotSlash (deployDir : string) : string :=
  match deployDir with
  | String "." (String "/" rest) => rest
  | _ => deployDir
  end.

(** The working directory computed from [deployDir]. *)
Definition workdirOf (deployDir : string) : string :=
  if String.eqb deployDir "./" || String.eqb deployDir "." then BASE_DIR
  else BASE_DIR +:+ "/" +:+ stripDotSlash deployDir.

(** The polling loop of [startApp]: [pollStatus] is asked until it answers
    [true] or [maxAttempts] is reached; [remaining] is
    [maxAttempts - attempts].  The result is whether the app was seen
    running and the value of [attempts] at the end. *)
Fixpoint poll (pollStatus : nat -> bool) (remaining attempts : nat) : bool * nat :=
  match remaining with
  | O => (false, attempts)
  | S remaining' =>
      let attempts := S attempts in
      if pollStatus attempts then (true, attempts)
      else poll pollStatus remaining' attempts
  end.

Definition maxAttempts : nat := 30.

(** ** Vocabulary of the further statements *)

(** No request is failed from outside. *)
Definition faultFree (env : Env) : Prop := ∀ c, fault env c = None.

(** The manager's two tests of a missing object agree with the client: its
    404 is recognised by [isK8sNotFound], and [createService] takes it as
    absence (its guard evaluates, and to false). *)
Definition tells404 (isK8sNotFound : JsError -> bool) (env : Env) : Prop :=
  isK8sNotFound (apiError env 404) = true
  ∧ responseStatusIsNot 404 (apiError env 404) = false
  ∧ statusCodeReadThrows (apiError env 404) = None.

(** The body [startSandbox] sends. *)
Definition startPatch : list JsonPatchOp := [mkPatchOp "replace" "/spec/replicas" 1].

(** Two workloads that differ at most in [spec.replicas]. *)
Definition sameExceptReplicas (s s' : V1StatefulSet) : Prop :=
  sts_metadata s' = sts_metadata s
  ∧ sts_status s' = sts_status s
  ∧ (spec_serviceName <$> sts_spec s') = (spec_serviceName <$> sts_spec s)
  ∧ (spec_template <$> sts_spec s') = (spec_template <$> sts_spec s).

(** A scaling method touched nothing but the replicas of one workload. *)
Definition onlyReplicasOf (namespace sandboxName : string) (before after : Cluster)
    : Prop :=
  services after = services before
  ∧ ingresses after = ingresses before
  ∧ persistentVolumeClaims after = persistentVolumeClaims before
  ∧ (∀ key, key ≠ (namespace, sandboxName) →
            statefulSets after !! key = statefulSets before !! key)
  ∧ match statefulSets before !! (namespace, sandboxName) with
    | None => statefulSets after !! (namespace, sandboxName) = None
    | Some s =>
        ∃ s', statefulSets after !! (namespace, sandboxName) = Some s'
              ∧ sameExceptReplicas s s'
    end.

(** The workload and the service that [createStatefulSet] and
    [createService] submit. *)
Definition statefulSetBody (RUNTIME_IMAGE sandboxName k8sProjectName namespace : string)
    (containerEnv : JsObject) : V1StatefulSet :=
  mkSts
    (mkMeta sandboxName namespace
       [("cloud.sealos.io/app-deploy-manager", sandboxName);
        ("app", sandboxName);
        ("project.fullstackagent.io/name", k8sProjectName)])
    (Some (mkStsSpec (Some 1) (getServiceName sandboxName)
       (mkPodTemplate
          [("app", sandboxName);
           ("project.fullstackagent.io/name", k8sProjectName)]
          (Some (mkPodSpec
             [mkContainer sandboxName RUNTIME_IMAGE
                (Some (map (fun kv => mkEnvVar (fst kv) (Some (snd kv)) None)
                           (Object_entries containerEnv)));
              mkContainer "filebrowser" "filebrowser/filebrowser:v2-s6"
                (Some [mkEnvVar "FILE_BROWSER_USERNAME"
                         (Some (orElse (obj_get "FILE_BROWSER_USERNAME" containerEnv)
                                       "admin")) None;
                       mkEnvVar "FILE_BROWSER_PASSWORD"
                         (Some (orElse (obj_get "FILE_BROWSER_PASSWORD" containerEnv)
                                       "admin")) None])])))))
    None.

Definition serviceBody (sandboxName k8sProjectName namespace : string) : V1Service :=
  mkService
    (mkMeta (getServiceName sandboxName) namespace
       [("cloud.sealos.io/app-deploy-manager", sandboxName);
        ("project.fullstackagent.io/name", k8sProjectName)])
    [mkPort 3000 3000 "port-3000";
     mkPort 7681 7681 "port-7681";
     mkPort 8080 8080 "port-8080"]
    [("app", sandboxName)].

(** The store once an object is there: put if missing, kept if present. *)
Definition ensureStatefulSet (namespace : string) (body : V1StatefulSet)
    (cl : Cluster) : Cluster :=
  match statefulSets cl !! (namespace, meta_name (sts_metadata body)) with
  | Some _ => cl
  | None =>
      setStatefulSets
        (<[(namespace, meta_name (sts_metadata body)) := body]> (statefulSets cl)) cl
  end.

Definition ensureService (namespace : string) (body : V1Service)
    (cl : Cluster) : Cluster :=
  match services cl !! (namespace, meta_name (svc_metadata body)) with
  | Some _ => cl
  | None =>
      setServices (<[(namespace, meta_name (svc_metadata body)) := body]> (services cl)) cl
  end.

Definition ensureIngress (namespace : string) (body : V1Ingress)
    (cl : Cluster) : Cluster :=
  match ingresses cl !! (namespace, meta_name (ing_metadata body)) with
  | Some _ => cl
  | None =>
      setIngresses (<[(namespace, meta_name (ing_metadata body)) := body]> (ingresses cl)) cl
  end.

(** Nothing was removed or overwritten: every object of [before] is in
    [after] as it was, and the storage claims are the same. *)
Definition keeps (before after : Cluster) : Prop :=
  (∀ key s, statefulSets before !! key = Some s → statefulSets after !! key = Some s)
  ∧ (∀ key s, services before !! key = Some s → services after !! key = Some s)
  ∧ (∀ key s, ingresses before !! key = Some s → ingresses after !! key = Some s)
  ∧ persistentVolumeClaims after = persistentVolumeClaims before.

(** A method that never removes or overwrites. *)
Definition additive {A} (m : M A) : Prop :=
  ∀ env w, keeps (cluster w) (cluster (snd (m env w))).

(** What a call does, leaving time aside: its outcome, the store it
    leaves and the requests it adds to the log. *)
Definition runs {A} (m : M A) (env : Env) (w : World)
    (o : Outcome A) (cl : Cluster) (log : list ApiCall) : Prop :=
  fst (m env w) = o
  ∧ cluster (snd (m env w)) = cl
  ∧ calls (snd (m env w)) = calls w ++ log.

(** The store once a sandbox is provisioned in it. *)
Definition provisioned (toK8sProjectName : string → string) (RUNTIME_IMAGE : string)
    (projectName namespace ingressDomain sandboxName : string) (envVars : JsObject)
    (cl : Cluster) : Cluster :=
  let k8sProjectName := toK8sProjectName projectName in
  let containerEnv := obj_set "PROJECT_NAME" projectName (spreadInto [] envVars) in
  let serviceName := getServiceName sandboxName in
  ensureIngress namespace
    (createFileBrowserIngress sandboxName k8sProjectName namespace serviceName
       ingressDomain)
    (ensureIngress namespace
       (createTtydIngress sandboxName k8sProjectName namespace serviceName ingressDomain)
       (ensureIngress namespace
          (createAppIngress sandboxName k8sProjectName namespace serviceName
             ingressDomain)
          (ensureService namespace (serviceBody sandboxName k8sProjectName namespace)
             (ensureStatefulSet namespace
                (statefulSetBody RUNTIME_IMAGE sandboxName k8sProjectName namespace
                   containerEnv)
                cl)))).

(** The five objects of a sandbox are in the store. *)
Definition allPresent (namespace sandboxName : string) (cl : Cluster) : Prop :=
  is_Some (statefulSets cl !! (namespace, sandboxName))
  ∧ is_Some (services cl !! (namespace, getServiceName sandboxName))
  ∧ is_Some (ingresses cl !! (namespace, getAppIngressName sandboxName))
  ∧ is_Some (ingresses cl !! (namespace, getTtydIngressName sandboxName))
  ∧ is_Some (ingresses cl !! (namespace, getFileBrowserIngressName sandboxName)).

(** None of them is. *)
Definition noneOf (namespace sandboxName : string) (cl : Cluster) : Prop :=
  statefulSets cl !! (namespace, sandboxName) = None
  ∧ services cl !! (namespace, getServiceName sandboxName) = None
  ∧ ingresses cl !! (namespace, getAppIngressName sandboxName) = None
  ∧ ingresses cl !! (namespace, getTtydIngressName sandboxName) = None
  ∧ ingresses cl !! (namespace, getFileBrowserIngressName sandboxName) = None.

(** The storage claim of the sandbox's first pod. *)
Definition claimOf (namespace sandboxName : string) : string * string :=
  (namespace, "vn-homevn-fulling-" +:+ sandboxName +:+ "-0").

(** The store without the five objects of a sandbox and its storage claim. *)
Definition removed (namespace sandboxName : string) (cl : Cluster) : Cluster :=
  mkCluster
    (delete (namespace, sandboxName) (statefulSets cl))
    (delete (namespace, getServiceName sandboxName) (services cl))
    (delete (namespace, getFileBrowserIngressName sandboxName)
       (delete (namespace, getTtydIngressName sandboxName)
          (delete (namespace, getAppIngressName sandboxName) (ingresses cl))))
    (persistentVolumeClaims cl ∖ {[claimOf namespace sandboxName]}).

(** A route sends the host [host] to port [port] of the service, a port
    the service exposes. *)
Definition routesTo (route : V1Ingress) (service : V1Service) (host : string)
    (port : Z) : Prop :=
  ing_host route = host
  ∧ ing_serviceName route = meta_name (svc_metadata service)
  ∧ ing_servicePort route = port
  ∧ In port (map port_port (svc_ports service)).

(** What follows the host in the terminal's URL: nothing, or the
    authorization parameter when a non-empty token is requested. *)
Definition ttydQuery (envVars : JsObject) : string :=
  match obj_get "TTYD_ACCESS_TOKEN" envVars with
  | None => ""
  | Some EmptyString => ""
  | Some token => "?authorization=" +:+ base64 ("user:" +:+ token)
  end.

(** The service is the governing service of the workload and selects the
    pods of its template. *)
Definition selects (service : V1Service) (workload : V1StatefulSet) : Prop :=
  ∃ spec,
    sts_spec workload = Some spec
    ∧ spec_serviceName spec = meta_name (svc_metadata service)
    ∧ svc_selector service ≠ []
    ∧ ∀ label, In label (svc_selector service) →
               In label (tpl_labels (spec_template spec)).

(** The five existence checks of [createSandbox]. *)
Definition existenceChecks (namespace sandboxName : string) : list ApiCall :=
  [ReadStatefulSet sandboxName namespace;
   ReadService (getServiceName sandboxName) namespace;
   ReadIngress (getAppIngressName sandboxName) namespace;
   ReadIngress (getTtydIngressName sandboxName) namespace;
   ReadIngress (getFileBrowserIngressName sandboxName) namespace].

(** Every read is refused at the connection: the error carries no
    [response]. *)
Definition readsRefused : Env :=
  mkEnv (fun c => match c with
                  | ReadStatefulSet _ _ => Some connectionRefused
                  | ReadService _ _ => Some connectionRefused
                  | ReadIngress _ _ => Some connectionRefused
                  | _ => None
                  end)
        (fun _ => 1%nat) httpError false quietChannel 1730000000000.

(** The containers of a workload's pod template. *)
Definition containersOf (s : V1StatefulSet) : list V1Container :=
  match sts_spec s ≫= (fun spec => tpl_spec (spec_template spec)) with
  | Some podSpec => pod_containers podSpec
  | None => []
  end.

(** [s1] is [s] up to the [env] of the containers named [sandboxName]:
    same metadata, status, replicas, service name and labels, the same
    containers in the same order with their names and images, and every
    container of another name untouched. *)
Definition sameExceptEnv (sandboxName : string) (s s1 : V1StatefulSet) : Prop :=
  sts_metadata s1 = sts_metadata s
  ∧ sts_status s1 = sts_status s
  ∧ (spec_replicas <$> sts_spec s1) = (spec_replicas <$> sts_spec s)
  ∧ (spec_serviceName <$> sts_spec s1) = (spec_serviceName <$> sts_spec s)
  ∧ ((fun spec => tpl_labels (spec_template spec)) <$> sts_spec s1)
    = ((fun spec => tpl_labels (spec_template spec)) <$> sts_spec s)
  ∧ Forall2 (fun c c1 =>
               c_name c1 = c_name c
               ∧ c_image c1 = c_image c
               ∧ (c_name c ≠ sandboxName → c1 = c))
            (containersOf s) (containersOf s1).

Definition onlyEnvOf (namespace sandboxName : string) (before after : Cluster) : Prop :=
  services after = services before
  ∧ ingresses after = ingresses before
  ∧ persistentVolumeClaims after = persistentVolumeClaims before
  ∧ (∀ key, key ≠ (namespace, sandboxName) →
            statefulSets after !! key = statefulSets before !! key)
  ∧ match statefulSets before !! (namespace, sandboxName) with
    | None => statefulSets after !! (namespace, sandboxName) = None
    | Some s =>
        ∃ s1, statefulSets after !! (namespace, sandboxName) = Some s1
              ∧ sameExceptEnv sandboxName s s1
    end.

(** Dependencies of the route handlers for the examples: the caller owns
    the sandbox [acme-x1] of namespace [ns1], or is refused. *)
Definition ownerDeps : RouteDeps :=
  mkRouteDeps (fun _ _ => Resolved (mkSandboxRow "acme-x1" "ns1"))
              (fun _ => Resolved (KubernetesService.mk "ns-default" "usw.example.io")).

Definition refusedDeps : RouteDeps :=
  mkRouteDeps (fun _ _ => Rejected (newError "Sandbox not found"))
              (fun _ => Resolved (KubernetesService.mk "ns-default" "usw.example.io")).

(** The kill script reports that the process could not be killed. *)
Definition killFails : Env :=
  mkEnv (fun _ => None) (fun _ => 1%nat) httpError false
        (fun _ _ _ _ => ExecStatus ["failed"; newline] [] (Some "Success") None)
        1730000000000.

(** * Properties *)

(** ** The JavaScript helpers on small inputs *)

Example base64_credentials : base64 "user:pass" = "dXNlcjpwYXNz".
Proof. reflexivity. Qed.

Example base64_padding : (base64 "M", base64 "Ma", base64 "Man") = ("TQ==", "TWE=", "TWFu").
Proof. reflexivity. Qed.

Example parseInt_pid : parseInt (trim ("4242" +:+ newline)) = Some (Finite 4242).
Proof. reflexivity. Qed.

Example parseInt_prefix :
  (parseInt " -12px", parseInt "abc", parseInt "") = (Some (Finite (-12)), None, None).
Proof. reflexivity. Qed.

(** Beyond 2^53 the integer is rounded to the nearest double, a tie to the
    even one. *)
Example parseInt_rounds :
  (parseInt "9007199254740993", parseInt "9007199254740995",
   parseInt "-9007199254740993")
  = (Some (Finite 9007199254740992), Some (Finite 9007199254740996),
     Some (Finite (-9007199254740992))).
Proof. vm_compute. reflexivity. Qed.

Example roundToDouble_overflows :
  (roundToDouble (2 ^ 1024 - 2 ^ 970), roundToDouble (2 ^ 1024 - 2 ^ 970 - 1),
   roundToDouble (- 2 ^ 1024))
  = (Infinite false, Finite (2 ^ 1024 - 2 ^ 971), Infinite true).
Proof. vm_compute. reflexivity. Qed.

Example trim_both_ends : trim (newline +:+ "  a b " +:+ newline) = "a b".
Proof. reflexivity. Qed.

(** Array-index keys come first, in ascending order. *)
Example entries_order :
  Object_entries (obj_set "1" "x" (obj_set "b" "y" (obj_set "10" "z" (obj_set "a" "w" []))))
  = [("1", "x"); ("10", "z"); ("a", "w"); ("b", "y")].
Proof. reflexivity. Qed.

Example backgroundScript_sample :
  backgroundScript "/home/fulling" "pnpm dev" 1730000000000
  = "#!/bin/bash" +:+ newline
    +:+ "cd " +:+ doubleQuote +:+ "/home/fulling" +:+ doubleQuote +:+ " || exit 1" +:+ newline
    +:+ "mkdir -p /tmp/exec-logs" +:+ newline
    +:+ "nohup pnpm dev > /tmp/exec-logs/1730000000000.log 2>&1 &" +:+ newline
    +:+ "echo $!".
Proof. reflexivity. Qed.

(** ** Running a method *)

Lemma bind_run {A B} (m : M A) (k : A → M B) env w :
  (m ≫= k) env w
  = match m env w with
    | (Resolved a, w1) => k a env w1
    | (Rejected e, w1) => (Rejected e, w1)
    end.
Proof. reflexivity. Qed.

Lemma tryCatch_run {A} (body : M A) handler env w :
  tryCatch body handler env w
  = match body env w with
    | (Resolved a, w1) => (Resolved a, w1)
    | (Rejected e, w1) => handler e env w1
    end.
Proof. reflexivity. Qed.

Lemma ret_run {A} (a : A) env w : (mret a : M A) env w = (Resolved a, w).
Proof. reflexivity. Qed.

Lemma throw_run {A} e env w : (throw e : M A) env w = (Rejected e, w).
Proof. reflexivity. Qed.

Lemma request_run {A} c (serve : Env → Cluster → Outcome A * Cluster) env w :
  request c serve env w
  = match fault env c with
    | Some e =>
        (Rejected e, mkWorld (cluster w) (calls w ++ [c]) (now w + latency env c)%nat)
    | None =>
        (fst (serve env (cluster w)),
         mkWorld (snd (serve env (cluster w))) (calls w ++ [c])
                 (now w + latency env c)%nat)
    end.
Proof.
  unfold request. destruct (fault env c); [reflexivity|].
  destruct (serve env (cluster w)); reflexivity.
Qed.

Lemma getStatefulSet_run isK8sNotFound sandboxName namespace env w :
  getStatefulSet isK8sNotFound sandboxName namespace env w
  = match k8sAppsApi_readNamespacedStatefulSet sandboxName namespace env w with
    | (Resolved response, w1) => (Resolved (Some (unwrapResponse response)), w1)
    | (Rejected e, w1) =>
        if isK8sNotFound e then (Resolved None, w1) else (Rejected e, w1)
    end.
Proof.
  unfold getStatefulSet. rewrite tryCatch_run, bind_run.
  destruct (k8sAppsApi_readNamespacedStatefulSet sandboxName namespace env w)
    as [[response|e] w1]; [reflexivity|].
  destruct (isK8sNotFound e); reflexivity.
Qed.

(** A request is logged and leaves the store alone when it is rejected by
    a fault; a read never changes the store. *)
Lemma readStatefulSet_world sandboxName namespace env w :
  snd (k8sAppsApi_readNamespacedStatefulSet sandboxName namespace env w)
  = mkWorld (cluster w) (calls w ++ [ReadStatefulSet sandboxName namespace])
            (now w + latency env (ReadStatefulSet sandboxName namespace))%nat.
Proof.
  unfold k8sAppsApi_readNamespacedStatefulSet. rewrite request_run.
  destruct (fault env _); [reflexivity|].
  destruct (statefulSets (cluster w) !! _); reflexivity.
Qed.

Lemma getStatefulSet_world isK8sNotFound sandboxName namespace env w :
  snd (getStatefulSet isK8sNotFound sandboxName namespace env w)
  = mkWorld (cluster w) (calls w ++ [ReadStatefulSet sandboxName namespace])
            (now w + latency env (ReadStatefulSet sandboxName namespace))%nat.
Proof.
  rewrite getStatefulSet_run, <- readStatefulSet_world.
  destruct (k8sAppsApi_readNamespacedStatefulSet sandboxName namespace env w)
    as [[response|e] w1]; [reflexivity|].
  destruct (isK8sNotFound e); reflexivity.
Qed.

(** ** Status derivation *)

(** C1. When the StatefulSet exists, the status follows the replica
    counts: with 0 declared replicas it is STOPPING while current replicas
    remain and STOPPED when there are none; with a positive declared count
    it is RUNNING exactly when the observed total, ready, current and
    updated counts all equal the declared count, and STARTING otherwise. *)
Theorem getStatefulSetStatus_classifies
    isK8sNotFound env w sandboxName namespace statefulSet w1 :
  getStatefulSet isK8sNotFound sandboxName namespace env w
    = (Resolved (Some statefulSet), w1) →
  ∃ detail,
    getStatefulSetStatus isK8sNotFound sandboxName namespace env w
      = (Resolved detail, w1)
    ∧ (declaredReplicas statefulSet = 0 →
         (0 < observed status_currentReplicas statefulSet →
            status detail = STOPPING)
         ∧ (observed status_currentReplicas statefulSet = 0 →
            status detail = STOPPED))
    ∧ (0 < declaredReplicas statefulSet →
         (status detail = RUNNING ↔
            observed status_replicas statefulSet = declaredReplicas statefulSet
            ∧ observed status_readyReplicas statefulSet = declaredReplicas statefulSet
            ∧ observed status_currentReplicas statefulSet = declaredReplicas statefulSet
            ∧ observed status_updatedReplicas statefulSet = declaredReplicas statefulSet)
         ∧ (status detail = RUNNING ∨ status detail = STARTING)
         ∧ (isReady detail = true ↔ status detail = RUNNING)).
Proof.
  intros Hget.
  unfold getStatefulSetStatus. rewrite tryCatch_run, bind_run, Hget.
  cbn [mret M_ret].
  eexists. split; [reflexivity|].
  unfold declaredReplicas, observed, mbind. cbn [status isReady].
  set (d := orZero (option_bind _ _ spec_replicas _)).
  set (t := orZero (option_bind _ _ status_replicas _)).
  set (r := orZero (option_bind _ _ status_readyReplicas _)).
  set (c := orZero (option_bind _ _ status_currentReplicas _)).
  set (u := orZero (option_bind _ _ status_updatedReplicas _)).
  split.
  - intros Hd. rewrite Hd. cbn [Z.eqb]. split; intros Hc.
    + apply Z.ltb_lt in Hc. now rewrite Hc.
    + rewrite Hc. reflexivity.
  - intros Hd.
    assert ((d =? 0) = false) as -> by (apply Z.eqb_neq; lia).
    assert ((0 <? d) = true) as -> by (apply Z.ltb_lt; lia).
    cbn [andb].
    destruct (t =? d) eqn:Et, (r =? d) eqn:Er, (c =? d) eqn:Ec, (u =? d) eqn:Eu;
      cbn [andb];
      repeat match goal with
             | H : (_ =? _) = true |- _ => apply Z.eqb_eq in H
             | H : (_ =? _) = false |- _ => apply Z.eqb_neq in H
             end;
      (split; [split; [intros; try discriminate; auto | intros (?&?&?&?); congruence]
              | split; [auto | split; intros; (reflexivity || discriminate)]]).
Qed.

(** The rollout of the specification: declared 2, total 2, ready 2,
    current 2, updated 1 is STARTING, not RUNNING. *)
Lemma getStatefulSetStatus_classifies_witness :
  getStatefulSet statusIs404 "acme-x1" "ns1" calmEnv (freshWorld (clusterWith rollingOut))
    = (Resolved (Some rollingOut),
       mkWorld (clusterWith rollingOut) [ReadStatefulSet "acme-x1" "ns1"] 1%nat)
  ∧ ∃ detail,
      getStatefulSetStatus statusIs404 "acme-x1" "ns1" calmEnv
        (freshWorld (clusterWith rollingOut))
      = (Resolved detail,
         mkWorld (clusterWith rollingOut) [ReadStatefulSet "acme-x1" "ns1"] 1%nat)
      ∧ status detail = STARTING ∧ status detail ≠ RUNNING.
Proof.
  assert (Hget : getStatefulSet statusIs404 "acme-x1" "ns1" calmEnv
                   (freshWorld (clusterWith rollingOut))
                 = (Resolved (Some rollingOut),
                    mkWorld (clusterWith rollingOut)
                      [ReadStatefulSet "acme-x1" "ns1"] 1%nat))
    by (vm_compute; reflexivity).
  split; [exact Hget|].
  destruct (getStatefulSetStatus_classifies _ _ _ _ _ _ _ Hget)
    as (detail & Hrun & _ & Hpos).
  exists detail. split; [exact Hrun|].
  destruct (Hpos ltac:(vm_compute; reflexivity)) as (Hiff & [Hr|Hs] & _).
  - apply Hiff in Hr. destruct Hr as (_ & _ & _ & Hu). vm_compute in Hu. discriminate.
  - split; [exact Hs | congruence].
Defined.

(** What [getStatefulSetStatus] ends with when the read of the StatefulSet
    fails: TERMINATED when [isK8sNotFound] recognises the error; otherwise
    the guard of the [catch] block decides, between TERMINATED and ERROR
    where it evaluates, and by throwing where the [response] of the error
    is [null]. *)
Lemma getStatefulSetStatus_on_failure
    isK8sNotFound env w sandboxName namespace e :
  fst (k8sAppsApi_readNamespacedStatefulSet sandboxName namespace env w)
    = Rejected e →
  fst (getStatefulSetStatus isK8sNotFound sandboxName namespace env w)
  = if isK8sNotFound e
    then Resolved (mkDetail TERMINATED 0 0 0 0 None None false)
    else match statusCodeReadThrows e with
         | Some typeError => Rejected typeError
         | None =>
             Resolved (mkDetail (if responseStatusIs 404 e then TERMINATED else ERROR)
                         0 0 0 0 None None false)
         end.
Proof.
  unfold getStatefulSetStatus, ifResponseStatusIs.
  rewrite tryCatch_run, bind_run, getStatefulSet_run.
  destruct (k8sAppsApi_readNamespacedStatefulSet sandboxName namespace env w)
    as [[response|e0] w0]; cbn [fst]; [discriminate|].
  intros [= ->].
  destruct (isK8sNotFound e); [reflexivity|].
  destruct (statusCodeReadThrows e); [reflexivity|].
  now destruct (responseStatusIs 404 e).
Qed.

(** C2. [getStatefulSetStatus] can throw.  When the read of the
    StatefulSet fails with an error whose [response] is [null], the guard of
    the [catch] block gets past [typeof error.response === 'object'] and
    throws a [TypeError] on [error.response.statusCode]: the method rejects
    with it, where its documentation maps every error to ERROR. *)
Theorem getStatefulSetStatus_null_response_throws :
  fst (getStatefulSetStatus statusIs404 "acme-x1" "ns1" readFailsWithNullResponse
         (freshWorld (clusterWith oneReplica)))
  = Rejected (typeErrorNull "statusCode").
Proof. vm_compute. reflexivity. Qed.

Example getStatefulSetStatus_missing :
  fst (getStatefulSetStatus statusIs404 "ghost" "ns1" calmEnv (freshWorld emptyCluster))
    = Resolved (mkDetail TERMINATED 0 0 0 0 None None false).
Proof. vm_compute. reflexivity. Qed.

Example getSandboxStatus_stopping :
  fst (getSandboxStatus statusIs404 "ns1" "acme-x1" calmEnv
         (freshWorld (clusterWith scalingDown)))
  = Resolved STOPPING.
Proof. vm_compute. reflexivity. Qed.

Example getSandboxStatus_stopped :
  fst (getSandboxStatus statusIs404 "ns1" "acme-x1" calmEnv
         (freshWorld (clusterWith stopped)))
  = Resolved STOPPED.
Proof. vm_compute. reflexivity. Qed.

Example getSandboxStatus_transport_failure :
  fst (getSandboxStatus statusIs404 "ns1" "acme-x1"
         (mkEnv (fun _ => Some connectionRefused) (fun _ => 1%nat) httpError false
                quietChannel 0)
         (freshWorld (clusterWith stopped)))
  = Resolved ERROR.
Proof. vm_compute. reflexivity. Qed.

(** ** Stopping a sandbox *)

Lemma stopSandbox_run isK8sNotFound namespace sandboxName env w :
  stopSandbox isK8sNotFound namespace sandboxName env w
  = match getStatefulSet isK8sNotFound sandboxName namespace env w with
    | (Resolved None, w1) => (Resolved tt, w1)
    | (Resolved (Some statefulSet), w1) =>
        if declaredReplicas statefulSet =? 0 then (Resolved tt, w1)
        else k8sAppsApi_patchNamespacedStatefulSet sandboxName namespace stopPatch env w1
    | (Rejected e, w1) => (Rejected e, w1)
    end.
Proof.
  unfold stopSandbox. rewrite tryCatch_run, bind_run.
  destruct (getStatefulSet isK8sNotFound sandboxName namespace env w)
    as [[[statefulSet|]|e] w1]; try reflexivity.
  unfold declaredReplicas.
  destruct (orZero (sts_spec statefulSet ≫= spec_replicas) =? 0); [reflexivity|].
  fold stopPatch.
  destruct (k8sAppsApi_patchNamespacedStatefulSet sandboxName namespace stopPatch env w1)
    as [[[]|e] w2]; reflexivity.
Qed.

Lemma applyPatch_stop statefulSet :
  declaredReplicas statefulSet ≠ 0 →
  ∃ stopped, applyPatch stopPatch statefulSet = Some stopped
             ∧ declaredReplicas stopped = 0.
Proof.
  unfold declaredReplicas, applyPatch, stopPatch, applyPatchOp, withReplicas.
  cbn [fold_left patch_op patch_path patch_value String.eqb Ascii.eqb Bool.eqb andb].
  destruct (sts_spec statefulSet) as [sp|]; cbn; [|congruence].
  destruct (spec_replicas sp); cbn; [|congruence].
  intros _. eexists. split; reflexivity.
Qed.

(** What a call does, read off the store and the faults. *)
Lemma stopSandbox_spec isK8sNotFound namespace sandboxName env w :
  let readWorld :=
    mkWorld (cluster w) (calls w ++ [ReadStatefulSet sandboxName namespace])
            (now w + latency env (ReadStatefulSet sandboxName namespace))%nat in
  stopSandbox isK8sNotFound namespace sandboxName env w
  = match fault env (ReadStatefulSet sandboxName namespace) with
    | Some e => (if isK8sNotFound e then Resolved tt else Rejected e, readWorld)
    | None =>
        match statefulSets (cluster w) !! (namespace, sandboxName) with
        | None =>
            (if isK8sNotFound (apiError env 404) then Resolved tt
             else Rejected (apiError env 404), readWorld)
        | Some statefulSet =>
            if declaredReplicas statefulSet =? 0 then (Resolved tt, readWorld)
            else k8sAppsApi_patchNamespacedStatefulSet sandboxName namespace
                   stopPatch env readWorld
        end
    end.
Proof.
  intros readWorld. rewrite stopSandbox_run, getStatefulSet_run.
  unfold k8sAppsApi_readNamespacedStatefulSet. rewrite request_run.
  destruct (fault env _) as [e|].
  - destruct (isK8sNotFound e); reflexivity.
  - destruct (statefulSets (cluster w) !! _) as [statefulSet|]; cbn [fst snd].
    + unfold respond. destruct (wrapsBody env); reflexivity.
    + destruct (isK8sNotFound _); reflexivity.
Qed.

Lemma stopSandbox_no_write_when_stopped isK8sNotFound namespace sandboxName env w :
  (∀ statefulSet,
     statefulSets (cluster w) !! (namespace, sandboxName) = Some statefulSet →
     declaredReplicas statefulSet = 0) →
  snd (stopSandbox isK8sNotFound namespace sandboxName env w)
  = mkWorld (cluster w) (calls w ++ [ReadStatefulSet sandboxName namespace])
            (now w + latency env (ReadStatefulSet sandboxName namespace))%nat.
Proof.
  intros Hstopped. rewrite stopSandbox_spec.
  destruct (fault env _) as [e|]; [reflexivity|].
  destruct (statefulSets (cluster w) !! _) as [statefulSet|]; [|reflexivity].
  rewrite (Hstopped statefulSet eq_refl). reflexivity.
Qed.

(** C5. [stopSandbox] is idempotent.  One call returns without writing
    when the workload is absent or its declared replicas are already 0, and
    otherwise sends the single operation [replace /spec/replicas 0]; after a
    call that saw the cluster and resolved, the stored workload (if any)
    declares 0 replicas, and a second call leaves the store as it is and
    sends nothing but its read. *)
Theorem stopSandbox_idempotent
    isK8sNotFound env env2 w namespace sandboxName :
  let first := stopSandbox isK8sNotFound namespace sandboxName env w in
  let second := stopSandbox isK8sNotFound namespace sandboxName env2 (snd first) in
  (∀ w1,
     getStatefulSet isK8sNotFound sandboxName namespace env w = (Resolved None, w1) →
     first = (Resolved tt, w1)
     ∧ cluster w1 = cluster w
     ∧ calls w1 = calls w ++ [ReadStatefulSet sandboxName namespace])
  ∧ (∀ statefulSet w1,
       getStatefulSet isK8sNotFound sandboxName namespace env w
         = (Resolved (Some statefulSet), w1) →
       (declaredReplicas statefulSet = 0 →
          first = (Resolved tt, w1)
          ∧ cluster w1 = cluster w
          ∧ calls w1 = calls w ++ [ReadStatefulSet sandboxName namespace])
       ∧ (declaredReplicas statefulSet ≠ 0 →
          calls (snd first)
          = calls w ++ [ReadStatefulSet sandboxName namespace;
                        PatchStatefulSet sandboxName namespace stopPatch]))
  ∧ (fault env (ReadStatefulSet sandboxName namespace) = None →
     fst first = Resolved tt →
     (∀ stored,
        statefulSets (cluster (snd first)) !! (namespace, sandboxName) = Some stored →
        declaredReplicas stored = 0)
     ∧ cluster (snd second) = cluster (snd first)
     ∧ calls (snd second)
       = calls (snd first) ++ [ReadStatefulSet sandboxName namespace]).
Proof.
  intros first second. split; [|split].
  - intros w1 Hget. subst first. rewrite stopSandbox_run, Hget.
    pose proof (getStatefulSet_world isK8sNotFound sandboxName namespace env w) as Hw.
    rewrite Hget in Hw. cbn [snd] in Hw. subst w1. auto.
  - intros statefulSet w1 Hget.
    pose proof (getStatefulSet_world isK8sNotFound sandboxName namespace env w) as Hw.
    rewrite Hget in Hw. cbn [snd] in Hw.
    subst first. rewrite stopSandbox_run, Hget. split; intros Hd.
    + rewrite Hd. cbn [Z.eqb]. subst w1. auto.
    + apply Z.eqb_neq in Hd. rewrite Hd.
      unfold k8sAppsApi_patchNamespacedStatefulSet. rewrite request_run.
      subst w1. destruct (fault env _); cbn [snd calls]; now rewrite <- app_assoc.
  - intros Hfault Hres.
    assert (Hstopped : ∀ statefulSet,
               statefulSets (cluster (snd first)) !! (namespace, sandboxName)
                 = Some statefulSet →
               declaredReplicas statefulSet = 0).
    { subst first. revert Hres. rewrite stopSandbox_spec, Hfault.
      destruct (statefulSets (cluster w) !! (namespace, sandboxName))
        as [current|] eqn:Hstore.
      - destruct (declaredReplicas current =? 0) eqn:Hd.
        + intros _ statefulSet. cbn [snd cluster]. rewrite Hstore.
          intros [= <-]. now apply Z.eqb_eq.
        + apply Z.eqb_neq in Hd.
          destruct (applyPatch_stop current Hd) as (stopped & Hpatch & Hzero).
          unfold k8sAppsApi_patchNamespacedStatefulSet. rewrite request_run.
          destruct (fault env (PatchStatefulSet sandboxName namespace stopPatch));
            [discriminate|].
          cbn [cluster]. rewrite Hstore, Hpatch. cbn [fst snd cluster].
          intros _ statefulSet. unfold setStatefulSets. cbn [statefulSets].
          rewrite lookup_insert_eq. now intros [= <-].
      - destruct (isK8sNotFound _); [|discriminate].
        intros _ statefulSet. cbn [snd cluster]. rewrite Hstore. discriminate. }
    split; [exact Hstopped|]. subst second.
    rewrite (stopSandbox_no_write_when_stopped _ _ _ _ _ Hstopped). auto.
Qed.

Lemma stopSandbox_idempotent_witness :
  let first := stopSandbox statusIs404 "ns1" "acme-x1" calmEnv
                 (freshWorld (clusterWith oneReplica)) in
  let second := stopSandbox statusIs404 "ns1" "acme-x1" calmEnv (snd first) in
  calls (snd first)
    = [ReadStatefulSet "acme-x1" "ns1"; PatchStatefulSet "acme-x1" "ns1" stopPatch]
  ∧ cluster (snd second) = cluster (snd first)
  ∧ calls (snd second) = calls (snd first) ++ [ReadStatefulSet "acme-x1" "ns1"].
Proof.
  intros first second.
  destruct (stopSandbox_idempotent statusIs404 calmEnv calmEnv
              (freshWorld (clusterWith oneReplica)) "ns1" "acme-x1")
    as (_ & Hpresent & Htwice).
  split.
  - apply (Hpresent oneReplica
             (mkWorld (clusterWith oneReplica) [ReadStatefulSet "acme-x1" "ns1"] 1%nat));
      [vm_compute; reflexivity | vm_compute; discriminate].
  - apply Htwice; vm_compute; reflexivity.
Defined.

(** [startSandbox] on a stopped workload sends the symmetric patch. *)
Example startSandbox_stopped :
  calls (snd (startSandbox statusIs404 "ns1" "acme-x1" calmEnv
                (freshWorld (clusterWith stopped))))
  = [ReadStatefulSet "acme-x1" "ns1";
     PatchStatefulSet "acme-x1" "ns1" [mkPatchOp "replace" "/spec/replicas" 1]].
Proof. vm_compute. reflexivity. Qed.

(** ** Objects used as maps *)

Lemma obj_get_In k v (o : JsObject) : obj_get k o = Some v → In (k, v) o.
Proof.
  induction o as [|[k1 v1] rest IH]; cbn; [discriminate|].
  destruct (String.eqb_spec k1 k) as [->|Hne].
  - intros [= ->]. now left.
  - intros H. right. auto.
Qed.

Lemma obj_get_update k k1 v (o : JsObject) :
  obj_get k (obj_update k1 v o)
  = if String.eqb k1 k then (λ _, v) <$> obj_get k o else obj_get k o.
Proof.
  induction o as [|[k2 v2] rest IH]; cbn.
  - now destruct (String.eqb k1 k).
  - destruct (String.eqb_spec k2 k1) as [->|Hne]; cbn.
    + destruct (String.eqb_spec k1 k); reflexivity.
    + destruct (String.eqb_spec k2 k) as [->|Hne2].
      * destruct (String.eqb_spec k1 k); [congruence|reflexivity].
      * exact IH.
Qed.

Lemma obj_get_insertIndex k n k1 v (o : JsObject) :
  obj_get k1 o = None →
  obj_get k (obj_insertIndex n k1 v o)
  = if String.eqb k1 k then Some v else obj_get k o.
Proof.
  induction o as [|[k2 v2] rest IH]; cbn; [reflexivity|].
  destruct (String.eqb_spec k2 k1) as [->|Hne]; [discriminate|].
  intros Hnone.
  destruct (arrayIndex k2) as [n2|]; [destruct (n2 <? n)|]; cbn.
  - destruct (String.eqb_spec k2 k) as [->|Hne2].
    + destruct (String.eqb_spec k1 k); [congruence|reflexivity].
    + auto.
  - destruct (String.eqb_spec k1 k); reflexivity.
  - destruct (String.eqb_spec k1 k); reflexivity.
Qed.

Lemma obj_get_app k k1 v (o : JsObject) :
  obj_get k1 o = None →
  obj_get k (o ++ [(k1, v)])
  = if String.eqb k1 k then Some v else obj_get k o.
Proof.
  induction o as [|[k2 v2] rest IH]; cbn; [reflexivity|].
  destruct (String.eqb_spec k2 k1) as [->|Hne]; [discriminate|].
  intros Hnone.
  destruct (String.eqb_spec k2 k) as [->|Hne2].
  - destruct (String.eqb_spec k1 k); [congruence|reflexivity].
  - auto.
Qed.

(** Reading a property after an assignment. *)
Lemma obj_get_set k k1 v (o : JsObject) :
  obj_get k (obj_set k1 v o) = if String.eqb k1 k then Some v else obj_get k o.
Proof.
  unfold obj_set. destruct (obj_get k1 o) as [old|] eqn:Hold.
  - rewrite obj_get_update.
    destruct (String.eqb_spec k1 k) as [<-|]; [now rewrite Hold|reflexivity].
  - destruct (arrayIndex k1).
    + now apply obj_get_insertIndex.
    + now apply obj_get_app.
Qed.

Lemma uniqueKeys_update k v (o : JsObject) :
  uniqueKeys o = true → uniqueKeys (obj_update k v o) = true.
Proof.
  induction o as [|[k1 v1] rest IH]; cbn; [reflexivity|].
  destruct (obj_get k1 rest) eqn:Hrest; [discriminate|]. intros Hu.
  destruct (String.eqb_spec k1 k) as [->|Hne]; cbn.
  - now rewrite Hrest.
  - rewrite obj_get_update, Hrest. destruct (String.eqb k k1); cbn; auto.
Qed.

Lemma uniqueKeys_insertIndex n k v (o : JsObject) :
  obj_get k o = None → uniqueKeys o = true →
  uniqueKeys (obj_insertIndex n k v o) = true.
Proof.
  induction o as [|[k1 v1] rest IH]; cbn; [reflexivity|].
  destruct (String.eqb_spec k1 k) as [->|Hne]; [discriminate|].
  intros Hnone. destruct (obj_get k1 rest) eqn:Hrest; [discriminate|]. intros Hu.
  assert (Hfront : uniqueKeys ((k, v) :: (k1, v1) :: rest) = true).
  { cbn. destruct (String.eqb_spec k1 k); [congruence|]. now rewrite Hnone, Hrest. }
  destruct (arrayIndex k1) as [n1|]; [destruct (n1 <? n)|]; try exact Hfront.
  cbn. rewrite obj_get_insertIndex by assumption.
  destruct (String.eqb_spec k k1); [congruence|]. rewrite Hrest. auto.
Qed.

Lemma uniqueKeys_app k v (o : JsObject) :
  obj_get k o = None → uniqueKeys o = true → uniqueKeys (o ++ [(k, v)]) = true.
Proof.
  induction o as [|[k1 v1] rest IH]; cbn; [reflexivity|].
  destruct (String.eqb_spec k1 k) as [->|Hne]; [discriminate|].
  intros Hnone. destruct (obj_get k1 rest) eqn:Hrest; [discriminate|]. intros Hu.
  rewrite obj_get_app by assumption.
  destruct (String.eqb_spec k k1); [congruence|]. rewrite Hrest. auto.
Qed.

Lemma uniqueKeys_set k v (o : JsObject) :
  uniqueKeys o = true → uniqueKeys (obj_set k v o) = true.
Proof.
  intros Hu. unfold obj_set. destruct (obj_get k o) eqn:Hget.
  - now apply uniqueKeys_update.
  - destruct (arrayIndex k).
    + now apply uniqueKeys_insertIndex.
    + now apply uniqueKeys_app.
Qed.

Lemma uniqueKeys_spreadInto (source target : JsObject) :
  uniqueKeys target = true → uniqueKeys (spreadInto target source) = true.
Proof.
  unfold spreadInto, Object_entries. revert target.
  induction source as [|[k v] rest IH]; intros target Hu; cbn; [exact Hu|].
  apply IH, uniqueKeys_set, Hu.
Qed.

(** [{ ...target, ...source }[k]]: the property of [source] when it has
    one, else that of [target]. *)
Lemma obj_get_spreadInto k (source target : JsObject) :
  uniqueKeys source = true →
  obj_get k (spreadInto target source)
  = match obj_get k source with
    | Some v => Some v
    | None => obj_get k target
    end.
Proof.
  unfold spreadInto, Object_entries. revert target.
  induction source as [|[k1 v1] rest IH]; intros target; cbn; [reflexivity|].
  destruct (obj_get k1 rest) eqn:Hrest; [discriminate|]. intros Hu.
  rewrite IH by assumption. rewrite obj_get_set.
  destruct (String.eqb_spec k1 k) as [->|Hne]; [now rewrite Hrest|reflexivity].
Qed.

Lemma obj_get_copy k (o : JsObject) :
  uniqueKeys o = true → obj_get k (spreadInto [] o) = obj_get k o.
Proof.
  intros Hu. rewrite obj_get_spreadInto by assumption.
  now destruct (obj_get k o).
Qed.

(** The map read from a container holds, for every name it can hold, the
    literal value of that name in the [env] array. *)
Lemma currentEnvMapOf_fold k (env : list V1EnvVar) (acc : JsObject) :
  mapKey k →
  obj_get k
    (fold_left (fun currentEnvMap envVar =>
                  match ev_name envVar, ev_value envVar with
                  | EmptyString, _ => currentEnvMap
                  | _, None => currentEnvMap
                  | name, Some value => obj_assign name value currentEnvMap
                  end) env acc)
  = match envLiteral k env with
    | Some v => Some v
    | None => obj_get k acc
    end
  ∧ (uniqueKeys acc = true →
     uniqueKeys
       (fold_left (fun currentEnvMap envVar =>
                     match ev_name envVar, ev_value envVar with
                     | EmptyString, _ => currentEnvMap
                     | _, None => currentEnvMap
                     | name, Some value => obj_assign name value currentEnvMap
                     end) env acc) = true).
Proof.
  intros [Hk Hproto]. revert acc.
  induction env as [|[name value from] rest IH]; intros acc; cbn [fold_left envLiteral].
  - auto.
  - cbn [ev_name ev_value].
    destruct name as [|a name]; [|destruct value as [value|]].
    + destruct (IH acc) as [IHget IHu]. split; [|exact IHu].
      rewrite IHget. destruct (envLiteral k rest); [reflexivity|].
      destruct (String.eqb_spec "" k); [congruence|reflexivity].
    + destruct (IH (obj_assign (String a name) value acc)) as [IHget IHu]. split.
      * rewrite IHget. destruct (envLiteral k rest); [reflexivity|].
        unfold obj_assign.
        destruct (String.eqb_spec (String a name) "__proto__") as [->|_].
        -- destruct (String.eqb_spec "__proto__" k); [congruence|reflexivity].
        -- rewrite obj_get_set. now destruct (String.eqb (String a name) k).
      * intros Hu. apply IHu. unfold obj_assign.
        destruct (String.eqb (String a name) "__proto__"); [exact Hu|].
        now apply uniqueKeys_set.
    + destruct (IH acc) as [IHget IHu]. split; [|exact IHu].
      rewrite IHget. destruct (envLiteral k rest); [reflexivity|].
      now destruct (String.eqb (String a name) k).
Qed.

Lemma currentEnvMapOf_get k (c : V1Container) :
  mapKey k → obj_get k (currentEnvMapOf c) = envLiteral k (envOf c).
Proof.
  intros Hk. unfold currentEnvMapOf, envOf.
  destruct (c_env c) as [env|]; simpl; [|reflexivity].
  rewrite (proj1 (currentEnvMapOf_fold k env [] Hk)).
  now destruct (envLiteral k env).
Qed.

Lemma currentEnvMapOf_unique (c : V1Container) : uniqueKeys (currentEnvMapOf c) = true.
Proof.
  unfold currentEnvMapOf. destruct (c_env c) as [env|]; [|reflexivity].
  assert (Hx : mapKey "x") by (split; discriminate).
  now apply (proj2 (currentEnvMapOf_fold "x" env [] Hx)).
Qed.

(** ** Updating environment variables *)

Lemma In_obj_get k v (o : JsObject) :
  uniqueKeys o = true → In (k, v) o → obj_get k o = Some v.
Proof.
  induction o as [|[k1 v1] rest IH]; cbn; [tauto|].
  destruct (obj_get k1 rest) eqn:Hrest; [discriminate|].
  intros Hu [[= -> ->]|Hin].
  - now rewrite String.eqb_refl.
  - destruct (String.eqb_spec k1 k) as [->|Hne]; [|auto].
    rewrite (IH Hu Hin) in Hrest. discriminate.
Qed.

Lemma envLiteral_entries k (o : JsObject) :
  uniqueKeys o = true →
  envLiteral k (map (fun kv => mkEnvVar (fst kv) (Some (snd kv)) None) o)
  = obj_get k o.
Proof.
  induction o as [|[k1 v1] rest IH]; cbn; [reflexivity|].
  destruct (obj_get k1 rest) eqn:Hrest; [discriminate|].
  intros Hu. rewrite (IH Hu).
  destruct (String.eqb_spec k1 k) as [->|Hne].
  - now rewrite Hrest.
  - now destruct (obj_get k rest).
Qed.

Lemma hasChanges_false (currentEnvMap envVars : JsObject) :
  hasChanges currentEnvMap envVars = false
  ↔ ∀ k v, In (k, v) envVars → obj_get k currentEnvMap = Some v.
Proof.
  unfold hasChanges, Object_entries.
  induction envVars as [|[k1 v1] rest IH]; cbn.
  - split; [intros _ k v []|reflexivity].
  - rewrite orb_false_iff, IH. split.
    + intros [Hhead Hrest] k v [[= <- <-]|Hin]; [|auto].
      destruct (obj_get k1 currentEnvMap) as [current|]; [|discriminate].
      apply negb_false_iff, String.eqb_eq in Hhead. now subst.
    + intros Hall. split; [|intros k v Hin; apply Hall; now right].
      rewrite (Hall k1 v1) by now left. now rewrite String.eqb_refl.
Qed.

Lemma find_main_updated sandboxName updatedEnv (containers : list V1Container) :
  find (fun container => String.eqb (c_name container) sandboxName)
       (map (fun container =>
               if String.eqb (c_name container) sandboxName
               then mkContainer (c_name container) (c_image container) (Some updatedEnv)
               else container) containers)
  = (fun container =>
       mkContainer (c_name container) (c_image container) (Some updatedEnv))
    <$> find (fun container => String.eqb (c_name container) sandboxName) containers.
Proof.
  induction containers as [|c rest IH]; cbn; [reflexivity|].
  destruct (String.eqb (c_name c) sandboxName) eqn:Hname; cbn; rewrite Hname;
    [reflexivity|exact IH].
Qed.

Lemma updateStatefulSetEnvVars_run isK8sNotFound namespace sandboxName envVars env w :
  updateStatefulSetEnvVars isK8sNotFound namespace sandboxName envVars env w
  = match getStatefulSet isK8sNotFound sandboxName namespace env w with
    | (Rejected e, w1) => (Rejected e, w1)
    | (Resolved None, w1) => (Resolved false, w1)
    | (Resolved (Some statefulSet), w1) =>
        match sts_spec statefulSet with
        | None => (Rejected (typeErrorUndefined "template"), w1)
        | Some spec =>
            match tpl_spec (spec_template spec) with
            | None => (Rejected (typeErrorUndefined "containers"), w1)
            | Some podSpec =>
                match find (fun container => String.eqb (c_name container) sandboxName)
                           (pod_containers podSpec) with
                | None => (Resolved false, w1)
                | Some main =>
                    if hasChanges (currentEnvMapOf main) envVars
                    then
                      match k8sAppsApi_replaceNamespacedStatefulSet sandboxName namespace
                              (updatedStatefulSetOf sandboxName statefulSet spec podSpec
                                 (currentEnvMapOf main) envVars) env w1 with
                      | (Resolved _, w2) => (Resolved true, w2)
                      | (Rejected e, w2) => (Rejected e, w2)
                      end
                    else (Resolved true, w1)
                end
            end
        end
    end.
Proof.
  unfold updateStatefulSetEnvVars. rewrite tryCatch_run, bind_run.
  destruct (getStatefulSet isK8sNotFound sandboxName namespace env w)
    as [[[statefulSet|]|e] w1]; try reflexivity.
  destruct (sts_spec statefulSet) as [spec|]; [|reflexivity].
  destruct (tpl_spec (spec_template spec)) as [podSpec|]; [|reflexivity].
  destruct (find _ (pod_containers podSpec)) as [main|]; [|reflexivity].
  destruct (hasChanges (currentEnvMapOf main) envVars); cbn [negb]; [|reflexivity].
  rewrite bind_run.
  destruct (k8sAppsApi_replaceNamespacedStatefulSet _ _ _ env w1) as [[[]|e] w2];
    reflexivity.
Qed.

Lemma mainContainer_unfold sandboxName statefulSet main :
  mainContainer sandboxName statefulSet = Some main →
  ∃ spec podSpec,
    sts_spec statefulSet = Some spec
    ∧ tpl_spec (spec_template spec) = Some podSpec
    ∧ find (fun container => String.eqb (c_name container) sandboxName)
           (pod_containers podSpec) = Some main.
Proof.
  unfold mainContainer.
  destruct (sts_spec statefulSet) as [spec|]; cbn; [|discriminate].
  destruct (tpl_spec (spec_template spec)) as [podSpec|] eqn:Htpl; cbn;
    [|discriminate].
  intros Hfind. exists spec, podSpec. auto.
Qed.

(** A read that resolves hands back the stored object. *)
Lemma getStatefulSet_stored isK8sNotFound sandboxName namespace env w statefulSet w1 :
  getStatefulSet isK8sNotFound sandboxName namespace env w
    = (Resolved (Some statefulSet), w1) →
  statefulSets (cluster w) !! (namespace, sandboxName) = Some statefulSet
  ∧ w1 = mkWorld (cluster w) (calls w ++ [ReadStatefulSet sandboxName namespace])
                 (now w + latency env (ReadStatefulSet sandboxName namespace))%nat.
Proof.
  intros Hget.
  pose proof (getStatefulSet_world isK8sNotFound sandboxName namespace env w) as Hw.
  rewrite Hget in Hw. split; [|exact Hw].
  revert Hget. rewrite getStatefulSet_run.
  unfold k8sAppsApi_readNamespacedStatefulSet. rewrite request_run.
  destruct (fault env _) as [e|].
  - destruct (isK8sNotFound e); discriminate.
  - destruct (statefulSets (cluster w) !! _) as [stored|]; cbn [fst snd].
    + unfold respond. destruct (wrapsBody env); cbn; now intros [= -> _].
    + destruct (isK8sNotFound _); discriminate.
Qed.

Lemma getStatefulSet_present isK8sNotFound sandboxName namespace env w statefulSet :
  fault env (ReadStatefulSet sandboxName namespace) = None →
  statefulSets (cluster w) !! (namespace, sandboxName) = Some statefulSet →
  getStatefulSet isK8sNotFound sandboxName namespace env w
  = (Resolved (Some statefulSet),
     mkWorld (cluster w) (calls w ++ [ReadStatefulSet sandboxName namespace])
             (now w + latency env (ReadStatefulSet sandboxName namespace))%nat).
Proof.
  intros Hfault Hstore. rewrite getStatefulSet_run.
  unfold k8sAppsApi_readNamespacedStatefulSet. rewrite request_run, Hfault, Hstore.
  cbn [fst snd]. unfold respond. now destruct (wrapsBody env).
Qed.

(** C10. When the StatefulSet exists but no container of its pod template
    is named as the sandbox, [updateStatefulSetEnvVars] resolves to [false]
    and sends nothing after its read, as it does when the StatefulSet is
    absent. *)
Theorem updateStatefulSetEnvVars_no_main_container
    isK8sNotFound env w namespace sandboxName envVars statefulSet spec podSpec w1 :
  getStatefulSet isK8sNotFound sandboxName namespace env w
    = (Resolved (Some statefulSet), w1) →
  sts_spec statefulSet = Some spec →
  tpl_spec (spec_template spec) = Some podSpec →
  Forall (fun container => c_name container ≠ sandboxName) (pod_containers podSpec) →
  updateStatefulSetEnvVars isK8sNotFound namespace sandboxName envVars env w
    = (Resolved false, w1)
  ∧ cluster w1 = cluster w
  ∧ calls w1 = calls w ++ [ReadStatefulSet sandboxName namespace]
  ∧ (∀ env0 w0 w2,
       getStatefulSet isK8sNotFound sandboxName namespace env0 w0 = (Resolved None, w2) →
       updateStatefulSetEnvVars isK8sNotFound namespace sandboxName envVars env0 w0
         = (Resolved false, w2)).
Proof.
  intros Hget Hspec Htpl Hnames.
  destruct (getStatefulSet_stored _ _ _ _ _ _ _ Hget) as [_ Hw1].
  split; [|split; [now subst w1|split; [now subst w1|]]].
  - rewrite updateStatefulSetEnvVars_run, Hget, Hspec, Htpl.
    assert (Hfind : find (fun container => String.eqb (c_name container) sandboxName)
                         (pod_containers podSpec) = None).
    { clear -Hnames. induction Hnames as [|c rest Hc _ IH]; cbn; [reflexivity|].
      destruct (String.eqb_spec (c_name c) sandboxName); [contradiction|exact IH]. }
    now rewrite Hfind.
  - intros env0 w0 w2 Habsent.
    now rewrite updateStatefulSetEnvVars_run, Habsent.
Qed.

Lemma updateStatefulSetEnvVars_no_main_container_witness :
  updateStatefulSetEnvVars statusIs404 "ns1" "acme-x1" modeProd calmEnv
    (freshWorld (clusterWith sidecarOnly))
  = (Resolved false,
     mkWorld (clusterWith sidecarOnly) [ReadStatefulSet "acme-x1" "ns1"] 1%nat).
Proof.
  refine (proj1 (updateStatefulSetEnvVars_no_main_container statusIs404 calmEnv
                   (freshWorld (clusterWith sidecarOnly)) "ns1" "acme-x1" modeProd
                   sidecarOnly _ _ _ _ eq_refl eq_refl _)).
  - vm_compute. reflexivity.
  - repeat constructor; vm_compute; discriminate.
Defined.




(** C6.  The merge loses a variable: one of the main container that takes
    its value from a secret ([valueFrom]) and is not named in the request is
    missing from the workload object that is submitted, where the comments
    of the method say that existing variables are preserved and that
    nothing is removed. *)
Theorem updateStatefulSetEnvVars_drops_valueFrom :
  (∃ main, mainContainer "acme-x1" withSecretRef = Some main
           ∧ In databaseUrlFromSecret (envOf main))
  ∧ obj_get "DATABASE_URL" modeProd = None
  ∧ updateStatefulSetEnvVars statusIs404 "ns1" "acme-x1" modeProd calmEnv
      (freshWorld (clusterWith withSecretRef))
    = (Resolved true,
       mkWorld (clusterWith secretRefLost)
         [ReadStatefulSet "acme-x1" "ns1";
          ReplaceStatefulSet "acme-x1" "ns1" secretRefLost] 2%nat)
  ∧ ∃ main', mainContainer "acme-x1" secretRefLost = Some main'
             ∧ ∀ e, In e (envOf main') → ev_name e ≠ "DATABASE_URL".
Proof.
  split; [eexists; split; [vm_compute; reflexivity|now left]|].
  split; [reflexivity|].
  split; [vm_compute; reflexivity|].
  eexists. split; [vm_compute; reflexivity|].
  intros e [<-|[]]. discriminate.
Qed.

(** What the merge does keep.  When [updateStatefulSetEnvVars] submits a
    workload object, every variable of the main container that has a
    literal value, under a name the map of the current environment can
    hold, and is not named in the request is on the main container of that
    object with the same value, and every requested key is there with the
    requested value; in both cases this is the value the name has there. *)
Lemma updateStatefulSetEnvVars_merges
    isK8sNotFound env w namespace sandboxName envVars statefulSet w1 main :
  uniqueKeys envVars = true →
  getStatefulSet isK8sNotFound sandboxName namespace env w
    = (Resolved (Some statefulSet), w1) →
  mainContainer sandboxName statefulSet = Some main →
  let run := updateStatefulSetEnvVars isK8sNotFound namespace sandboxName envVars env w in
  (run = (Resolved true, w1)
   ∧ ∀ k v, In (k, v) envVars → obj_get k (currentEnvMapOf main) = Some v)
  ∨ ∃ submitted main',
      calls (snd run) = calls w1 ++ [ReplaceStatefulSet sandboxName namespace submitted]
      ∧ mainContainer sandboxName submitted = Some main'
      ∧ (∀ k v, mapKey k → envLiteral k (envOf main) = Some v →
                obj_get k envVars = None →
                In (mkEnvVar k (Some v) None) (envOf main')
                ∧ envLiteral k (envOf main') = Some v)
      ∧ (∀ k v, obj_get k envVars = Some v →
                In (mkEnvVar k (Some v) None) (envOf main')
                ∧ envLiteral k (envOf main') = Some v).
Proof.
  intros Hunique Hget Hmain run. subst run.
  destruct (mainContainer_unfold _ _ _ Hmain) as (spec & podSpec & Hspec & Htpl & Hfind).
  rewrite updateStatefulSetEnvVars_run, Hget, Hspec, Htpl, Hfind.
  destruct (hasChanges (currentEnvMapOf main) envVars) eqn:Hchanges.
  - right.
    exists (updatedStatefulSetOf sandboxName statefulSet spec podSpec
              (currentEnvMapOf main) envVars).
    eexists. split; [|split].
    + unfold k8sAppsApi_replaceNamespacedStatefulSet. rewrite request_run.
      destruct (fault env _); [reflexivity|].
      now destruct (fst _).
    + unfold mainContainer, updatedStatefulSetOf. cbn.
      rewrite find_main_updated, Hfind. reflexivity.
    + unfold envOf. cbn [c_env default from_option id]. unfold Object_entries.
      set (merged := spreadInto (spreadInto [] (currentEnvMapOf main)) envVars).
      assert (Hmerged : ∀ k v,
                obj_get k merged = Some v →
                In (mkEnvVar k (Some v) None)
                   (map (fun kv => mkEnvVar (fst kv) (Some (snd kv)) None) merged)
                ∧ envLiteral k
                    (map (fun kv => mkEnvVar (fst kv) (Some (snd kv)) None) merged)
                  = Some v).
      { intros k v Hk. split.
        - apply (in_map (fun kv => mkEnvVar (fst kv) (Some (snd kv)) None) _ (k, v)).
          now apply obj_get_In.
        - rewrite envLiteral_entries; [exact Hk|].
          subst merged. apply uniqueKeys_spreadInto, uniqueKeys_spreadInto. reflexivity. }
      split.
      * intros k v Hk Hliteral Habsent. apply Hmerged. subst merged.
        rewrite obj_get_spreadInto, Habsent by assumption.
        rewrite obj_get_copy by apply currentEnvMapOf_unique.
        now rewrite currentEnvMapOf_get.
      * intros k v Hrequested. apply Hmerged. subst merged.
        now rewrite obj_get_spreadInto, Hrequested by assumption.
  - left. split; [reflexivity|]. now apply hasChanges_false.
Qed.

Lemma updateStatefulSetEnvVars_merges_witness :
  ∃ submitted main',
    calls (snd (updateStatefulSetEnvVars statusIs404 "ns1" "acme-x1" modeProd calmEnv
                  (freshWorld (clusterWith devWorkload))))
    = [ReadStatefulSet "acme-x1" "ns1"; ReplaceStatefulSet "acme-x1" "ns1" submitted]
    ∧ mainContainer "acme-x1" submitted = Some main'
    ∧ In (mkEnvVar "KEEP" (Some "1") None) (envOf main')
    ∧ In (mkEnvVar "MODE" (Some "prod") None) (envOf main').
Proof.
  destruct (updateStatefulSetEnvVars_merges statusIs404 calmEnv
              (freshWorld (clusterWith devWorkload)) "ns1" "acme-x1" modeProd
              devWorkload
              (mkWorld (clusterWith devWorkload) [ReadStatefulSet "acme-x1" "ns1"] 1%nat)
              (mkContainer "acme-x1" "runtime:latest"
                 (Some [mkEnvVar "MODE" (Some "dev") None;
                        mkEnvVar "KEEP" (Some "1") None]))
              eq_refl ltac:(vm_compute; reflexivity) eq_refl)
    as [[_ Hsame]|(submitted & main' & Hcalls & Hmain & Hkept & Hset)].
  - specialize (Hsame "MODE" "prod" (or_introl eq_refl)). vm_compute in Hsame.
    discriminate Hsame.
  - exists submitted, main'. split; [exact Hcalls|]. split; [exact Hmain|]. split.
    + apply (Hkept "KEEP" "1"); [split; discriminate|reflexivity|reflexivity].
    + apply (Hset "MODE" "prod"). reflexivity.
Defined.

(** ** Deleting a sandbox *)

Lemma deleteStatefulSet_run isK8sNotFound sandboxName namespace env w :
  deleteStatefulSet isK8sNotFound sandboxName namespace env w
  = (toleratingNotFound isK8sNotFound
       (deleteError env (cluster w) (DeleteStatefulSet sandboxName namespace)),
     mkWorld (afterDelete env (cluster w) (DeleteStatefulSet sandboxName namespace))
             (calls w ++ [DeleteStatefulSet sandboxName namespace])
             (now w + latency env (DeleteStatefulSet sandboxName namespace))%nat).
Proof.
  unfold deleteStatefulSet, k8sAppsApi_deleteNamespacedStatefulSet.
  rewrite tryCatch_run, request_run. unfold afterDelete, deleteError, toleratingNotFound.
  destruct (fault env _) as [e|].
  - destruct (isK8sNotFound e); reflexivity.
  - destruct (statefulSets (cluster w) !! _); cbn [fst snd]; [reflexivity|].
    destruct (isK8sNotFound _); reflexivity.
Qed.

Lemma deleteService_run isK8sNotFound sandboxName namespace env w :
  deleteService isK8sNotFound sandboxName namespace env w
  = (toleratingNotFound isK8sNotFound
       (deleteError env (cluster w)
          (DeleteService (getServiceName sandboxName) namespace)),
     mkWorld (afterDelete env (cluster w)
                (DeleteService (getServiceName sandboxName) namespace))
             (calls w ++ [DeleteService (getServiceName sandboxName) namespace])
             (now w + latency env
                      (DeleteService (getServiceName sandboxName) namespace))%nat).
Proof.
  unfold deleteService, k8sApi_deleteNamespacedService.
  rewrite tryCatch_run, request_run. unfold afterDelete, deleteError, toleratingNotFound.
  destruct (fault env _) as [e|].
  - destruct (isK8sNotFound e); reflexivity.
  - destruct (services (cluster w) !! _); cbn [fst snd]; [reflexivity|].
    destruct (isK8sNotFound _); reflexivity.
Qed.

Lemma deleteIngress_run isK8sNotFound ingressName namespace env w :
  deleteIngress isK8sNotFound ingressName namespace env w
  = (toleratingNotFound isK8sNotFound
       (deleteError env (cluster w) (DeleteIngress ingressName namespace)),
     mkWorld (afterDelete env (cluster w) (DeleteIngress ingressName namespace))
             (calls w ++ [DeleteIngress ingressName namespace])
             (now w + latency env (DeleteIngress ingressName namespace))%nat).
Proof.
  unfold deleteIngress, k8sNetworkingApi_deleteNamespacedIngress.
  rewrite tryCatch_run, request_run. unfold afterDelete, deleteError, toleratingNotFound.
  destruct (fault env _) as [e|].
  - destruct (isK8sNotFound e); reflexivity.
  - destruct (ingresses (cluster w) !! _); cbn [fst snd]; [reflexivity|].
    destruct (isK8sNotFound _); reflexivity.
Qed.

(** The storage claim: whatever the request ends with, the method resolves. *)
Lemma deletePVCs_run isK8sNotFound sandboxName namespace env w :
  deletePVCs isK8sNotFound sandboxName namespace env w
  = (Resolved tt,
     mkWorld (afterDelete env (cluster w) (claimDeletion namespace sandboxName))
             (calls w ++ [claimDeletion namespace sandboxName])
             (now w + latency env (claimDeletion namespace sandboxName))%nat).
Proof.
  unfold deletePVCs, k8sApi_deleteNamespacedPersistentVolumeClaim, claimDeletion.
  rewrite !tryCatch_run, request_run. unfold afterDelete, deleteError.
  destruct (fault env _) as [e|].
  - destruct (isK8sNotFound e); reflexivity.
  - destruct (decide _); cbn [fst snd]; [reflexivity|].
    destruct (isK8sNotFound _); reflexivity.
Qed.

(** A delete request does not change how a request for another object
    ends. *)
Lemma deleteError_afterDelete env cl c1 c2 :
  c1 ≠ c2 → deleteError env (afterDelete env cl c1) c2 = deleteError env cl c2.
Proof.
  intros Hne. unfold afterDelete.
  destruct (deleteError env cl c1); [reflexivity|].
  unfold deleteError. destruct (fault env c2); [reflexivity|].
  destruct c2; try reflexivity; destruct c1; try reflexivity; cbn.
  - rewrite lookup_delete_ne by congruence. reflexivity.
  - rewrite lookup_delete_ne by congruence. reflexivity.
  - rewrite lookup_delete_ne by congruence. reflexivity.
  - destruct (decide ((namespace, name) ∈ persistentVolumeClaims cl)) as [Hin|Hout];
      destruct (decide _) as [Hin2|Hout2]; try reflexivity; exfalso.
    + apply Hout2. apply elem_of_difference. split; [exact Hin|].
      rewrite elem_of_singleton. congruence.
    + apply Hout. now apply elem_of_difference in Hin2.
Qed.

Lemma toleratingNotFound_Resolved isK8sNotFound failure :
  toleratingNotFound isK8sNotFound failure = Resolved tt
  ↔ ∀ e, failure = Some e → isK8sNotFound e = true.
Proof.
  unfold toleratingNotFound. destruct failure as [e0|].
  - destruct (isK8sNotFound e0) eqn:Hnf; split.
    + now intros _ e [= <-].
    + reflexivity.
    + discriminate.
    + intros H. specialize (H e0 eq_refl). congruence.
  - split; [discriminate|reflexivity].
Qed.

Lemma toleratingNotFound_Rejected isK8sNotFound failure e :
  toleratingNotFound isK8sNotFound failure = Rejected e
  ↔ failure = Some e ∧ isK8sNotFound e = false.
Proof.
  unfold toleratingNotFound. destruct failure as [e0|].
  - destruct (isK8sNotFound e0) eqn:Hnf; split.
    + discriminate.
    + intros [[= <-] H]. congruence.
    + now intros [= <-].
    + now intros [[= <-] _].
  - split; [discriminate|now intros [? _]].
Qed.

Lemma firstRejection_In {A} (settled : list (nat * Outcome A)) t e :
  firstRejection settled = Some (t, e) → In (t, Rejected e) settled.
Proof.
  revert t e. induction settled as [|[t0 [a|e0]] rest IH]; intros t e;
    cbn [firstRejection In].
  - discriminate.
  - intros H. right. auto.
  - destruct (firstRejection rest) as [[t1 e1]|].
    + destruct (t1 <? t0)%nat; intros [= <- <-]; [right; auto|now left].
    + intros [= <- <-]. now left.
Qed.

Lemma firstRejection_None {A} (settled : list (nat * Outcome A)) t e :
  firstRejection settled = None → ¬ In (t, Rejected e) settled.
Proof.
  induction settled as [|[t0 [a|e0]] rest IH]; cbn [firstRejection In].
  - tauto.
  - intros H [Heq|Hin]; [discriminate|now apply IH].
  - destruct (firstRejection rest) as [[t1 e1]|]; [|discriminate].
    destruct (t1 <? t0)%nat; discriminate.
Qed.

(** [Promise.all] starts every branch; it rejects with the rejection of one
    of them and resolves only when none rejects. *)
Lemma Promise_all_run {A} (ps : list (M A)) env w :
  cluster (snd (Promise_all ps env w)) = cluster (snd (startAll ps (now w) env w))
  ∧ calls (snd (Promise_all ps env w)) = calls (snd (startAll ps (now w) env w))
  ∧ match fst (Promise_all ps env w) with
    | Resolved _ =>
        (∀ t e, ¬ In (t, Rejected e) (fst (startAll ps (now w) env w)))
        ∧ now (snd (Promise_all ps env w))
          = fold_right Nat.max (now w) (map fst (fst (startAll ps (now w) env w)))
    | Rejected e =>
        ∃ t, In (t, Rejected e) (fst (startAll ps (now w) env w))
    end.
Proof.
  unfold Promise_all.
  destruct (startAll ps (now w) env w) as [settled w1]. cbn [fst snd].
  destruct (firstRejection settled) as [[t e]|] eqn:Hfirst; cbn [fst snd cluster calls].
  - split; [reflexivity|]. split; [reflexivity|].
    exists t. now apply firstRejection_In.
  - split; [reflexivity|]. split; [reflexivity|]. split; [|reflexivity].
    intros t e. now apply firstRejection_None.
Qed.

Lemma append_inj_l (s a b : string) : s +:+ a = s +:+ b → a = b.
Proof.
  induction s as [|c s IH]; cbn; [auto|]. intros [= H]. auto.
Qed.

Lemma ingressNames_distinct sandboxName :
  getAppIngressName sandboxName ≠ getTtydIngressName sandboxName
  ∧ getAppIngressName sandboxName ≠ getFileBrowserIngressName sandboxName
  ∧ getTtydIngressName sandboxName ≠ getFileBrowserIngressName sandboxName.
Proof.
  unfold getAppIngressName, getTtydIngressName, getFileBrowserIngressName.
  repeat split; intros H; apply append_inj_l in H; discriminate.
Qed.

Lemma deleteIngresses_spec isK8sNotFound sandboxName namespace env w :
  let cs := [DeleteIngress (getAppIngressName sandboxName) namespace;
             DeleteIngress (getTtydIngressName sandboxName) namespace;
             DeleteIngress (getFileBrowserIngressName sandboxName) namespace] in
  let run := deleteIngresses isK8sNotFound sandboxName namespace env w in
  cluster (snd run) = fold_left (afterDelete env) cs (cluster w)
  ∧ calls (snd run) = calls w ++ cs
  ∧ match fst run with
    | Resolved _ =>
        (∀ c e, In c cs → deleteError env (cluster w) c = Some e →
                isK8sNotFound e = true)
        ∧ now (snd run)
          = fold_right Nat.max (now w) (map (fun c => (now w + latency env c)%nat) cs)
    | Rejected e =>
        ∃ c, In c cs ∧ deleteError env (cluster w) c = Some e
             ∧ isK8sNotFound e = false
    end.
Proof.
  intros cs run. subst run cs. unfold deleteIngresses. rewrite bind_run.
  destruct (ingressNames_distinct sandboxName) as (Hat & Haf & Htf).
  set (c1 := DeleteIngress (getAppIngressName sandboxName) namespace).
  set (c2 := DeleteIngress (getTtydIngressName sandboxName) namespace).
  set (c3 := DeleteIngress (getFileBrowserIngressName sandboxName) namespace).
  assert (H12 : c1 ≠ c2) by (subst c1 c2; congruence).
  assert (H13 : c1 ≠ c3) by (subst c1 c3; congruence).
  assert (H23 : c2 ≠ c3) by (subst c2 c3; congruence).
  match goal with |- context [Promise_all ?ps env w] =>
    pose proof (Promise_all_run ps env w) as (Hcl & Hcalls & Hout);
    destruct (Promise_all ps env w) as [o w1]
  end.
  cbn [startAll] in Hcl, Hcalls, Hout.
  rewrite !deleteIngress_run in Hcl, Hcalls, Hout.
  cbn [fst snd cluster calls now] in Hcl, Hcalls, Hout.
  fold c1 c2 c3 in Hcl, Hcalls, Hout.
  rewrite <- !app_assoc in Hcalls. cbn [app] in Hcalls.
  assert (E2 : deleteError env (afterDelete env (cluster w) c1) c2
               = deleteError env (cluster w) c2)
    by now apply deleteError_afterDelete.
  assert (E3 : deleteError env (afterDelete env (afterDelete env (cluster w) c1) c2) c3
               = deleteError env (cluster w) c3)
    by (rewrite !deleteError_afterDelete; auto).
  rewrite E2, E3 in Hout.
  destruct o as [values|e]; cbn [fst snd].
  - destruct Hout as [Hout Hnow].
    split; [exact Hcl|]. split; [exact Hcalls|]. split; [|exact Hnow].
    intros c e Hin Herr.
    destruct (isK8sNotFound e) eqn:Hnf; [reflexivity|exfalso].
    assert (Hrej : toleratingNotFound isK8sNotFound (deleteError env (cluster w) c)
                   = Rejected e)
      by now apply toleratingNotFound_Rejected.
    cbn [In] in Hin. destruct Hin as [<-|[<-|[<-|[]]]].
    + apply (Hout (now w + latency env c1)%nat e). left. now rewrite Hrej.
    + apply (Hout (now w + latency env c2)%nat e). right; left. now rewrite Hrej.
    + apply (Hout (now w + latency env c3)%nat e). right; right; left. now rewrite Hrej.
  - split; [exact Hcl|]. split; [exact Hcalls|].
    destruct Hout as (t & Hin). cbn [In] in Hin.
    destruct Hin as [[= _ H]|[[= _ H]|[[= _ H]|[]]]];
      apply toleratingNotFound_Rejected in H; destruct H as [Herr Hnf].
    + exists c1. cbn [In]. auto.
    + exists c2. cbn [In]. auto.
    + exists c3. cbn [In]. auto.
Qed.

(** C3. [deleteSandbox] starts its deletions together: all six requests
    (workload, service, three routes, storage claim) are issued whatever
    the others end with, and when it resolves it does so after the slowest
    of them, not after their sum.  A not-found answer counts as success for
    every one; the call resolves exactly when each of the five resource
    deletions succeeded or ended in not-found, however the deletion of the
    storage claim ended; and when it rejects, it rejects with the failure
    of one of the five. *)
Theorem deleteSandbox_tolerant isK8sNotFound env w namespace sandboxName :
  let run := deleteSandbox isK8sNotFound namespace sandboxName env w in
  let all := resourceDeletions namespace sandboxName
             ++ [claimDeletion namespace sandboxName] in
  calls (snd run) = calls w ++ all
  ∧ (fst run = Resolved tt
     ↔ ∀ c e, In c (resourceDeletions namespace sandboxName) →
              deleteError env (cluster w) c = Some e → isK8sNotFound e = true)
  ∧ (∀ e, fst run = Rejected e →
          ∃ c, In c (resourceDeletions namespace sandboxName)
               ∧ deleteError env (cluster w) c = Some e
               ∧ isK8sNotFound e = false)
  ∧ (fst run = Resolved tt →
     now (snd run) = (now w + fold_right Nat.max 0%nat (map (latency env) all))%nat).
Proof.
  intros run all. subst run all. unfold deleteSandbox, resourceDeletions.
  rewrite bind_run.
  set (c0 := DeleteStatefulSet sandboxName namespace).
  set (c1 := DeleteService (getServiceName sandboxName) namespace).
  set (c2 := DeleteIngress (getAppIngressName sandboxName) namespace).
  set (c3 := DeleteIngress (getTtydIngressName sandboxName) namespace).
  set (c4 := DeleteIngress (getFileBrowserIngressName sandboxName) namespace).
  set (c5 := claimDeletion namespace sandboxName).
  match goal with |- context [Promise_all ?ps env w] =>
    pose proof (Promise_all_run ps env w) as (_ & Hcalls & Hout);
    destruct (Promise_all ps env w) as [o w1]
  end.
  cbn [startAll] in Hcalls, Hout.
  rewrite deleteStatefulSet_run, deleteService_run in Hcalls, Hout.
  cbn [fst snd cluster calls now] in Hcalls, Hout.
  fold c0 c1 in Hcalls, Hout.
  set (cl2 := afterDelete env (afterDelete env (cluster w) c0) c1) in *.
  set (w2 := mkWorld cl2 ((calls w ++ [c0]) ++ [c1]) (now w)) in *.
  pose proof (deleteIngresses_spec isK8sNotFound sandboxName namespace env w2)
    as (Hcl3 & Hcalls3 & Hout3).
  cbv zeta in Hcl3, Hcalls3, Hout3. fold c2 c3 c4 in Hcl3, Hcalls3, Hout3.
  destruct (deleteIngresses isK8sNotFound sandboxName namespace env w2) as [o3 w3].
  rewrite deletePVCs_run in Hcalls, Hout.
  cbn [fst snd cluster calls now] in Hcalls, Hout, Hcl3, Hcalls3, Hout3.
  fold c5 in Hcalls, Hout.
  rewrite Hcalls3 in Hcalls. subst w2. cbn [calls cluster now] in *.
  rewrite <- !app_assoc in Hcalls. cbn [app] in Hcalls.
  assert (Hsame : ∀ c, In c [c2; c3; c4] →
            deleteError env cl2 c = deleteError env (cluster w) c).
  { intros c Hin. subst cl2.
    assert (c0 ≠ c ∧ c1 ≠ c) as [Hc0 Hc1]
      by (cbn [In] in Hin; destruct Hin as [<-|[<-|[<-|[]]]]; split; discriminate).
    now rewrite !deleteError_afterDelete. }
  assert (H1 : deleteError env (afterDelete env (cluster w) c0) c1
               = deleteError env (cluster w) c1)
    by (apply deleteError_afterDelete; discriminate).
  rewrite H1 in Hout.
  set (v0 := toleratingNotFound isK8sNotFound (deleteError env (cluster w) c0)) in *.
  set (v1 := toleratingNotFound isK8sNotFound (deleteError env (cluster w) c1)) in *.
  destruct o as [values|e]; cbn [fst snd mret M_ret app]; (split; [exact Hcalls|]).
  - destruct Hout as [Hout Hnow].
    assert (Hv0 : v0 = Resolved tt).
    { destruct v0 as [[]|e0] eqn:E; [reflexivity|exfalso].
      apply (Hout (now w + latency env c0)%nat e0). now left. }
    assert (Hv1 : v1 = Resolved tt).
    { destruct v1 as [[]|e1] eqn:E; [reflexivity|exfalso].
      apply (Hout (now w + latency env c1)%nat e1). right. now left. }
    destruct o3 as [v3|e3];
      [|exfalso; apply (Hout (now w3) e3); right; right; now left].
    destruct Hout3 as [Hout3 Hnow3].
    assert (Hall : ∀ c e, In c [c0; c1; c2; c3; c4] →
              deleteError env (cluster w) c = Some e → isK8sNotFound e = true).
    { intros c e Hin Herr. cbn [In] in Hin.
      destruct Hin as [<-|[<-|Hin]].
      - subst v0. exact (proj1 (toleratingNotFound_Resolved _ _) Hv0 e Herr).
      - subst v1. exact (proj1 (toleratingNotFound_Resolved _ _) Hv1 e Herr).
      - apply (Hout3 c e); [exact Hin|]. now rewrite Hsame. }
    split; [split; [intros _; exact Hall|reflexivity]|].
    split; [discriminate|]. intros _.
    cbn [map fst fold_right] in Hnow. rewrite Hnow, Hnow3.
    cbn [map fold_right app]. lia.
  - destruct Hout as (t & Hin). cbn [In] in Hin.
    assert (Hfail : ∃ c, In c [c0; c1; c2; c3; c4]
                         ∧ deleteError env (cluster w) c = Some e
                         ∧ isK8sNotFound e = false).
    { destruct Hin as [[= _ H]|[[= _ H]|[[= _ H]|[[=]|[]]]]].
      - apply toleratingNotFound_Rejected in H. exists c0. cbn [In]. tauto.
      - apply toleratingNotFound_Rejected in H. exists c1. cbn [In]. tauto.
      - subst o3. destruct Hout3 as (c & Hc & Herr & Hnf).
        exists c. rewrite <- Hsame by exact Hc. cbn [In] in *. tauto. }
    split; [|split; [|discriminate]].
    + split; [discriminate|]. intros Hall.
      destruct Hfail as (c & Hc & Herr & Hnf).
      rewrite (Hall c e Hc Herr) in Hnf. discriminate.
    + intros e' [= <-]. exact Hfail.
Qed.

Lemma deleteSandbox_tolerant_witness :
  fst (deleteSandbox statusIs404 "ns1" "acme-x1" claimDeletionFails
         (freshWorld (clusterWith oneReplica)))
  = Resolved tt
  ∧ deleteError claimDeletionFails (clusterWith oneReplica) (claimDeletion "ns1" "acme-x1")
    = Some (httpError 500).
Proof.
  split; [|reflexivity].
  apply (proj1 (proj2 (deleteSandbox_tolerant statusIs404 claimDeletionFails
                         (freshWorld (clusterWith oneReplica)) "ns1" "acme-x1"))).
  intros c e Hin Herr. cbn [resourceDeletions In] in Hin.
  destruct Hin as [<-|[<-|[<-|[<-|[<-|[]]]]]]; vm_compute in Herr;
    try discriminate Herr; injection Herr as <-; reflexivity.
Defined.

(** ** Creating a sandbox *)

(** C4. A conflict on create.  Each creation checks for existence first;
    when the create request itself is answered by a 409 conflict,
    [createStatefulSet] takes it as success, while [createService] and
    [createIngressIfNotExists] reject with the conflict, and so does
    [createSandbox]. *)
Theorem createService_conflict_rejects :
  fst (createStatefulSet statusIs404 "runtime:latest" "acme-x1" "proj" "ns1" []
         everyCreateConflicts (freshWorld emptyCluster))
  = Resolved tt
  ∧ createService "acme-x1" "proj" "ns1" everyCreateConflicts (freshWorld emptyCluster)
    = (Rejected (httpError 409),
       mkWorld emptyCluster
         [ReadService "acme-x1-service" "ns1";
          CreateService "ns1"
            (mkService
               (mkMeta "acme-x1-service" "ns1"
                  [("cloud.sealos.io/app-deploy-manager", "acme-x1");
                   ("project.fullstackagent.io/name", "proj")])
               [mkPort 3000 3000 "port-3000"; mkPort 7681 7681 "port-7681";
                mkPort 8080 8080 "port-8080"]
               [("app", "acme-x1")])] 2%nat)
  ∧ fst (createIngressIfNotExists statusIs404 "acme-x1-app-ingress" "ns1"
           (createAppIngress "acme-x1" "proj" "ns1" "acme-x1-service" "usw.example.io")
           everyCreateConflicts (freshWorld emptyCluster))
    = Rejected (httpError 409)
  ∧ fst (createSandbox statusIs404 projectLabel "runtime:latest"
           "proj" "ns1" "usw.example.io" "acme-x1" []
           everyCreateConflicts (freshWorld emptyCluster))
    = Rejected (httpError 409).
Proof.
  repeat split; vm_compute; reflexivity.
Qed.

Lemma createSandbox_run isK8sNotFound toK8sProjectName RUNTIME_IMAGE
    projectName namespace ingressDomain sandboxName envVars env w info w1 :
  createSandbox isK8sNotFound toK8sProjectName RUNTIME_IMAGE
    projectName namespace ingressDomain sandboxName envVars env w
    = (Resolved info, w1) →
  info = mkSandboxInfo sandboxName (getServiceName sandboxName)
           ("https://" +:+ sandboxName +:+ "-app." +:+ ingressDomain)
           (match obj_get "TTYD_ACCESS_TOKEN" envVars with
            | None => "https://" +:+ sandboxName +:+ "-ttyd." +:+ ingressDomain
            | Some EmptyString => "https://" +:+ sandboxName +:+ "-ttyd." +:+ ingressDomain
            | Some token =>
                ("https://" +:+ sandboxName +:+ "-ttyd." +:+ ingressDomain)
                +:+ "?authorization=" +:+ base64 ("user:" +:+ token)
            end)
           ("https://" +:+ sandboxName +:+ "-filebrowser." +:+ ingressDomain).
Proof.
  unfold createSandbox. rewrite bind_run.
  destruct (createStatefulSet _ _ _ _ _ _ env w) as [[[]|e] wa]; [|discriminate].
  rewrite bind_run.
  destruct (createService _ _ _ env wa) as [[[]|e] wb]; [|discriminate].
  rewrite bind_run.
  destruct (createIngresses _ _ _ _ _ _ env wb) as [[[]|e] wc]; [|discriminate].
  rewrite ret_run. now intros [= <- _].
Qed.

(** C8, as stated, fails: with the key [TTYD_ACCESS_TOKEN] present and its
    value empty, no [authorization] parameter is appended. *)
Lemma createSandbox_empty_token_no_authorization :
  obj_get "TTYD_ACCESS_TOKEN" emptyToken = Some ""
  ∧ ∃ info w1,
      createSandbox statusIs404 projectLabel "runtime:latest"
        "proj" "ns1" "usw.example.io" "acme-x1" emptyToken
        calmEnv (freshWorld emptyCluster)
      = (Resolved info, w1)
      ∧ ttydUrl info = "https://acme-x1-ttyd.usw.example.io".
Proof.
  split; [reflexivity|].
  destruct (createSandbox statusIs404 projectLabel "runtime:latest"
              "proj" "ns1" "usw.example.io" "acme-x1" emptyToken calmEnv
              (freshWorld emptyCluster)) as [[info|e] w1] eqn:Hrun;
    vm_compute in Hrun; [|discriminate Hrun].
  exists info, w1. split; [reflexivity|].
  now injection Hrun as <- _.
Qed.

(** C8, amended.  The [SandboxInfo] that [createSandbox] returns has
    [statefulSetName] the sandbox name, [serviceName] the name followed by
    [-service], [publicUrl], [fileBrowserUrl] and [ttydUrl] built as
    [https://<name>-app.<domain>], [https://<name>-filebrowser.<domain>] and
    [https://<name>-ttyd.<domain>]; the [ttydUrl] ends with
    [?authorization=] and the base64 of [user:<token>] exactly when
    [envVars] has the key [TTYD_ACCESS_TOKEN] with a non-empty value. *)
Theorem createSandbox_info isK8sNotFound toK8sProjectName RUNTIME_IMAGE
    projectName namespace ingressDomain sandboxName envVars env w info w1 :
  createSandbox isK8sNotFound toK8sProjectName RUNTIME_IMAGE
    projectName namespace ingressDomain sandboxName envVars env w
    = (Resolved info, w1) →
  statefulSetName info = sandboxName
  ∧ serviceName info = sandboxName +:+ "-service"
  ∧ publicUrl info = "https://" +:+ sandboxName +:+ "-app." +:+ ingressDomain
  ∧ fileBrowserUrl info
    = "https://" +:+ sandboxName +:+ "-filebrowser." +:+ ingressDomain
  ∧ (∀ token,
       obj_get "TTYD_ACCESS_TOKEN" envVars = Some token → token ≠ "" →
       ttydUrl info
       = ("https://" +:+ sandboxName +:+ "-ttyd." +:+ ingressDomain)
         +:+ "?authorization=" +:+ base64 ("user:" +:+ token))
  ∧ (obj_get "TTYD_ACCESS_TOKEN" envVars = None
     ∨ obj_get "TTYD_ACCESS_TOKEN" envVars = Some "" →
     ttydUrl info = "https://" +:+ sandboxName +:+ "-ttyd." +:+ ingressDomain).
Proof.
  intros Hrun. apply createSandbox_run in Hrun. subst info.
  cbn [statefulSetName serviceName publicUrl fileBrowserUrl ttydUrl].
  repeat split.
  - intros token -> Hne. destruct token; [contradiction|reflexivity].
  - intros [->| ->]; reflexivity.
Qed.

Lemma createSandbox_info_witness :
  ∃ info w1,
    createSandbox statusIs404 projectLabel "runtime:latest"
      "proj" "ns1" "usw.example.io" "acme-x1" tokenAbc calmEnv (freshWorld emptyCluster)
    = (Resolved info, w1)
    ∧ publicUrl info = "https://acme-x1-app.usw.example.io"
    ∧ serviceName info = "acme-x1-service"
    ∧ ttydUrl info = "https://acme-x1-ttyd.usw.example.io?authorization=dXNlcjphYmM=".
Proof.
  destruct (createSandbox statusIs404 projectLabel "runtime:latest"
              "proj" "ns1" "usw.example.io" "acme-x1" tokenAbc calmEnv
              (freshWorld emptyCluster)) as [[info|e] w1] eqn:Hrun;
    [|vm_compute in Hrun; discriminate Hrun].
  exists info, w1. split; [reflexivity|].
  destruct (createSandbox_info _ _ _ _ _ _ _ _ _ _ _ _ Hrun)
    as (_ & Hservice & Hpublic & _ & Htoken & _).
  split; [exact Hpublic|]. split; [exact Hservice|].
  apply (Htoken "abc"); [reflexivity|discriminate].
Defined.

(** ** Background commands *)

Lemma bindP_run {A B} (m : Promise A) (k : A → Promise B) env w :
  (m ≫= k) env w
  = match m env w with
    | Settled (Resolved a) w1 => k a env w1
    | Settled (Rejected e) w1 => Settled (Rejected e) w1
    | Pending => Pending
    end.
Proof. reflexivity. Qed.

Lemma tryCatchP_run {A} (body : Promise A) handler env w :
  tryCatchP body handler env w
  = match body env w with
    | Settled (Resolved a) w1 => Settled (Resolved a) w1
    | Settled (Rejected e) w1 => handler e env w1
    | Pending => Pending
    end.
Proof. reflexivity. Qed.

Lemma retP_run {A} (a : A) env w :
  (mret a : Promise A) env w = Settled (Resolved a) w.
Proof. reflexivity. Qed.

(** What [execCommandInBackground] ends with, for every behaviour of the
    exec channel.  When the status callback runs, the call resolves: on
    ['Success'] with the process id if the output parses as a number and
    with the parse failure otherwise, on any other status with the failure
    message.  When the callback never runs, the call stays pending. *)
Lemma execCommandInBackground_outcomes
    Buffer_toString env w namespace sandboxName command workdir :
  execCommandInBackground Buffer_toString namespace sandboxName command workdir env w
  = match execChannel env namespace (sandboxName +:+ "-0") sandboxName
            ["bash"; "-c"; backgroundScript workdir command (dateNow env)] with
    | ExecStatus out err st message =>
        let output := collectChunks Buffer_toString out in
        Settled
          (Resolved
             (if isSuccess st
              then match parseInt (trim output) with
                   | Some pid => mkExecResult true (Some pid) None
                   | None =>
                       mkExecResult false None
                         (Some ("Failed to parse PID from output: " +:+ output))
                   end
              else mkExecResult false None
                     (Some ("Command failed: "
                            +:+ orElse message (collectChunks Buffer_toString err)))))
          w
    | ExecNoCallback => Pending
    end.
Proof.
  unfold execCommandInBackground. rewrite tryCatchP_run, bindP_run.
  unfold execAndCapture.
  destruct (execChannel env _ _ _ _) as [out err st message|]; [|reflexivity].
  cbv zeta. destruct (isSuccess st); [|reflexivity].
  cbn [fst]. now destruct (parseInt (trim (collectChunks Buffer_toString out))).
Qed.

(** C9. A failure of the exec connection is not returned.  [Exec.exec] is
    [async] and the promise it returns is dropped, so when the connection
    fails the status callback never runs, the promise the method awaits
    never settles, and the method returns nothing: neither a result nor
    the [{success: false, error}] of its [catch] block. *)
Theorem execCommandInBackground_failed_connection_pending :
  let run :=
    execCommandInBackground asciiText "ns1" "acme-x1" "pnpm dev" "/home/fulling"
      deadChannelEnv (freshWorld emptyCluster) in
  run = Pending
  ∧ ∀ message w1,
      run ≠ Settled (Resolved (mkExecResult false None (Some message))) w1.
Proof.
  intros run.
  assert (Hrun : run = Pending) by (subst run; vm_compute; reflexivity).
  split; [exact Hrun|].
  intros message w1. rewrite Hrun. discriminate.
Qed.

Example execCommandInBackground_pid :
  execCommandInBackground asciiText "ns1" "acme-x1" "pnpm dev" "/home/fulling"
    calmEnv (freshWorld emptyCluster)
  = Settled (Resolved (mkExecResult true (Some (Finite 4242)) None))
      (freshWorld emptyCluster).
Proof. reflexivity. Qed.

Example execCommandInBackground_not_a_pid :
  execCommandInBackground asciiText "ns1" "acme-x1" "pnpm dev" "/home/fulling"
    textEnv (freshWorld emptyCluster)
  = Settled
      (Resolved (mkExecResult false None
                   (Some ("Failed to parse PID from output: not-a-pid" +:+ newline))))
      (freshWorld emptyCluster).
Proof. reflexivity. Qed.

(** * Further properties *)

(** ** Scaling: stop and start *)

Lemma startSandbox_spec isK8sNotFound namespace sandboxName env w :
  let readWorld :=
    mkWorld (cluster w) (calls w ++ [ReadStatefulSet sandboxName namespace])
            (now w + latency env (ReadStatefulSet sandboxName namespace))%nat in
  startSandbox isK8sNotFound namespace sandboxName env w
  = match fault env (ReadStatefulSet sandboxName namespace) with
    | Some e => (if isK8sNotFound e then Resolved tt else Rejected e, readWorld)
    | None =>
        match statefulSets (cluster w) !! (namespace, sandboxName) with
        | None =>
            (if isK8sNotFound (apiError env 404) then Resolved tt
             else Rejected (apiError env 404), readWorld)
        | Some statefulSet =>
            if 1 <=? declaredReplicas statefulSet then (Resolved tt, readWorld)
            else k8sAppsApi_patchNamespacedStatefulSet sandboxName namespace
                   startPatch env readWorld
        end
    end.
Proof.
  intros readWorld. unfold startSandbox.
  rewrite tryCatch_run, bind_run, getStatefulSet_run.
  unfold k8sAppsApi_readNamespacedStatefulSet. rewrite request_run.
  destruct (fault env _) as [e|].
  - destruct (isK8sNotFound e); reflexivity.
  - destruct (statefulSets (cluster w) !! _) as [statefulSet|]; cbn [fst snd].
    + assert (Hu : unwrapResponse (respond env statefulSet) = statefulSet)
        by (unfold respond; now destruct (wrapsBody env)).
      rewrite Hu. unfold declaredReplicas.
      destruct (1 <=? orZero (sts_spec statefulSet ≫= spec_replicas)); [reflexivity|].
      fold startPatch.
      subst readWorld.
      now destruct (k8sAppsApi_patchNamespacedStatefulSet _ _ _ env _)
        as [[[]|e] w2].
    + destruct (isK8sNotFound _); reflexivity.
Qed.

(** What a patch of the replicas does to the store. *)
Lemma patchReplicas_run sandboxName namespace n env w :
  k8sAppsApi_patchNamespacedStatefulSet sandboxName namespace
    [mkPatchOp "replace" "/spec/replicas" n] env w
  = let c := PatchStatefulSet sandboxName namespace
               [mkPatchOp "replace" "/spec/replicas" n] in
    let issued := calls w ++ [c] in
    let done := (now w + latency env c)%nat in
    match fault env c with
    | Some e => (Rejected e, mkWorld (cluster w) issued done)
    | None =>
        match statefulSets (cluster w) !! (namespace, sandboxName) with
        | None => (Rejected (apiError env 404), mkWorld (cluster w) issued done)
        | Some s =>
            match withReplicas n s with
            | Some s1 =>
                (Resolved tt,
                 mkWorld (setStatefulSets
                            (<[(namespace, sandboxName) := s1]> (statefulSets (cluster w)))
                            (cluster w)) issued done)
            | None => (Rejected (apiError env 422), mkWorld (cluster w) issued done)
            end
        end
    end.
Proof.
  unfold k8sAppsApi_patchNamespacedStatefulSet. rewrite request_run. cbv zeta.
  destruct (fault env _); [reflexivity|].
  destruct (statefulSets (cluster w) !! _) as [s|]; [|reflexivity].
  unfold applyPatch, applyPatchOp.
  cbn [fold_left patch_op patch_path patch_value String.eqb Ascii.eqb Bool.eqb andb].
  destruct (withReplicas n s); reflexivity.
Qed.

Lemma withReplicas_same n s s1 :
  withReplicas n s = Some s1 →
  sameExceptReplicas s s1 ∧ sts_spec s1 ≫= spec_replicas = Some n.
Proof.
  unfold withReplicas, sameExceptReplicas.
  destruct (sts_spec s) as [sp|] eqn:Hsp; [|discriminate].
  destruct (spec_replicas sp); [|discriminate].
  intros [= <-]. cbn. auto.
Qed.

Lemma sameExceptReplicas_refl s : sameExceptReplicas s s.
Proof. unfold sameExceptReplicas. auto. Qed.

Lemma onlyReplicasOf_refl namespace sandboxName cl :
  onlyReplicasOf namespace sandboxName cl cl.
Proof.
  unfold onlyReplicasOf. repeat split; auto.
  destruct (statefulSets cl !! _) as [s|]; [|reflexivity].
  exists s. split; [reflexivity|apply sameExceptReplicas_refl].
Qed.

Lemma patchReplicas_frame sandboxName namespace n env w :
  onlyReplicasOf namespace sandboxName (cluster w)
    (cluster (snd (k8sAppsApi_patchNamespacedStatefulSet sandboxName namespace
                     [mkPatchOp "replace" "/spec/replicas" n] env w))).
Proof.
  rewrite patchReplicas_run. cbv zeta.
  destruct (fault env _); [apply onlyReplicasOf_refl|].
  destruct (statefulSets (cluster w) !! _) as [s|] eqn:Hs;
    [|apply onlyReplicasOf_refl].
  destruct (withReplicas n s) as [s1|] eqn:Hs1; [|apply onlyReplicasOf_refl].
  cbn [snd cluster]. unfold onlyReplicasOf, setStatefulSets.
  cbn [services ingresses persistentVolumeClaims statefulSets].
  repeat split.
  - intros key Hkey. now rewrite lookup_insert_ne.
  - rewrite Hs. exists s1. rewrite lookup_insert_eq.
    split; [reflexivity|]. now apply withReplicas_same in Hs1.
Qed.

Lemma stopSandbox_frame isK8sNotFound env w namespace sandboxName :
  onlyReplicasOf namespace sandboxName (cluster w)
    (cluster (snd (stopSandbox isK8sNotFound namespace sandboxName env w))).
Proof.
  rewrite stopSandbox_spec. cbv zeta.
  destruct (fault env _); [apply onlyReplicasOf_refl|].
  destruct (statefulSets (cluster w) !! _) as [s|]; [|apply onlyReplicasOf_refl].
  destruct (declaredReplicas s =? 0); [apply onlyReplicasOf_refl|].
  apply (patchReplicas_frame sandboxName namespace 0 env (mkWorld (cluster w) _ _)).
Qed.

Lemma startSandbox_frame isK8sNotFound env w namespace sandboxName :
  onlyReplicasOf namespace sandboxName (cluster w)
    (cluster (snd (startSandbox isK8sNotFound namespace sandboxName env w))).
Proof.
  rewrite startSandbox_spec. cbv zeta.
  destruct (fault env _); [apply onlyReplicasOf_refl|].
  destruct (statefulSets (cluster w) !! _) as [s|]; [|apply onlyReplicasOf_refl].
  destruct (1 <=? declaredReplicas s); [apply onlyReplicasOf_refl|].
  apply (patchReplicas_frame sandboxName namespace 1 env (mkWorld (cluster w) _ _)).
Qed.

(** X1. [stopSandbox] and [startSandbox] change nothing but the declared
    replicas of the named workload: services, routes, storage claims and
    the other workloads stay, and the workload keeps its metadata, status,
    service name and pod template, whatever the cluster answers. *)
Theorem scaling_touches_only_replicas isK8sNotFound env w namespace sandboxName :
  onlyReplicasOf namespace sandboxName (cluster w)
    (cluster (snd (stopSandbox isK8sNotFound namespace sandboxName env w)))
  ∧ onlyReplicasOf namespace sandboxName (cluster w)
      (cluster (snd (startSandbox isK8sNotFound namespace sandboxName env w))).
Proof.
  split; [apply stopSandbox_frame|apply startSandbox_frame].
Qed.


(** X2. [startSandbox] is idempotent.  It returns without writing when the
    workload is absent or already declares at least one replica, and
    otherwise sends the single operation [replace /spec/replicas 1]; after
    a call that saw the cluster and resolved, the stored workload (if any)
    declares at least one replica, and a second call leaves the store as it
    is and sends nothing but its read. *)
Theorem startSandbox_idempotent
    isK8sNotFound env env2 w namespace sandboxName :
  let first := startSandbox isK8sNotFound namespace sandboxName env w in
  let second := startSandbox isK8sNotFound namespace sandboxName env2 (snd first) in
  (∀ statefulSet,
     fault env (ReadStatefulSet sandboxName namespace) = None →
     statefulSets (cluster w) !! (namespace, sandboxName) = Some statefulSet →
     (1 ≤ declaredReplicas statefulSet →
        fst first = Resolved tt
        ∧ cluster (snd first) = cluster w
        ∧ calls (snd first) = calls w ++ [ReadStatefulSet sandboxName namespace])
     ∧ (declaredReplicas statefulSet < 1 →
        calls (snd first)
        = calls w ++ [ReadStatefulSet sandboxName namespace;
                      PatchStatefulSet sandboxName namespace startPatch]))
  ∧ (fault env (ReadStatefulSet sandboxName namespace) = None →
     fst first = Resolved tt →
     (∀ stored,
        statefulSets (cluster (snd first)) !! (namespace, sandboxName) = Some stored →
        1 ≤ declaredReplicas stored)
     ∧ cluster (snd second) = cluster (snd first)
     ∧ calls (snd second)
       = calls (snd first) ++ [ReadStatefulSet sandboxName namespace]).
Proof.
  intros first second. split.
  - intros statefulSet Hfault Hstore. subst first.
    rewrite startSandbox_spec, Hfault, Hstore. cbv zeta. split; intros Hd.
    + apply Z.leb_le in Hd. rewrite Hd. auto.
    + assert ((1 <=? declaredReplicas statefulSet) = false) as ->
        by (apply Z.leb_gt; lia).
      unfold startPatch. rewrite patchReplicas_run. cbv zeta.
      destruct (fault env (PatchStatefulSet _ _ _));
        [cbn [snd calls]; now rewrite <- app_assoc|].
      cbn [cluster]. rewrite Hstore.
      destruct (withReplicas 1 statefulSet); cbn [snd calls]; now rewrite <- app_assoc.
  - intros Hfault Hres.
    assert (Hstarted : ∀ stored,
               statefulSets (cluster (snd first)) !! (namespace, sandboxName)
                 = Some stored →
               1 ≤ declaredReplicas stored).
    { subst first. revert Hres. rewrite startSandbox_spec, Hfault. cbv zeta.
      destruct (statefulSets (cluster w) !! (namespace, sandboxName))
        as [current|] eqn:Hstore.
      - destruct (1 <=? declaredReplicas current) eqn:Hd.
        + intros _ stored. cbn [snd cluster]. rewrite Hstore.
          intros [= <-]. now apply Z.leb_le.
        + unfold startPatch. rewrite patchReplicas_run. cbv zeta.
          destruct (fault env (PatchStatefulSet _ _ _)); [discriminate|].
          cbn [cluster]. rewrite Hstore.
          destruct (withReplicas 1 current) as [s1|] eqn:Hs1; [|discriminate].
          intros _ stored. cbn [snd cluster]. unfold setStatefulSets.
          cbn [statefulSets]. rewrite lookup_insert_eq. intros [= <-].
          apply withReplicas_same in Hs1. destruct Hs1 as [_ Hone].
          unfold declaredReplicas. rewrite Hone. cbn. lia.
      - destruct (isK8sNotFound _); [|discriminate].
        intros _ stored. cbn [snd cluster]. rewrite Hstore. discriminate. }
    split; [exact Hstarted|]. subst second.
    rewrite (startSandbox_spec _ _ _ env2). cbv zeta.
    destruct (fault env2 _); [auto|].
    destruct (statefulSets (cluster (snd first)) !! _) as [stored|] eqn:Hstored;
      [|auto].
    specialize (Hstarted stored eq_refl). apply Z.leb_le in Hstarted.
    rewrite Hstarted. auto.
Qed.

Lemma startSandbox_idempotent_witness :
  let first := startSandbox statusIs404 "ns1" "acme-x1" calmEnv
                 (freshWorld (clusterWith stopped)) in
  let second := startSandbox statusIs404 "ns1" "acme-x1" calmEnv (snd first) in
  calls (snd first)
    = [ReadStatefulSet "acme-x1" "ns1"; PatchStatefulSet "acme-x1" "ns1" startPatch]
  ∧ cluster (snd second) = cluster (snd first)
  ∧ calls (snd second) = calls (snd first) ++ [ReadStatefulSet "acme-x1" "ns1"].
Proof.
  intros first second.
  destruct (startSandbox_idempotent statusIs404 calmEnv calmEnv
              (freshWorld (clusterWith stopped)) "ns1" "acme-x1")
    as (Hpresent & Htwice).
  split.
  - apply (Hpresent stopped); [reflexivity|vm_compute; reflexivity|vm_compute; reflexivity].
  - apply Htwice; vm_compute; reflexivity.
Defined.

Lemma stopSandbox_scales_down isK8sNotFound env w namespace sandboxName s s0 :
  faultFree env →
  statefulSets (cluster w) !! (namespace, sandboxName) = Some s →
  declaredReplicas s ≠ 0 →
  withReplicas 0 s = Some s0 →
  fst (stopSandbox isK8sNotFound namespace sandboxName env w) = Resolved tt
  ∧ cluster (snd (stopSandbox isK8sNotFound namespace sandboxName env w))
    = setStatefulSets (<[(namespace, sandboxName) := s0]> (statefulSets (cluster w)))
        (cluster w).
Proof.
  intros Hfree Hstore Hd Hs0. rewrite stopSandbox_spec, Hfree, Hstore. cbv zeta.
  apply Z.eqb_neq in Hd. rewrite Hd.
  unfold stopPatch. rewrite patchReplicas_run. cbv zeta. rewrite Hfree.
  cbn [cluster]. rewrite Hstore, Hs0. auto.
Qed.

Lemma startSandbox_scales_up isK8sNotFound env w namespace sandboxName s s1 :
  faultFree env →
  statefulSets (cluster w) !! (namespace, sandboxName) = Some s →
  declaredReplicas s < 1 →
  withReplicas 1 s = Some s1 →
  fst (startSandbox isK8sNotFound namespace sandboxName env w) = Resolved tt
  ∧ cluster (snd (startSandbox isK8sNotFound namespace sandboxName env w))
    = setStatefulSets (<[(namespace, sandboxName) := s1]> (statefulSets (cluster w)))
        (cluster w).
Proof.
  intros Hfree Hstore Hd Hs1. rewrite startSandbox_spec, Hfree, Hstore. cbv zeta.
  assert ((1 <=? declaredReplicas s) = false) as -> by (apply Z.leb_gt; lia).
  unfold startPatch. rewrite patchReplicas_run. cbv zeta. rewrite Hfree.
  cbn [cluster]. rewrite Hstore, Hs1. auto.
Qed.

(** X3. Stop, then start, is a round trip.  On a workload that declares one
    replica, with no request failed, [stopSandbox] brings the declared
    replicas to 0 and a following [startSandbox] gives back the store as it
    was before the stop. *)
Theorem stop_then_start_restores
    isK8sNotFound env w namespace sandboxName statefulSet :
  faultFree env →
  statefulSets (cluster w) !! (namespace, sandboxName) = Some statefulSet →
  sts_spec statefulSet ≫= spec_replicas = Some 1 →
  let stop := stopSandbox isK8sNotFound namespace sandboxName env w in
  let start := startSandbox isK8sNotFound namespace sandboxName env (snd stop) in
  fst stop = Resolved tt
  ∧ (∃ halted,
       statefulSets (cluster (snd stop)) !! (namespace, sandboxName) = Some halted
       ∧ sts_spec halted ≫= spec_replicas = Some 0)
  ∧ fst start = Resolved tt
  ∧ cluster (snd start) = cluster w.
Proof.
  intros Hfree Hstore Hone stop start.
  destruct (sts_spec statefulSet) as [sp|] eqn:Hsp; [|discriminate].
  cbn in Hone.
  set (halted := mkSts (sts_metadata statefulSet)
                   (Some (mkStsSpec (Some 0) (spec_serviceName sp) (spec_template sp)))
                   (sts_status statefulSet)).
  assert (Hdown : withReplicas 0 statefulSet = Some halted)
    by (unfold withReplicas; now rewrite Hsp, Hone).
  assert (Hup : withReplicas 1 halted = Some statefulSet).
  { unfold withReplicas, halted. cbn. f_equal.
    destruct statefulSet as [meta spec0 st]. cbn in *. subst spec0.
    destruct sp as [r sn tpl]. cbn in *. now subst r. }
  destruct (stopSandbox_scales_down isK8sNotFound env w namespace sandboxName
              statefulSet halted Hfree Hstore) as [Hstop Hcl]; [|exact Hdown|].
  { unfold declaredReplicas. rewrite Hsp. cbn. rewrite Hone. discriminate. }
  fold stop in Hstop, Hcl.
  assert (Hstored : statefulSets (cluster (snd stop)) !! (namespace, sandboxName)
                    = Some halted).
  { rewrite Hcl. unfold setStatefulSets. cbn [statefulSets]. apply lookup_insert_eq. }
  destruct (startSandbox_scales_up isK8sNotFound env (snd stop) namespace sandboxName
              halted statefulSet Hfree Hstored) as [Hstart Hcl2]; [|exact Hup|].
  { unfold declaredReplicas, halted. cbn. lia. }
  fold start in Hstart, Hcl2.
  split; [exact Hstop|]. split; [exists halted; split; [exact Hstored|reflexivity]|].
  split; [exact Hstart|].
  rewrite Hcl2, Hcl. unfold setStatefulSets.
  cbn [statefulSets services ingresses persistentVolumeClaims].
  rewrite insert_insert_eq, insert_id by exact Hstore.
  now destruct (cluster w).
Qed.

Lemma stop_then_start_restores_witness :
  let stop := stopSandbox statusIs404 "ns1" "acme-x1" calmEnv
                (freshWorld (clusterWith oneReplica)) in
  cluster (snd (startSandbox statusIs404 "ns1" "acme-x1" calmEnv (snd stop)))
  = clusterWith oneReplica.
Proof.
  intros stop.
  refine (proj2 (proj2 (proj2 (stop_then_start_restores statusIs404 calmEnv
            (freshWorld (clusterWith oneReplica)) "ns1" "acme-x1" oneReplica _ _ _)))).
  - intros c. reflexivity.
  - vm_compute. reflexivity.
  - reflexivity.
Defined.


Lemma getStatefulSetStatus_stored isK8sNotFound sandboxName namespace env w :
  fault env (ReadStatefulSet sandboxName namespace) = None →
  fst (getStatefulSetStatus isK8sNotFound sandboxName namespace env w)
  = match statefulSets (cluster w) !! (namespace, sandboxName) with
    | None =>
        if isK8sNotFound (apiError env 404)
        then Resolved (mkDetail TERMINATED 0 0 0 0 None None false)
        else match statusCodeReadThrows (apiError env 404) with
             | Some typeError => Rejected typeError
             | None =>
                 Resolved (mkDetail
                             (if responseStatusIs 404 (apiError env 404)
                              then TERMINATED else ERROR) 0 0 0 0 None None false)
             end
    | Some s =>
        let ready :=
          (0 <? declaredReplicas s)
          && (observed status_replicas s =? declaredReplicas s)
          && (observed status_readyReplicas s =? declaredReplicas s)
          && (observed status_currentReplicas s =? declaredReplicas s)
          && (observed status_updatedReplicas s =? declaredReplicas s) in
        Resolved (mkDetail
                    (if declaredReplicas s =? 0
                     then (if 0 <? observed status_currentReplicas s
                           then STOPPING else STOPPED)
                     else (if ready then RUNNING else STARTING))
                    (declaredReplicas s)
                    (observed status_readyReplicas s)
                    (observed status_currentReplicas s)
                    (observed status_updatedReplicas s)
                    (sts_status s ≫= status_currentRevision)
                    (sts_status s ≫= status_updateRevision)
                    ready)
    end.
Proof.
  intros Hfault. unfold getStatefulSetStatus, ifResponseStatusIs.
  rewrite tryCatch_run, bind_run, getStatefulSet_run.
  unfold k8sAppsApi_readNamespacedStatefulSet. rewrite request_run, Hfault.
  destruct (statefulSets (cluster w) !! _) as [s|]; cbn [fst snd].
  - assert (Hu : unwrapResponse (respond env s) = s)
      by (unfold respond; now destruct (wrapsBody env)).
    rewrite Hu. reflexivity.
  - destruct (isK8sNotFound _); cbn; [reflexivity|].
    destruct (statusCodeReadThrows _); [reflexivity|].
    now destruct (responseStatusIs 404 _).
Qed.

Lemma stopSandbox_leaves_stopped isK8sNotFound env w namespace sandboxName :
  fault env (ReadStatefulSet sandboxName namespace) = None →
  fst (stopSandbox isK8sNotFound namespace sandboxName env w) = Resolved tt →
  match statefulSets (cluster (snd (stopSandbox isK8sNotFound namespace sandboxName env w)))
          !! (namespace, sandboxName) with
  | Some stored => declaredReplicas stored = 0
  | None => isK8sNotFound (apiError env 404) = true
  end.
Proof.
  intros Hfault. rewrite stopSandbox_spec, Hfault. cbv zeta.
  destruct (statefulSets (cluster w) !! (namespace, sandboxName))
    as [current|] eqn:Hstore.
  - destruct (declaredReplicas current =? 0) eqn:Hd.
    + intros _. cbn [snd cluster]. rewrite Hstore. now apply Z.eqb_eq.
    + unfold stopPatch. rewrite patchReplicas_run. cbv zeta.
      destruct (fault env (PatchStatefulSet _ _ _)); [discriminate|].
      cbn [cluster]. rewrite Hstore.
      destruct (withReplicas 0 current) as [s0|] eqn:Hs0; [|discriminate].
      intros _. cbn [snd cluster]. unfold setStatefulSets. cbn [statefulSets].
      rewrite lookup_insert_eq. apply withReplicas_same in Hs0.
      unfold declaredReplicas. now rewrite (proj2 Hs0).
  - destruct (isK8sNotFound _) eqn:Hnf; [|discriminate].
    intros _. cbn [snd cluster]. now rewrite Hstore.
Qed.

Lemma startSandbox_leaves_started isK8sNotFound env w namespace sandboxName :
  fault env (ReadStatefulSet sandboxName namespace) = None →
  fst (startSandbox isK8sNotFound namespace sandboxName env w) = Resolved tt →
  match statefulSets (cluster (snd (startSandbox isK8sNotFound namespace sandboxName env w)))
          !! (namespace, sandboxName) with
  | Some stored => 1 ≤ declaredReplicas stored
  | None => isK8sNotFound (apiError env 404) = true
  end.
Proof.
  intros Hfault. rewrite startSandbox_spec, Hfault. cbv zeta.
  destruct (statefulSets (cluster w) !! (namespace, sandboxName))
    as [current|] eqn:Hstore.
  - destruct (1 <=? declaredReplicas current) eqn:Hd.
    + intros _. cbn [snd cluster]. rewrite Hstore. now apply Z.leb_le.
    + unfold startPatch. rewrite patchReplicas_run. cbv zeta.
      destruct (fault env (PatchStatefulSet _ _ _)); [discriminate|].
      cbn [cluster]. rewrite Hstore.
      destruct (withReplicas 1 current) as [s1|] eqn:Hs1; [|discriminate].
      intros _. cbn [snd cluster]. unfold setStatefulSets. cbn [statefulSets].
      rewrite lookup_insert_eq. apply withReplicas_same in Hs1.
      unfold declaredReplicas. rewrite (proj2 Hs1). cbn. lia.
  - destruct (isK8sNotFound _) eqn:Hnf; [|discriminate].
    intros _. cbn [snd cluster]. now rewrite Hstore.
Qed.

(** X4. The status follows the scaling.  After a [stopSandbox] that saw the
    cluster and resolved, [getSandboxStatus] is STOPPING, STOPPED or (for a
    workload that is not there) TERMINATED; after such a [startSandbox] it
    is STARTING, RUNNING or TERMINATED. *)
Theorem status_follows_scaling isK8sNotFound env w namespace sandboxName :
  fault env (ReadStatefulSet sandboxName namespace) = None →
  let stop := stopSandbox isK8sNotFound namespace sandboxName env w in
  let start := startSandbox isK8sNotFound namespace sandboxName env w in
  (fst stop = Resolved tt →
   ∃ st, fst (getSandboxStatus isK8sNotFound namespace sandboxName env (snd stop))
         = Resolved st
         ∧ (st = STOPPING ∨ st = STOPPED ∨ st = TERMINATED))
  ∧ (fst start = Resolved tt →
     ∃ st, fst (getSandboxStatus isK8sNotFound namespace sandboxName env (snd start))
           = Resolved st
           ∧ (st = STARTING ∨ st = RUNNING ∨ st = TERMINATED)).
Proof.
  intros Hfault stop start.
  assert (Hstatus : ∀ w0,
            fst (getSandboxStatus isK8sNotFound namespace sandboxName env w0)
            = match fst (getStatefulSetStatus isK8sNotFound sandboxName namespace env w0) with
              | Resolved detail => Resolved (status detail)
              | Rejected e => Rejected e
              end).
  { intros w0. unfold getSandboxStatus. rewrite bind_run.
    now destruct (getStatefulSetStatus _ _ _ env w0) as [[detail|e] w1]. }
  split; intros Hres.
  - pose proof (stopSandbox_leaves_stopped _ _ _ _ _ Hfault Hres) as Hstored.
    fold stop in Hstored.
    rewrite Hstatus, (getStatefulSetStatus_stored _ _ _ _ _ Hfault).
    destruct (statefulSets (cluster (snd stop)) !! _) as [stored|].
    + cbv zeta. rewrite Hstored. cbn [Z.eqb status].
      eexists. split; [reflexivity|].
      destruct (0 <? observed status_currentReplicas stored); auto.
    + rewrite Hstored. cbn [status].
      eexists. split; [reflexivity|]. auto.
  - pose proof (startSandbox_leaves_started _ _ _ _ _ Hfault Hres) as Hstored.
    fold start in Hstored.
    rewrite Hstatus, (getStatefulSetStatus_stored _ _ _ _ _ Hfault).
    destruct (statefulSets (cluster (snd start)) !! _) as [stored|].
    + cbv zeta. assert ((declaredReplicas stored =? 0) = false) as ->
        by (apply Z.eqb_neq; lia).
      cbn [status]. eexists. split; [reflexivity|].
      match goal with |- context [if ?b then RUNNING else STARTING] =>
        destruct b end; auto.
    + rewrite Hstored. cbn [status].
      eexists. split; [reflexivity|]. auto.
Qed.

Lemma status_follows_scaling_witness :
  fst (getSandboxStatus statusIs404 "ns1" "acme-x1" calmEnv
         (snd (stopSandbox statusIs404 "ns1" "acme-x1" calmEnv
                 (freshWorld (clusterWith oneReplica)))))
  = Resolved STOPPING.
Proof.
  destruct (proj1 (status_follows_scaling statusIs404 calmEnv
                     (freshWorld (clusterWith oneReplica)) "ns1" "acme-x1" eq_refl))
    as (st & Hst & _); [vm_compute; reflexivity|].
  rewrite Hst. vm_compute in Hst. now injection Hst as <-.
Defined.

(** ** Probing and killing by port *)

(** X5. [isPortListening] never rejects.  It settles when the exec channel
    runs the status callback, whatever the status, and then answers [true]
    exactly when stdout, each chunk decoded on its own and the texts put
    together, is the word [listening] once trimmed.  When the callback
    never runs (the connection fails: [Exec.exec] is [async] and the promise
    it returns is dropped), the call stays pending; the [false] of the
    [catch] block is not returned. *)
Theorem isPortListening_answers Buffer_toString env w namespace sandboxName port :
  let behaviour :=
    execChannel env namespace (sandboxName +:+ "-0") sandboxName
      ["bash"; "-c"; portProbeScript port] in
  let run := isPortListening Buffer_toString namespace sandboxName port env w in
  (∀ out err st message,
     behaviour = ExecStatus out err st message →
     ∃ answer,
       run = Settled (Resolved answer) w
       ∧ (answer = true ↔ trim (collectChunks Buffer_toString out) = "listening"))
  ∧ (behaviour = ExecNoCallback → run = Pending)
  ∧ (∀ e w1, run ≠ Settled (Rejected e) w1).
Proof.
  intros behaviour run. subst behaviour run. unfold isPortListening.
  rewrite tryCatchP_run, bindP_run. unfold execIgnoringStatus.
  destruct (execChannel env _ _ _ _) as [out err st message|].
  - rewrite retP_run. split; [|split; [discriminate|discriminate]].
    intros out' err' st' message' [= <- <- <- <-].
    eexists. split; [reflexivity|]. apply String.eqb_eq.
  - split; [discriminate|]. split; [reflexivity|discriminate].
Qed.

(** The word arrives in two chunks. *)
Example isPortListening_two_chunks :
  isPortListening asciiText "ns1" "acme-x1" 3000
    (mkEnv (fun _ => None) (fun _ => 1%nat) httpError false
       (fun _ _ _ _ => ExecStatus ["listen"; "ing" +:+ newline] [] (Some "Failure") None)
       0)
    (freshWorld emptyCluster)
  = Settled (Resolved true) (freshWorld emptyCluster).
Proof. reflexivity. Qed.

Example isPortListening_failed_connection :
  isPortListening asciiText "ns1" "acme-x1" 3000 deadChannelEnv (freshWorld emptyCluster)
  = Pending.
Proof. reflexivity. Qed.

(** X6. [killProcessOnPort] never rejects.  It settles when the exec
    channel runs the status callback, whatever the status: with success
    when the trimmed stdout starts with [killed] or is [no process]
    (nothing to kill is success), and with the error [Failed to kill
    process] for any other output.  When the callback never runs (a failed
    connection), the call stays pending and the error of the [catch] block
    is not returned. *)
Theorem killProcessOnPort_outcomes Buffer_toString env w namespace sandboxName port :
  let behaviour :=
    execChannel env namespace (sandboxName +:+ "-0") sandboxName
      ["bash"; "-c"; portKillScript port] in
  let run := killProcessOnPort Buffer_toString namespace sandboxName port env w in
  (∀ out err st message,
     behaviour = ExecStatus out err st message →
     let output := trim (collectChunks Buffer_toString out) in
     (String.prefix "killed" output = true ∨ output = "no process" →
        run = Settled (Resolved (mkKillResult true None)) w)
     ∧ (String.prefix "killed" output = false → output ≠ "no process" →
        run = Settled (Resolved (mkKillResult false (Some "Failed to kill process")))
                w))
  ∧ (behaviour = ExecNoCallback → run = Pending)
  ∧ (∀ e w1, run ≠ Settled (Rejected e) w1).
Proof.
  intros behaviour run. subst behaviour run. unfold killProcessOnPort.
  rewrite tryCatchP_run, bindP_run. unfold execIgnoringStatus.
  destruct (execChannel env _ _ _ _) as [out err st message|].
  - destruct (String.prefix "killed" (trim (collectChunks Buffer_toString out)))
      eqn:Hkilled.
    + rewrite retP_run. split; [|split; [discriminate|discriminate]].
      intros out' err' st' message' [= <- <- <- <-]. cbv zeta. rewrite Hkilled.
      split; [reflexivity|discriminate].
    + destruct (String.eqb_spec (trim (collectChunks Buffer_toString out))
                  "no process") as [Hno|Hno];
        rewrite retP_run; (split; [|split; [discriminate|discriminate]]);
        intros out' err' st' message' [= <- <- <- <-]; cbv zeta; rewrite Hkilled.
      * split; [reflexivity|]. intros _ Hne. contradiction.
      * split; [|reflexivity]. intros [Hk|Hn]; [discriminate|contradiction].
  - split; [discriminate|]. split; [reflexivity|discriminate].
Qed.

Example killProcessOnPort_no_listener :
  killProcessOnPort asciiText "ns1" "acme-x1" 3000
    (mkEnv (fun _ => None) (fun _ => 1%nat) httpError false
       (fun _ _ _ _ => ExecStatus ["no process"; newline] [] (Some "Success") None) 0)
    (freshWorld emptyCluster)
  = Settled (Resolved (mkKillResult true None)) (freshWorld emptyCluster).
Proof. reflexivity. Qed.

Example portKillScript_sample :
  portKillScript 3000
  = "pid=$(netstat -tulnp 2>/dev/null | grep ':3000 ' | awk '{print $7}' | cut -d'/' -f1 | head -1)"
    +:+ newline
    +:+ "if [ -n " +:+ doubleQuote +:+ "$pid" +:+ doubleQuote +:+ " ] && [ "
    +:+ doubleQuote +:+ "$pid" +:+ doubleQuote +:+ " != " +:+ doubleQuote +:+ "-"
    +:+ doubleQuote +:+ " ]; then" +:+ newline
    +:+ "  kill $pid 2>/dev/null && echo " +:+ doubleQuote +:+ "killed $pid" +:+ doubleQuote
    +:+ " || echo " +:+ doubleQuote +:+ "failed" +:+ doubleQuote +:+ newline
    +:+ "else" +:+ newline
    +:+ "  echo " +:+ doubleQuote +:+ "no process" +:+ doubleQuote +:+ newline
    +:+ "fi".
Proof. reflexivity. Qed.


(** ** Creating: what is added and what is kept *)

Lemma keeps_refl cl : keeps cl cl.
Proof. unfold keeps. auto. Qed.

Lemma keeps_trans a b c : keeps a b → keeps b c → keeps a c.
Proof.
  unfold keeps. intros (H1 & H2 & H3 & H4) (G1 & G2 & G3 & G4).
  repeat split; eauto. congruence.
Qed.

Lemma additive_ret {A} (a : A) : additive (mret a : M A).
Proof. intros env w. apply keeps_refl. Qed.

Lemma additive_throw {A} e : additive (throw e : M A).
Proof. intros env w. apply keeps_refl. Qed.

Lemma additive_bind {A B} (m : M A) (k : A → M B) :
  additive m → (∀ a, additive (k a)) → additive (m ≫= k).
Proof.
  intros Hm Hk env w. rewrite bind_run. specialize (Hm env w).
  destruct (m env w) as [[a|e] w1]; [|exact Hm].
  eapply keeps_trans; [exact Hm|apply Hk].
Qed.

Lemma additive_tryCatch {A} (body : M A) handler :
  additive body → (∀ e, additive (handler e)) → additive (tryCatch body handler).
Proof.
  intros Hb Hh env w. rewrite tryCatch_run. specialize (Hb env w).
  destruct (body env w) as [[a|e] w1]; [exact Hb|].
  eapply keeps_trans; [exact Hb|apply Hh].
Qed.

Lemma additive_ifResponseStatusIs {A} n e (yes no : M A) :
  additive yes → additive no → additive (ifResponseStatusIs n e yes no).
Proof.
  intros Hyes Hno. unfold ifResponseStatusIs.
  destruct (statusCodeReadThrows e); [apply additive_throw|].
  now destruct (responseStatusIs n e).
Qed.

Lemma additive_ifResponseStatusIsNot {A} n e (yes no : M A) :
  additive yes → additive no → additive (ifResponseStatusIsNot n e yes no).
Proof.
  intros Hyes Hno. unfold ifResponseStatusIsNot.
  destruct (statusCodeReadThrows e); [apply additive_throw|].
  now destruct (responseStatusIsNot n e).
Qed.

Lemma additive_request {A} c (serve : Env → Cluster → Outcome A * Cluster) :
  (∀ env cl, keeps cl (snd (serve env cl))) → additive (request c serve).
Proof.
  intros Hs env w. rewrite request_run.
  destruct (fault env c); [apply keeps_refl|apply Hs].
Qed.

Lemma startAll_keeps {A} (ps : list (M A)) t0 env w :
  Forall additive ps → keeps (cluster w) (cluster (snd (startAll ps t0 env w))).
Proof.
  intros Hps. revert w. induction Hps as [|p ps Hp _ IH]; intros w; cbn [startAll].
  - apply keeps_refl.
  - specialize (Hp env (mkWorld (cluster w) (calls w) t0)).
    destruct (p env _) as [o w1]. specialize (IH w1).
    destruct (startAll ps t0 env w1) as [os w2]. cbn [snd] in *.
    eapply keeps_trans; [exact Hp|exact IH].
Qed.

Lemma additive_Promise_all {A} (ps : list (M A)) :
  Forall additive ps → additive (Promise_all ps).
Proof.
  intros Hps env w. rewrite (proj1 (Promise_all_run ps env w)).
  now apply startAll_keeps.
Qed.

Lemma additive_reads :
  (∀ n ns, additive (k8sAppsApi_readNamespacedStatefulSet n ns))
  ∧ (∀ n ns, additive (k8sApi_readNamespacedService n ns))
  ∧ (∀ n ns, additive (k8sNetworkingApi_readNamespacedIngress n ns)).
Proof.
  split; [|split]; intros n ns; apply additive_request; intros env cl.
  - destruct (statefulSets cl !! _); apply keeps_refl.
  - destruct (services cl !! _); apply keeps_refl.
  - destruct (ingresses cl !! _); apply keeps_refl.
Qed.

Lemma additive_creates :
  (∀ ns body, additive (k8sAppsApi_createNamespacedStatefulSet ns body))
  ∧ (∀ ns body, additive (k8sApi_createNamespacedService ns body))
  ∧ (∀ ns body, additive (k8sNetworkingApi_createNamespacedIngress ns body)).
Proof.
  split; [|split]; intros ns body; apply additive_request; intros env cl; cbv zeta.
  - destruct (statefulSets cl !! _) eqn:Hk; [apply keeps_refl|].
    cbn [snd]. unfold keeps, setStatefulSets. cbn. repeat split; auto.
    intros key s Hs. rewrite lookup_insert_ne; [exact Hs|congruence].
  - destruct (services cl !! _) eqn:Hk; [apply keeps_refl|].
    cbn [snd]. unfold keeps, setServices. cbn. repeat split; auto.
    intros key s Hs. rewrite lookup_insert_ne; [exact Hs|congruence].
  - destruct (ingresses cl !! _) eqn:Hk; [apply keeps_refl|].
    cbn [snd]. unfold keeps, setIngresses. cbn. repeat split; auto.
    intros key s Hs. rewrite lookup_insert_ne; [exact Hs|congruence].
Qed.

Lemma additive_getStatefulSet isK8sNotFound sandboxName namespace :
  additive (getStatefulSet isK8sNotFound sandboxName namespace).
Proof.
  intros env w. rewrite getStatefulSet_world. apply keeps_refl.
Qed.

Lemma additive_createStatefulSet isK8sNotFound RUNTIME_IMAGE
    sandboxName k8sProjectName namespace containerEnv :
  additive (createStatefulSet isK8sNotFound RUNTIME_IMAGE
              sandboxName k8sProjectName namespace containerEnv).
Proof.
  unfold createStatefulSet. apply additive_bind; [apply additive_getStatefulSet|].
  intros [existing|]; [apply additive_ret|].
  apply additive_tryCatch; [apply additive_creates|].
  intros e. apply additive_ifResponseStatusIs; [apply additive_ret|apply additive_throw].
Qed.

Lemma additive_createService sandboxName k8sProjectName namespace :
  additive (createService sandboxName k8sProjectName namespace).
Proof.
  unfold createService. apply additive_bind.
  - apply additive_tryCatch.
    + apply additive_bind; [apply additive_reads|intros; apply additive_ret].
    + intros e. apply additive_ifResponseStatusIsNot;
        [apply additive_throw|apply additive_ret].
  - intros [|]; [apply additive_ret|apply additive_creates].
Qed.

Lemma additive_createIngressIfNotExists isK8sNotFound ingressName namespace ingress :
  additive (createIngressIfNotExists isK8sNotFound ingressName namespace ingress).
Proof.
  unfold createIngressIfNotExists. apply additive_tryCatch.
  - apply additive_bind; [apply additive_reads|intros; apply additive_ret].
  - intros e. destruct (isK8sNotFound e); [apply additive_creates|apply additive_throw].
Qed.

Lemma additive_createIngresses isK8sNotFound
    sandboxName k8sProjectName namespace serviceName ingressDomain :
  additive (createIngresses isK8sNotFound
              sandboxName k8sProjectName namespace serviceName ingressDomain).
Proof.
  unfold createIngresses. apply additive_bind; [|intros; apply additive_ret].
  apply additive_Promise_all.
  repeat constructor; apply additive_createIngressIfNotExists.
Qed.

(** X7. [createSandbox] never removes or overwrites: whatever the cluster
    answers and however the call ends, every workload, service and route
    that was in the store is still there unchanged, and the storage claims
    are the same.  (In particular nothing is rolled back when a later step
    fails.) *)
Theorem createSandbox_additive isK8sNotFound toK8sProjectName RUNTIME_IMAGE
    projectName namespace ingressDomain sandboxName envVars env w :
  keeps (cluster w)
    (cluster (snd (createSandbox isK8sNotFound toK8sProjectName RUNTIME_IMAGE
                     projectName namespace ingressDomain sandboxName envVars env w))).
Proof.
  revert env w. change (additive (createSandbox isK8sNotFound toK8sProjectName
    RUNTIME_IMAGE projectName namespace ingressDomain sandboxName envVars)).
  unfold createSandbox.
  apply additive_bind; [apply additive_createStatefulSet|intros _].
  apply additive_bind; [apply additive_createService|intros _].
  apply additive_bind; [apply additive_createIngresses|intros _].
  apply additive_ret.
Qed.

(** The workload stays behind when the service cannot be created. *)
Example createSandbox_no_rollback :
  let env := mkEnv (fun c => match c with
                             | CreateService _ _ => Some (httpError 500)
                             | _ => None
                             end)
                   (fun _ => 1%nat) httpError false quietChannel 0 in
  let run := createSandbox statusIs404 projectLabel "runtime:latest"
               "proj" "ns1" "usw.example.io" "acme-x1" [] env (freshWorld emptyCluster) in
  fst run = Rejected (httpError 500)
  ∧ is_Some (statefulSets (cluster (snd run)) !! ("ns1", "acme-x1")).
Proof. vm_compute. split; [reflexivity|eexists; reflexivity]. Qed.


(** ** Creating against a cluster that answers *)

Lemma runs_bind {A B} (m : M A) (k : A → M B) env w a cl1 l1 o cl2 l2 :
  runs m env w (Resolved a) cl1 l1 →
  (∀ w1, cluster w1 = cl1 → runs (k a) env w1 o cl2 l2) →
  runs (m ≫= k) env w o cl2 (l1 ++ l2).
Proof.
  unfold runs. intros (Ho & Hc & Hl) Hk. rewrite bind_run.
  destruct (m env w) as [o1 w1]. cbn [fst snd] in *. subst o1.
  destruct (Hk w1 Hc) as (Ho2 & Hc2 & Hl2).
  repeat split; auto. now rewrite Hl2, Hl, app_assoc.
Qed.

Lemma runs_ret {A} (a : A) env w : runs (mret a : M A) env w (Resolved a) (cluster w) [].
Proof. unfold runs. rewrite ret_run. cbn. now rewrite app_nil_r. Qed.

Lemma createStatefulSet_healthy isK8sNotFound RUNTIME_IMAGE
    sandboxName k8sProjectName namespace containerEnv env w :
  faultFree env → tells404 isK8sNotFound env →
  runs (createStatefulSet isK8sNotFound RUNTIME_IMAGE
          sandboxName k8sProjectName namespace containerEnv) env w
    (Resolved tt)
    (ensureStatefulSet namespace
       (statefulSetBody RUNTIME_IMAGE sandboxName k8sProjectName namespace containerEnv)
       (cluster w))
    (ReadStatefulSet sandboxName namespace ::
     match statefulSets (cluster w) !! (namespace, sandboxName) with
     | Some _ => []
     | None =>
         [CreateStatefulSet namespace
            (statefulSetBody RUNTIME_IMAGE sandboxName k8sProjectName namespace
               containerEnv)]
     end).
Proof.
  intros Hff [Hnf _]. unfold runs, createStatefulSet, ensureStatefulSet.
  rewrite bind_run, getStatefulSet_run.
  unfold k8sAppsApi_readNamespacedStatefulSet. rewrite request_run, Hff.
  cbn [statefulSetBody sts_metadata meta_name].
  destruct (statefulSets (cluster w) !! _) eqn:Hstore; cbn [fst snd].
  - rewrite ret_run. cbn. auto.
  - rewrite Hnf, tryCatch_run.
    unfold k8sAppsApi_createNamespacedStatefulSet. rewrite request_run, Hff.
    cbn [sts_metadata meta_name cluster]. rewrite Hstore. cbn.
    repeat split. now rewrite <- app_assoc.
Qed.

Lemma createService_healthy sandboxName k8sProjectName namespace
    (isK8sNotFound : JsError → bool) env w :
  faultFree env → tells404 isK8sNotFound env →
  runs (createService sandboxName k8sProjectName namespace) env w
    (Resolved tt)
    (ensureService namespace (serviceBody sandboxName k8sProjectName namespace)
       (cluster w))
    (ReadService (getServiceName sandboxName) namespace ::
     match services (cluster w) !! (namespace, getServiceName sandboxName) with
     | Some _ => []
     | None =>
         [CreateService namespace (serviceBody sandboxName k8sProjectName namespace)]
     end).
Proof.
  intros Hff (_ & Hnot & Hread). unfold runs, createService, ensureService.
  cbv zeta. rewrite bind_run, tryCatch_run, bind_run.
  unfold k8sApi_readNamespacedService. rewrite request_run, Hff.
  cbn [serviceBody svc_metadata meta_name].
  destruct (services (cluster w) !! _) eqn:Hstore; cbn [fst snd].
  - rewrite !ret_run. cbn. auto.
  - unfold ifResponseStatusIsNot. rewrite Hread, Hnot, ret_run.
    unfold k8sApi_createNamespacedService. rewrite request_run, Hff.
    cbn [svc_metadata meta_name cluster]. rewrite Hstore. cbn.
    repeat split. now rewrite <- app_assoc.
Qed.

Lemma createIngressIfNotExists_healthy isK8sNotFound namespace ingress env w :
  faultFree env → tells404 isK8sNotFound env →
  runs (createIngressIfNotExists isK8sNotFound
          (meta_name (ing_metadata ingress)) namespace ingress) env w
    (Resolved tt)
    (ensureIngress namespace ingress (cluster w))
    (ReadIngress (meta_name (ing_metadata ingress)) namespace ::
     match ingresses (cluster w) !! (namespace, meta_name (ing_metadata ingress)) with
     | Some _ => []
     | None => [CreateIngress namespace ingress]
     end).
Proof.
  intros Hff [Hnf _]. unfold runs, createIngressIfNotExists, ensureIngress.
  rewrite tryCatch_run, bind_run.
  unfold k8sNetworkingApi_readNamespacedIngress. rewrite request_run, Hff.
  destruct (ingresses (cluster w) !! _) eqn:Hstore; cbn [fst snd].
  - rewrite ret_run. cbn. auto.
  - rewrite Hnf.
    unfold k8sNetworkingApi_createNamespacedIngress. rewrite request_run, Hff.
    cbn [cluster]. rewrite Hstore. cbn.
    repeat split. now rewrite <- app_assoc.
Qed.

Lemma createIngresses_healthy isK8sNotFound
    sandboxName k8sProjectName namespace serviceName ingressDomain env w :
  faultFree env → tells404 isK8sNotFound env →
  let appIngress :=
    createAppIngress sandboxName k8sProjectName namespace serviceName ingressDomain in
  let ttydIngress :=
    createTtydIngress sandboxName k8sProjectName namespace serviceName ingressDomain in
  let fileBrowserIngress :=
    createFileBrowserIngress sandboxName k8sProjectName namespace serviceName
      ingressDomain in
  let cl1 := ensureIngress namespace appIngress (cluster w) in
  let cl2 := ensureIngress namespace ttydIngress cl1 in
  runs (createIngresses isK8sNotFound
          sandboxName k8sProjectName namespace serviceName ingressDomain) env w
    (Resolved tt)
    (ensureIngress namespace fileBrowserIngress cl2)
    ((ReadIngress (getAppIngressName sandboxName) namespace ::
      match ingresses (cluster w) !! (namespace, getAppIngressName sandboxName) with
      | Some _ => []
      | None => [CreateIngress namespace appIngress]
      end)
     ++ (ReadIngress (getTtydIngressName sandboxName) namespace ::
         match ingresses cl1 !! (namespace, getTtydIngressName sandboxName) with
         | Some _ => []
         | None => [CreateIngress namespace ttydIngress]
         end)
     ++ (ReadIngress (getFileBrowserIngressName sandboxName) namespace ::
         match ingresses cl2 !! (namespace, getFileBrowserIngressName sandboxName) with
         | Some _ => []
         | None => [CreateIngress namespace fileBrowserIngress]
         end)).
Proof.
  intros Hff H404 appIngress ttydIngress fileBrowserIngress cl1 cl2.
  unfold runs, createIngresses. cbv zeta. rewrite bind_run.
  fold appIngress ttydIngress fileBrowserIngress.
  set (branches := [_; _; _]).
  destruct (Promise_all_run branches env w) as (Hcl & Hlog & Hout).
  destruct (Promise_all branches env w) as [o wp]. cbn [fst snd] in *.
  revert Hcl Hlog Hout. subst branches. cbn [startAll].
  change (getAppIngressName sandboxName)
    with (meta_name (ing_metadata appIngress)).
  change (getTtydIngressName sandboxName)
    with (meta_name (ing_metadata ttydIngress)).
  change (getFileBrowserIngressName sandboxName)
    with (meta_name (ing_metadata fileBrowserIngress)).
  destruct (createIngressIfNotExists_healthy isK8sNotFound namespace appIngress env
              (mkWorld (cluster w) (calls w) (now w)) Hff H404) as (Ho1 & Hc1 & Hl1).
  destruct (createIngressIfNotExists _ _ _ appIngress env _) as [o1 w1].
  destruct (createIngressIfNotExists_healthy isK8sNotFound namespace ttydIngress env
              (mkWorld (cluster w1) (calls w1) (now w)) Hff H404) as (Ho2 & Hc2 & Hl2).
  destruct (createIngressIfNotExists _ _ _ ttydIngress env _) as [o2 w2].
  destruct (createIngressIfNotExists_healthy isK8sNotFound namespace fileBrowserIngress
              env (mkWorld (cluster w2) (calls w2) (now w)) Hff H404)
    as (Ho3 & Hc3 & Hl3).
  destruct (createIngressIfNotExists _ _ _ fileBrowserIngress env _) as [o3 w3].
  cbn [fst snd cluster calls] in *. subst o1 o2 o3.
  intros Hcl Hlog Hout. destruct o as [settled|e].
  - rewrite ret_run. cbn [fst snd].
    split; [reflexivity|]. split; [subst cl1 cl2; congruence|].
    rewrite Hlog, Hl3, Hl2, Hl1, Hc2, Hc1. subst cl1 cl2. now rewrite <- !app_assoc.
  - exfalso. destruct Hout as [t Hin]. cbn in Hin.
    destruct Hin as [|[|[|[]]]]; congruence.
Qed.


Lemma ensureStatefulSet_keeps namespace body cl :
  keeps cl (ensureStatefulSet namespace body cl).
Proof.
  unfold ensureStatefulSet.
  destruct (statefulSets cl !! _) eqn:Hk; [apply keeps_refl|].
  unfold keeps, setStatefulSets. cbn. repeat split; auto.
  intros key s Hs. rewrite lookup_insert_ne; [exact Hs|congruence].
Qed.

Lemma ensureService_keeps namespace body cl :
  keeps cl (ensureService namespace body cl).
Proof.
  unfold ensureService.
  destruct (services cl !! _) eqn:Hk; [apply keeps_refl|].
  unfold keeps, setServices. cbn. repeat split; auto.
  intros key s Hs. rewrite lookup_insert_ne; [exact Hs|congruence].
Qed.

Lemma ensureIngress_keeps namespace body cl :
  keeps cl (ensureIngress namespace body cl).
Proof.
  unfold ensureIngress.
  destruct (ingresses cl !! _) eqn:Hk; [apply keeps_refl|].
  unfold keeps, setIngresses. cbn. repeat split; auto.
  intros key s Hs. rewrite lookup_insert_ne; [exact Hs|congruence].
Qed.

Lemma ensureStatefulSet_lookup namespace body cl :
  statefulSets (ensureStatefulSet namespace body cl)
    !! (namespace, meta_name (sts_metadata body))
  = Some (default body (statefulSets cl !! (namespace, meta_name (sts_metadata body))))
  ∧ services (ensureStatefulSet namespace body cl) = services cl
  ∧ ingresses (ensureStatefulSet namespace body cl) = ingresses cl
  ∧ persistentVolumeClaims (ensureStatefulSet namespace body cl)
    = persistentVolumeClaims cl.
Proof.
  unfold ensureStatefulSet.
  destruct (statefulSets cl !! _) eqn:Hk; cbn; [auto|].
  now rewrite lookup_insert_eq.
Qed.

Lemma ensureService_lookup namespace body cl :
  services (ensureService namespace body cl)
    !! (namespace, meta_name (svc_metadata body))
  = Some (default body (services cl !! (namespace, meta_name (svc_metadata body))))
  ∧ statefulSets (ensureService namespace body cl) = statefulSets cl
  ∧ ingresses (ensureService namespace body cl) = ingresses cl
  ∧ persistentVolumeClaims (ensureService namespace body cl)
    = persistentVolumeClaims cl.
Proof.
  unfold ensureService.
  destruct (services cl !! _) eqn:Hk; cbn; [auto|].
  now rewrite lookup_insert_eq.
Qed.

Lemma ensureIngress_lookup namespace body cl :
  ingresses (ensureIngress namespace body cl)
    !! (namespace, meta_name (ing_metadata body))
  = Some (default body (ingresses cl !! (namespace, meta_name (ing_metadata body))))
  ∧ (∀ name, name ≠ meta_name (ing_metadata body) →
       ingresses (ensureIngress namespace body cl) !! (namespace, name)
       = ingresses cl !! (namespace, name))
  ∧ statefulSets (ensureIngress namespace body cl) = statefulSets cl
  ∧ services (ensureIngress namespace body cl) = services cl
  ∧ persistentVolumeClaims (ensureIngress namespace body cl)
    = persistentVolumeClaims cl.
Proof.
  unfold ensureIngress.
  destruct (ingresses cl !! _) eqn:Hk; cbn; [auto|].
  rewrite lookup_insert_eq. repeat split.
  intros name Hne. rewrite lookup_insert_ne; [reflexivity|congruence].
Qed.

Lemma ensureStatefulSet_present namespace body cl :
  is_Some (statefulSets cl !! (namespace, meta_name (sts_metadata body))) →
  ensureStatefulSet namespace body cl = cl.
Proof. unfold ensureStatefulSet. now intros [s ->]. Qed.

Lemma ensureService_present namespace body cl :
  is_Some (services cl !! (namespace, meta_name (svc_metadata body))) →
  ensureService namespace body cl = cl.
Proof. unfold ensureService. now intros [s ->]. Qed.

Lemma ensureIngress_present namespace body cl :
  is_Some (ingresses cl !! (namespace, meta_name (ing_metadata body))) →
  ensureIngress namespace body cl = cl.
Proof. unfold ensureIngress. now intros [s ->]. Qed.

(** The whole of [createSandbox] against a cluster that answers. *)
Lemma createSandbox_healthy isK8sNotFound toK8sProjectName RUNTIME_IMAGE
    projectName namespace ingressDomain sandboxName envVars env w :
  faultFree env → tells404 isK8sNotFound env →
  let run := createSandbox isK8sNotFound toK8sProjectName RUNTIME_IMAGE
               projectName namespace ingressDomain sandboxName envVars env w in
  (∃ info, fst run = Resolved info)
  ∧ cluster (snd run)
    = provisioned toK8sProjectName RUNTIME_IMAGE projectName namespace ingressDomain
        sandboxName envVars (cluster w)
  ∧ (allPresent namespace sandboxName (cluster w) →
     calls (snd run) = calls w ++ existenceChecks namespace sandboxName).
Proof.
  intros Hff H404 run. subst run. unfold createSandbox, provisioned. cbv zeta.
  set (k8sProjectName := toK8sProjectName projectName).
  set (containerEnv := obj_set "PROJECT_NAME" projectName (spreadInto [] envVars)).
  rewrite bind_run.
  destruct (createStatefulSet_healthy isK8sNotFound RUNTIME_IMAGE sandboxName
              k8sProjectName namespace containerEnv env w Hff H404) as (Ho1 & Hc1 & Hl1).
  destruct (createStatefulSet _ _ _ _ _ _ env w) as [o1 w1].
  cbn [fst snd] in Ho1, Hc1, Hl1. subst o1. rewrite bind_run.
  destruct (createService_healthy sandboxName k8sProjectName namespace
              isK8sNotFound env w1 Hff H404) as (Ho2 & Hc2 & Hl2).
  destruct (createService _ _ _ env w1) as [o2 w2].
  cbn [fst snd] in Ho2, Hc2, Hl2. subst o2. rewrite bind_run.
  destruct (createIngresses_healthy isK8sNotFound sandboxName k8sProjectName namespace
              (getServiceName sandboxName) ingressDomain env w2 Hff H404)
    as (Ho3 & Hc3 & Hl3).
  destruct (createIngresses _ _ _ _ _ _ env w2) as [o3 w3].
  cbn [fst snd] in Ho3, Hc3, Hl3. subst o3. rewrite ret_run. cbn [fst snd].
  split; [eauto|]. split; [now rewrite Hc3, Hc2, Hc1|].
  intros (Hsts & Hsvc & Happ & Httyd & Hfb).
  rewrite ensureStatefulSet_present in Hc1 by exact Hsts.
  rewrite Hc1, ensureService_present in Hc2 by exact Hsvc.
  rewrite Hc2 in Hl3.
  rewrite (ensureIngress_present _ (createAppIngress _ _ _ _ _)) in Hl3 by exact Happ.
  rewrite (ensureIngress_present _ (createTtydIngress _ _ _ _ _)) in Hl3
    by exact Httyd.
  rewrite Hl3, Hl2, Hl1, Hc1.
  destruct Hsts as [? ->], Hsvc as [? ->], Happ as [? ->], Httyd as [? ->],
    Hfb as [? ->].
  unfold existenceChecks. now rewrite <- !app_assoc.
Qed.

Lemma provisioned_allPresent toK8sProjectName RUNTIME_IMAGE
    projectName namespace ingressDomain sandboxName envVars cl :
  allPresent namespace sandboxName
    (provisioned toK8sProjectName RUNTIME_IMAGE projectName namespace ingressDomain
       sandboxName envVars cl).
Proof.
  unfold provisioned, allPresent. cbv zeta.
  set (sts := statefulSetBody _ _ _ _ _). set (svc := serviceBody _ _ _).
  set (app := createAppIngress _ _ _ _ _). set (ttyd := createTtydIngress _ _ _ _ _).
  set (fb := createFileBrowserIngress _ _ _ _ _).
  set (c1 := ensureStatefulSet namespace sts cl).
  set (c2 := ensureService namespace svc c1).
  set (c3 := ensureIngress namespace app c2).
  set (c4 := ensureIngress namespace ttyd c3).
  set (c5 := ensureIngress namespace fb c4).
  pose proof (ensureStatefulSet_lookup namespace sts cl) as (S1 & _).
  pose proof (ensureService_lookup namespace svc c1) as (S2 & _).
  pose proof (ensureIngress_lookup namespace app c2) as (S3 & _).
  pose proof (ensureIngress_lookup namespace ttyd c3) as (S4 & _).
  pose proof (ensureIngress_lookup namespace fb c4) as (S5 & _).
  pose proof (ensureService_keeps namespace svc c1) as (K2 & _).
  pose proof (ensureIngress_keeps namespace app c2) as (K3 & L3 & _).
  pose proof (ensureIngress_keeps namespace ttyd c3) as (K4 & L4 & M4 & _).
  pose proof (ensureIngress_keeps namespace fb c4) as (K5 & L5 & M5 & _).
  fold c1 in S1. fold c2 in S2. fold c3 in S3. fold c4 in S4. fold c5 in S5.
  fold c2 in K2. fold c3 in K3, L3. fold c4 in K4, L4, M4. fold c5 in K5, L5, M5.
  repeat split.
  - eexists. apply K5, K4, K3, K2. exact S1.
  - eexists. apply L5, L4, L3. exact S2.
  - eexists. apply M5, M4. exact S3.
  - eexists. apply M5. exact S4.
  - eexists. exact S5.
Qed.

(** X8. Against a cluster that answers every request and reports a missing
    object as not found, [createSandbox] resolves, and afterwards the
    workload, its service and the three routes of the sandbox are all in
    the store, whatever was there before. *)
Theorem createSandbox_provisions isK8sNotFound toK8sProjectName RUNTIME_IMAGE
    projectName namespace ingressDomain sandboxName envVars env w :
  faultFree env → tells404 isK8sNotFound env →
  let run := createSandbox isK8sNotFound toK8sProjectName RUNTIME_IMAGE
               projectName namespace ingressDomain sandboxName envVars env w in
  (∃ info, fst run = Resolved info)
  ∧ allPresent namespace sandboxName (cluster (snd run)).
Proof.
  intros Hff H404 run.
  destruct (createSandbox_healthy isK8sNotFound toK8sProjectName RUNTIME_IMAGE
              projectName namespace ingressDomain sandboxName envVars env w Hff H404)
    as (Hres & Hcl & _).
  split; [exact Hres|]. subst run. rewrite Hcl. apply provisioned_allPresent.
Qed.

Lemma createSandbox_provisions_witness :
  let run := createSandbox statusIs404 projectLabel "runtime:latest"
               "proj" "ns1" "usw.example.io" "acme-x1" tokenAbc
               calmEnv (freshWorld emptyCluster) in
  (∃ info, fst run = Resolved info)
  ∧ allPresent "ns1" "acme-x1" (cluster (snd run)).
Proof.
  apply (createSandbox_provisions statusIs404 projectLabel "runtime:latest"
           "proj" "ns1" "usw.example.io" "acme-x1" tokenAbc calmEnv
           (freshWorld emptyCluster)).
  - intros c. reflexivity.
  - repeat split; reflexivity.
Defined.

(** X9. [createSandbox] is idempotent against such a cluster: a second call
    with the same arguments resolves to the same [SandboxInfo], leaves
    the store as the first call left it, and sends only the five existence
    checks, no create request. *)
Theorem createSandbox_idempotent isK8sNotFound toK8sProjectName RUNTIME_IMAGE
    projectName namespace ingressDomain sandboxName envVars env w :
  faultFree env → tells404 isK8sNotFound env →
  let create := createSandbox isK8sNotFound toK8sProjectName RUNTIME_IMAGE
                  projectName namespace ingressDomain sandboxName envVars env in
  let first := create w in
  let second := create (snd first) in
  fst second = fst first
  ∧ cluster (snd second) = cluster (snd first)
  ∧ calls (snd second) = calls (snd first) ++ existenceChecks namespace sandboxName.
Proof.
  intros Hff H404 create first second.
  destruct (createSandbox_healthy isK8sNotFound toK8sProjectName RUNTIME_IMAGE
              projectName namespace ingressDomain sandboxName envVars env w Hff H404)
    as ([info1 Hres1] & Hcl1 & _).
  destruct (createSandbox_healthy isK8sNotFound toK8sProjectName RUNTIME_IMAGE
              projectName namespace ingressDomain sandboxName envVars env (snd first)
              Hff H404) as ([info2 Hres2] & Hcl2 & Hlog2).
  fold create in Hres1, Hcl1, Hres2, Hcl2, Hlog2.
  fold first in Hres1, Hcl1. fold second in Hres2, Hcl2, Hlog2.
  assert (allPresent namespace sandboxName (cluster (snd first))) as Hall.
  { rewrite Hcl1. apply provisioned_allPresent. }
  split; [|split; [|exact (Hlog2 Hall)]].
  - rewrite Hres1, Hres2. f_equal.
    destruct first as [o1 w1] eqn:E1, second as [o2 w2] eqn:E2.
    cbn [fst snd] in *. subst o1 o2.
    apply createSandbox_run in E1, E2. congruence.
  - rewrite Hcl2. destruct Hall as (Hsts & Hsvc & Happ & Httyd & Hfb).
    unfold provisioned. cbv zeta.
    rewrite ensureStatefulSet_present by exact Hsts.
    rewrite ensureService_present by exact Hsvc.
    rewrite (ensureIngress_present _ (createAppIngress _ _ _ _ _)) by exact Happ.
    rewrite (ensureIngress_present _ (createTtydIngress _ _ _ _ _)) by exact Httyd.
    now rewrite (ensureIngress_present _ (createFileBrowserIngress _ _ _ _ _))
      by exact Hfb.
Qed.

Lemma createSandbox_idempotent_witness :
  let create := createSandbox statusIs404 projectLabel "runtime:latest"
                  "proj" "ns1" "usw.example.io" "acme-x1" tokenAbc calmEnv in
  let first := create (freshWorld emptyCluster) in
  let second := create (snd first) in
  fst second = fst first
  ∧ cluster (snd second) = cluster (snd first)
  ∧ calls (snd second) = calls (snd first) ++ existenceChecks "ns1" "acme-x1".
Proof.
  apply (createSandbox_idempotent statusIs404 projectLabel "runtime:latest"
           "proj" "ns1" "usw.example.io" "acme-x1" tokenAbc calmEnv
           (freshWorld emptyCluster)).
  - intros c. reflexivity.
  - repeat split; reflexivity.
Defined.


(** ** What a fresh sandbox looks like *)

Lemma append_empty_r (a : string) : a +:+ "" = a.
Proof.
  induction a as [|c a IH]; [reflexivity|].
  change (String c a +:+ "") with (String c (a +:+ "")). now rewrite IH.
Qed.

(** The objects of [provisioned]: the stored one when there was one, the
    built one otherwise. *)
Lemma provisioned_lookup toK8sProjectName RUNTIME_IMAGE
    projectName namespace ingressDomain sandboxName envVars cl :
  let k8sProjectName := toK8sProjectName projectName in
  let serviceName := getServiceName sandboxName in
  let after := provisioned toK8sProjectName RUNTIME_IMAGE projectName namespace
                 ingressDomain sandboxName envVars cl in
  statefulSets after !! (namespace, sandboxName)
  = Some (default
            (statefulSetBody RUNTIME_IMAGE sandboxName k8sProjectName namespace
               (obj_set "PROJECT_NAME" projectName (spreadInto [] envVars)))
            (statefulSets cl !! (namespace, sandboxName)))
  ∧ services after !! (namespace, serviceName)
    = Some (default (serviceBody sandboxName k8sProjectName namespace)
              (services cl !! (namespace, serviceName)))
  ∧ ingresses after !! (namespace, getAppIngressName sandboxName)
    = Some (default
              (createAppIngress sandboxName k8sProjectName namespace serviceName
                 ingressDomain)
              (ingresses cl !! (namespace, getAppIngressName sandboxName)))
  ∧ ingresses after !! (namespace, getTtydIngressName sandboxName)
    = Some (default
              (createTtydIngress sandboxName k8sProjectName namespace serviceName
                 ingressDomain)
              (ingresses cl !! (namespace, getTtydIngressName sandboxName)))
  ∧ ingresses after !! (namespace, getFileBrowserIngressName sandboxName)
    = Some (default
              (createFileBrowserIngress sandboxName k8sProjectName namespace serviceName
                 ingressDomain)
              (ingresses cl !! (namespace, getFileBrowserIngressName sandboxName))).
Proof.
  intros k8sProjectName serviceName after. subst after. unfold provisioned. cbv zeta.
  fold k8sProjectName serviceName.
  set (sts := statefulSetBody _ _ _ _ _). set (svc := serviceBody _ _ _).
  set (app := createAppIngress _ _ _ _ _). set (ttyd := createTtydIngress _ _ _ _ _).
  set (fb := createFileBrowserIngress _ _ _ _ _).
  set (c1 := ensureStatefulSet namespace sts cl).
  set (c2 := ensureService namespace svc c1).
  set (c3 := ensureIngress namespace app c2).
  set (c4 := ensureIngress namespace ttyd c3).
  set (c5 := ensureIngress namespace fb c4).
  destruct (ingressNames_distinct sandboxName) as (Hat & Haf & Htf).
  pose proof (ensureStatefulSet_lookup namespace sts cl) as (S1 & S1s & S1i & _).
  pose proof (ensureService_lookup namespace svc c1) as (S2 & S2s & S2i & _).
  pose proof (ensureIngress_lookup namespace app c2) as (S3 & N3 & S3s & S3v & _).
  pose proof (ensureIngress_lookup namespace ttyd c3) as (S4 & N4 & S4s & S4v & _).
  pose proof (ensureIngress_lookup namespace fb c4) as (S5 & N5 & S5s & S5v & _).
  fold c1 in S1, S1s, S1i. fold c2 in S2, S2s, S2i. fold c3 in S3, N3, S3s, S3v.
  fold c4 in S4, N4, S4s, S4v. fold c5 in S5, N5, S5s, S5v.
  change (meta_name (sts_metadata sts)) with sandboxName in S1.
  change (meta_name (svc_metadata svc)) with serviceName in S2.
  change (meta_name (ing_metadata app)) with (getAppIngressName sandboxName) in S3, N3.
  change (meta_name (ing_metadata ttyd)) with (getTtydIngressName sandboxName) in S4, N4.
  change (meta_name (ing_metadata fb))
    with (getFileBrowserIngressName sandboxName) in S5, N5.
  repeat split.
  - now rewrite S5s, S4s, S3s, S2s.
  - now rewrite S5v, S4v, S3v, S2, S1s.
  - rewrite N5, N4 by congruence. now rewrite S3, S2i, S1i.
  - rewrite N5 by congruence. rewrite S4, N3 by congruence. now rewrite S2i, S1i.
  - rewrite S5, N4, N3 by congruence. now rewrite S2i, S1i.
Qed.

(** X10. The objects [createSandbox] creates fit together and fit the
    [SandboxInfo] it returns.  For a sandbox none of whose objects exists
    yet, against a cluster that answers: the stored service is the
    governing service of the stored workload, is the one named in the
    result, and selects the pods of the workload's template; the three
    stored routes send the hosts [<name>-app.<domain>],
    [<name>-ttyd.<domain>] and [<name>-filebrowser.<domain>] to that
    service, on the ports 3000, 7681 and 8080, which the service exposes;
    and each URL of the result is [https://] followed by the host of its
    route, the terminal's URL followed by its authorization parameter when
    there is one. *)
Theorem createSandbox_wires isK8sNotFound toK8sProjectName RUNTIME_IMAGE
    projectName namespace ingressDomain sandboxName envVars env w :
  faultFree env → tells404 isK8sNotFound env →
  noneOf namespace sandboxName (cluster w) →
  let run := createSandbox isK8sNotFound toK8sProjectName RUNTIME_IMAGE
               projectName namespace ingressDomain sandboxName envVars env w in
  let after := cluster (snd run) in
  ∃ info workload service app ttyd fileBrowser,
    fst run = Resolved info
    ∧ statefulSets after !! (namespace, statefulSetName info) = Some workload
    ∧ services after !! (namespace, serviceName info) = Some service
    ∧ ingresses after !! (namespace, getAppIngressName sandboxName) = Some app
    ∧ ingresses after !! (namespace, getTtydIngressName sandboxName) = Some ttyd
    ∧ ingresses after !! (namespace, getFileBrowserIngressName sandboxName)
      = Some fileBrowser
    ∧ meta_name (svc_metadata service) = serviceName info
    ∧ selects service workload
    ∧ routesTo app service (sandboxName +:+ "-app." +:+ ingressDomain) 3000
    ∧ routesTo ttyd service (sandboxName +:+ "-ttyd." +:+ ingressDomain) 7681
    ∧ routesTo fileBrowser service
        (sandboxName +:+ "-filebrowser." +:+ ingressDomain) 8080
    ∧ publicUrl info = "https://" +:+ ing_host app
    ∧ ttydUrl info = ("https://" +:+ ing_host ttyd) +:+ ttydQuery envVars
    ∧ fileBrowserUrl info = "https://" +:+ ing_host fileBrowser.
Proof.
  intros Hff H404 (Nsts & Nsvc & Napp & Nttyd & Nfb) run after.
  destruct (createSandbox_healthy isK8sNotFound toK8sProjectName RUNTIME_IMAGE
              projectName namespace ingressDomain sandboxName envVars env w Hff H404)
    as ([info Hres] & Hcl & _).
  fold run in Hres, Hcl. fold after in Hcl.
  pose proof (provisioned_lookup toK8sProjectName RUNTIME_IMAGE projectName namespace
                ingressDomain sandboxName envVars (cluster w)) as Hlook.
  cbv zeta in Hlook. rewrite <- Hcl, Nsts, Nsvc, Napp, Nttyd, Nfb in Hlook.
  cbn [default from_option id] in Hlook.
  destruct Hlook as (Lsts & Lsvc & Lapp & Lttyd & Lfb).
  assert (Hinfo := Hres). unfold run in Hinfo.
  destruct (createSandbox _ _ _ _ _ _ _ _ env w) as [o1 w1] eqn:Hrun.
  cbn [fst] in Hinfo. subst o1. apply createSandbox_run in Hrun.
  eexists info, _, _, _, _, _.
  split; [exact Hres|]. rewrite Hrun at 1 2. cbn [statefulSetName serviceName].
  split; [exact Lsts|]. split; [exact Lsvc|]. split; [exact Lapp|].
  split; [exact Lttyd|]. split; [exact Lfb|].
  rewrite Hrun. cbn [serviceName publicUrl ttydUrl fileBrowserUrl].
  split; [reflexivity|]. split.
  - eexists. split; [reflexivity|]. split; [reflexivity|]. split; [discriminate|].
    cbn. intros label [<-|[]]. auto.
  - unfold routesTo, ttydQuery.
    cbn [createAppIngress createTtydIngress createFileBrowserIngress
         ing_host ing_serviceName ing_servicePort serviceBody svc_metadata
         meta_name svc_ports map port_port In].
    repeat split; auto.
    destruct (obj_get "TTYD_ACCESS_TOKEN" envVars) as [[|c token]|];
      try reflexivity; now rewrite append_empty_r.
Qed.

Lemma createSandbox_wires_witness :
  let run := createSandbox statusIs404 projectLabel "runtime:latest"
               "proj" "ns1" "usw.example.io" "acme-x1" tokenAbc calmEnv
               (freshWorld emptyCluster) in
  let after := cluster (snd run) in
  ∃ info workload service app ttyd fileBrowser,
    fst run = Resolved info
    ∧ statefulSets after !! ("ns1", statefulSetName info) = Some workload
    ∧ services after !! ("ns1", serviceName info) = Some service
    ∧ ingresses after !! ("ns1", getAppIngressName "acme-x1") = Some app
    ∧ ingresses after !! ("ns1", getTtydIngressName "acme-x1") = Some ttyd
    ∧ ingresses after !! ("ns1", getFileBrowserIngressName "acme-x1")
      = Some fileBrowser
    ∧ meta_name (svc_metadata service) = serviceName info
    ∧ selects service workload
    ∧ routesTo app service ("acme-x1" +:+ "-app." +:+ "usw.example.io") 3000
    ∧ routesTo ttyd service ("acme-x1" +:+ "-ttyd." +:+ "usw.example.io") 7681
    ∧ routesTo fileBrowser service
        ("acme-x1" +:+ "-filebrowser." +:+ "usw.example.io") 8080
    ∧ publicUrl info = "https://" +:+ ing_host app
    ∧ ttydUrl info = ("https://" +:+ ing_host ttyd) +:+ ttydQuery tokenAbc
    ∧ fileBrowserUrl info = "https://" +:+ ing_host fileBrowser.
Proof.
  apply (createSandbox_wires statusIs404 projectLabel "runtime:latest"
           "proj" "ns1" "usw.example.io" "acme-x1" tokenAbc calmEnv
           (freshWorld emptyCluster)).
  - intros c. reflexivity.
  - repeat split; reflexivity.
  - repeat split; reflexivity.
Defined.


(** ** The environment of a fresh workload *)

Lemma containerEnv_get projectName (envVars : JsObject) k :
  uniqueKeys envVars = true →
  obj_get k (obj_set "PROJECT_NAME" projectName (spreadInto [] envVars))
  = if String.eqb "PROJECT_NAME" k then Some projectName else obj_get k envVars.
Proof.
  intros Hu. rewrite obj_get_set, obj_get_copy by exact Hu. reflexivity.
Qed.

Lemma containerEnv_unique projectName (envVars : JsObject) :
  uniqueKeys (obj_set "PROJECT_NAME" projectName (spreadInto [] envVars)) = true.
Proof. apply uniqueKeys_set, uniqueKeys_spreadInto. reflexivity. Qed.

(** X11. The workload [createSandbox] creates declares one replica and
    lists two containers.  The first is named as the sandbox and has exactly the
    requested variables, each with the requested value, except that
    [PROJECT_NAME] is always the project name, whatever the request says.
    The second is the file browser, whose user name and password are the
    requested [FILE_BROWSER_USERNAME] and [FILE_BROWSER_PASSWORD], and
    [admin] where one is missing or empty. *)
Theorem createSandbox_workload_env isK8sNotFound toK8sProjectName RUNTIME_IMAGE
    projectName namespace ingressDomain sandboxName envVars env w :
  faultFree env → tells404 isK8sNotFound env →
  uniqueKeys envVars = true →
  statefulSets (cluster w) !! (namespace, sandboxName) = None →
  let run := createSandbox isK8sNotFound toK8sProjectName RUNTIME_IMAGE
               projectName namespace ingressDomain sandboxName envVars env w in
  ∃ workload spec main sidecar,
    statefulSets (cluster (snd run)) !! (namespace, sandboxName) = Some workload
    ∧ sts_spec workload = Some spec
    ∧ spec_replicas spec = Some 1
    ∧ tpl_spec (spec_template spec) = Some (mkPodSpec [main; sidecar])
    ∧ c_name main = sandboxName
    ∧ c_image main = RUNTIME_IMAGE
    ∧ (∀ k, envLiteral k (envOf main)
            = if String.eqb "PROJECT_NAME" k then Some projectName
              else obj_get k envVars)
    ∧ c_name sidecar = "filebrowser"
    ∧ envLiteral "FILE_BROWSER_USERNAME" (envOf sidecar)
      = Some (orElse (obj_get "FILE_BROWSER_USERNAME" envVars) "admin")
    ∧ envLiteral "FILE_BROWSER_PASSWORD" (envOf sidecar)
      = Some (orElse (obj_get "FILE_BROWSER_PASSWORD" envVars) "admin").
Proof.
  intros Hff H404 Hu Nsts run.
  destruct (createSandbox_healthy isK8sNotFound toK8sProjectName RUNTIME_IMAGE
              projectName namespace ingressDomain sandboxName envVars env w Hff H404)
    as (_ & Hcl & _).
  fold run in Hcl.
  pose proof (provisioned_lookup toK8sProjectName RUNTIME_IMAGE projectName namespace
                ingressDomain sandboxName envVars (cluster w)) as (Lsts & _).
  rewrite <- Hcl, Nsts in Lsts. cbn [default from_option id] in Lsts.
  eexists _, _, _, _. split; [exact Lsts|].
  split; [reflexivity|]. split; [reflexivity|]. split; [reflexivity|].
  split; [reflexivity|]. split; [reflexivity|]. split.
  - intros k. unfold envOf. cbn [c_env default from_option id]. unfold Object_entries.
    rewrite envLiteral_entries by apply containerEnv_unique.
    now apply containerEnv_get.
  - split; [reflexivity|].
    rewrite !(containerEnv_get projectName envVars) by exact Hu. cbn.
    split; reflexivity.
Qed.

Lemma createSandbox_workload_env_witness :
  let run := createSandbox statusIs404 projectLabel "runtime:latest"
               "proj" "ns1" "usw.example.io" "acme-x1"
               [("PROJECT_NAME", "other"); ("FILE_BROWSER_PASSWORD", "")]
               calmEnv (freshWorld emptyCluster) in
  ∃ workload spec main sidecar,
    statefulSets (cluster (snd run)) !! ("ns1", "acme-x1") = Some workload
    ∧ sts_spec workload = Some spec
    ∧ spec_replicas spec = Some 1
    ∧ tpl_spec (spec_template spec) = Some (mkPodSpec [main; sidecar])
    ∧ c_name main = "acme-x1"
    ∧ c_image main = "runtime:latest"
    ∧ (∀ k, envLiteral k (envOf main)
            = if String.eqb "PROJECT_NAME" k then Some "proj"
              else obj_get k [("PROJECT_NAME", "other"); ("FILE_BROWSER_PASSWORD", "")])
    ∧ c_name sidecar = "filebrowser"
    ∧ envLiteral "FILE_BROWSER_USERNAME" (envOf sidecar)
      = Some (orElse (obj_get "FILE_BROWSER_USERNAME"
                        [("PROJECT_NAME", "other"); ("FILE_BROWSER_PASSWORD", "")])
                     "admin")
    ∧ envLiteral "FILE_BROWSER_PASSWORD" (envOf sidecar)
      = Some (orElse (obj_get "FILE_BROWSER_PASSWORD"
                        [("PROJECT_NAME", "other"); ("FILE_BROWSER_PASSWORD", "")])
                     "admin").
Proof.
  apply (createSandbox_workload_env statusIs404 projectLabel "runtime:latest"
           "proj" "ns1" "usw.example.io" "acme-x1"
           [("PROJECT_NAME", "other"); ("FILE_BROWSER_PASSWORD", "")] calmEnv
           (freshWorld emptyCluster)).
  - intros c. reflexivity.
  - repeat split; reflexivity.
  - reflexivity.
  - reflexivity.
Defined.

(** An update that asks for what the main container already has sends
    nothing after its read. *)
Lemma updateStatefulSetEnvVars_same isK8sNotFound namespace sandboxName envVars
    env w stored main :
  fault env (ReadStatefulSet sandboxName namespace) = None →
  statefulSets (cluster w) !! (namespace, sandboxName) = Some stored →
  mainContainer sandboxName stored = Some main →
  (∀ k v, In (k, v) envVars → mapKey k ∧ envLiteral k (envOf main) = Some v) →
  runs (updateStatefulSetEnvVars isK8sNotFound namespace sandboxName envVars) env w
    (Resolved true) (cluster w) [ReadStatefulSet sandboxName namespace].
Proof.
  intros Hfault Hstore Hmain Hsame.
  destruct (mainContainer_unfold _ _ _ Hmain) as (spec & podSpec & Hspec & Htpl & Hfind).
  unfold runs.
  rewrite updateStatefulSetEnvVars_run,
    (getStatefulSet_present isK8sNotFound _ _ _ _ _ Hfault Hstore), Hspec, Htpl, Hfind.
  assert (Hno : hasChanges (currentEnvMapOf main) envVars = false).
  { apply hasChanges_false. intros k v Hin. destruct (Hsame k v Hin) as [Hk Hv].
    now rewrite currentEnvMapOf_get. }
  rewrite Hno. cbn. auto.
Qed.

(** X12. Creating a sandbox with a map of variables and then updating it
    with the same map changes nothing: the update reads the workload,
    finds every requested value in place, returns [true] and sends no
    write.  (The request has each key once, its keys are names the update
    can compare, and it does not ask for another [PROJECT_NAME] than the
    project's.) *)
Theorem create_then_update_writes_nothing isK8sNotFound toK8sProjectName RUNTIME_IMAGE
    projectName namespace ingressDomain sandboxName envVars env w :
  faultFree env → tells404 isK8sNotFound env →
  uniqueKeys envVars = true →
  Forall (fun kv => mapKey (fst kv)) envVars →
  (∀ v, In ("PROJECT_NAME", v) envVars → v = projectName) →
  statefulSets (cluster w) !! (namespace, sandboxName) = None →
  let created := createSandbox isK8sNotFound toK8sProjectName RUNTIME_IMAGE
                   projectName namespace ingressDomain sandboxName envVars env w in
  let updated := updateStatefulSetEnvVars isK8sNotFound namespace sandboxName envVars
                   env (snd created) in
  fst updated = Resolved true
  ∧ cluster (snd updated) = cluster (snd created)
  ∧ calls (snd updated)
    = calls (snd created) ++ [ReadStatefulSet sandboxName namespace].
Proof.
  intros Hff H404 Hu Hkeys Hproject Nsts created updated.
  destruct (createSandbox_healthy isK8sNotFound toK8sProjectName RUNTIME_IMAGE
              projectName namespace ingressDomain sandboxName envVars env w Hff H404)
    as (_ & Hcl & _).
  fold created in Hcl.
  pose proof (provisioned_lookup toK8sProjectName RUNTIME_IMAGE projectName namespace
                ingressDomain sandboxName envVars (cluster w)) as (Lsts & _).
  rewrite <- Hcl, Nsts in Lsts. cbn [default from_option id] in Lsts.
  eapply updateStatefulSetEnvVars_same; [apply Hff|exact Lsts| |].
  - unfold mainContainer. cbn. rewrite String.eqb_refl. reflexivity.
  - intros k v Hin. split.
    + rewrite List.Forall_forall in Hkeys. exact (Hkeys _ Hin).
    + unfold envOf. cbn [c_env default from_option id]. unfold Object_entries.
      rewrite envLiteral_entries by apply containerEnv_unique.
      rewrite containerEnv_get by exact Hu.
      destruct (String.eqb_spec "PROJECT_NAME" k) as [<-|Hne].
      * now rewrite (Hproject v Hin).
      * now apply In_obj_get.
Qed.

Lemma create_then_update_writes_nothing_witness :
  let created := createSandbox statusIs404 projectLabel "runtime:latest"
                   "proj" "ns1" "usw.example.io" "acme-x1" tokenAbc calmEnv
                   (freshWorld emptyCluster) in
  let updated := updateStatefulSetEnvVars statusIs404 "ns1" "acme-x1" tokenAbc
                   calmEnv (snd created) in
  fst updated = Resolved true
  ∧ cluster (snd updated) = cluster (snd created)
  ∧ calls (snd updated) = calls (snd created) ++ [ReadStatefulSet "acme-x1" "ns1"].
Proof.
  apply (create_then_update_writes_nothing statusIs404 projectLabel "runtime:latest"
           "proj" "ns1" "usw.example.io" "acme-x1" tokenAbc calmEnv
           (freshWorld emptyCluster)).
  - intros c. reflexivity.
  - repeat split; reflexivity.
  - reflexivity.
  - repeat constructor; discriminate.
  - intros v [[=]|[]].
  - reflexivity.
Defined.


(** ** Deleting against a cluster that answers *)

Lemma deleteError_healthy env cl c e :
  faultFree env → deleteError env cl c = Some e → e = apiError env 404.
Proof.
  intros Hff. unfold deleteError. rewrite Hff.
  destruct c; try discriminate.
  - destruct (statefulSets cl !! _); [discriminate|]. now intros [= <-].
  - destruct (services cl !! _); [discriminate|]. now intros [= <-].
  - destruct (ingresses cl !! _); [discriminate|]. now intros [= <-].
  - destruct (decide _); [discriminate|]. now intros [= <-].
Qed.

Lemma toleratingNotFound_healthy isK8sNotFound env cl c :
  faultFree env → isK8sNotFound (apiError env 404) = true →
  toleratingNotFound isK8sNotFound (deleteError env cl c) = Resolved tt.
Proof.
  intros Hff Hnf. apply toleratingNotFound_Resolved. intros e He.
  now rewrite (deleteError_healthy env cl c e Hff He).
Qed.

Lemma afterDelete_healthy env cl :
  faultFree env →
  (∀ name namespace,
     afterDelete env cl (DeleteStatefulSet name namespace)
     = setStatefulSets (delete (namespace, name) (statefulSets cl)) cl)
  ∧ (∀ name namespace,
       afterDelete env cl (DeleteService name namespace)
       = setServices (delete (namespace, name) (services cl)) cl)
  ∧ (∀ name namespace,
       afterDelete env cl (DeleteIngress name namespace)
       = setIngresses (delete (namespace, name) (ingresses cl)) cl)
  ∧ (∀ name namespace,
       afterDelete env cl (DeletePersistentVolumeClaim name namespace)
       = setPersistentVolumeClaims
           (persistentVolumeClaims cl ∖ {[(namespace, name)]}) cl).
Proof.
  intros Hff. unfold afterDelete, deleteError.
  split; [|split; [|split]]; intros name namespace; rewrite Hff.
  - destruct (statefulSets cl !! _) eqn:Hk; [reflexivity|].
    unfold setStatefulSets. rewrite delete_id by exact Hk. now destruct cl.
  - destruct (services cl !! _) eqn:Hk; [reflexivity|].
    unfold setServices. rewrite delete_id by exact Hk. now destruct cl.
  - destruct (ingresses cl !! _) eqn:Hk; [reflexivity|].
    unfold setIngresses. rewrite delete_id by exact Hk. now destruct cl.
  - destruct (decide _) as [Hin|Hout]; [reflexivity|].
    unfold setPersistentVolumeClaims.
    assert (persistentVolumeClaims cl ∖ {[(namespace, name)]}
            = persistentVolumeClaims cl) as ->.
    { apply set_eq. intros key. rewrite elem_of_difference, elem_of_singleton.
      split; [tauto|]. intros Hkey. split; [exact Hkey|congruence]. }
    now destruct cl.
Qed.

Lemma deleteSandbox_healthy isK8sNotFound namespace sandboxName env w :
  faultFree env → isK8sNotFound (apiError env 404) = true →
  runs (deleteSandbox isK8sNotFound namespace sandboxName) env w
    (Resolved tt) (removed namespace sandboxName (cluster w))
    (resourceDeletions namespace sandboxName ++ [claimDeletion namespace sandboxName]).
Proof.
  intros Hff Hnf. unfold runs, deleteSandbox. rewrite bind_run.
  match goal with |- context [Promise_all ?ps env w] =>
    pose proof (Promise_all_run ps env w) as (Hcl & Hcalls & Hout);
    destruct (Promise_all ps env w) as [o w1]
  end.
  cbn [startAll] in Hcl, Hcalls, Hout.
  rewrite deleteStatefulSet_run, deleteService_run in Hcl, Hcalls, Hout.
  cbn [fst snd cluster calls now] in Hcl, Hcalls, Hout.
  match type of Hcl with context [deleteIngresses _ _ _ env ?w0] =>
    pose proof (deleteIngresses_spec isK8sNotFound sandboxName namespace env w0)
      as (Hcl3 & Hcalls3 & Hout3);
    destruct (deleteIngresses isK8sNotFound sandboxName namespace env w0) as [o3 w3]
  end.
  rewrite deletePVCs_run in Hcl, Hcalls, Hout.
  cbn [fst snd cluster calls now fold_left] in Hcl, Hcalls, Hout, Hcl3, Hcalls3, Hout3.
  rewrite !toleratingNotFound_healthy in Hout by assumption.
  destruct (afterDelete_healthy env (cluster w) Hff) as (A1 & _).
  rewrite A1 in Hcl3.
  match type of Hcl3 with context [afterDelete env ?cl (DeleteService _ _)] =>
    destruct (afterDelete_healthy env cl Hff) as (_ & A2 & _); rewrite A2 in Hcl3
  end.
  repeat match type of Hcl3 with context [afterDelete env ?cl (DeleteIngress ?n ?ns)] =>
    rewrite (proj1 (proj2 (proj2 (afterDelete_healthy env cl Hff))) n ns) in Hcl3
  end.
  rewrite Hcl3 in Hcl.
  match type of Hcl with context [afterDelete env ?cl (claimDeletion _ _)] =>
    unfold claimDeletion in Hcl;
    rewrite (proj2 (proj2 (proj2 (afterDelete_healthy env cl Hff)))) in Hcl
  end.
  destruct o as [values|e]; rewrite ?ret_run; cbn [fst snd].
  - split; [reflexivity|]. split; [exact Hcl|].
    rewrite Hcalls, Hcalls3. unfold resourceDeletions.
    rewrite <- !app_assoc. reflexivity.
  - exfalso. destruct Hout as (t & Hin). cbn [In] in Hin.
    destruct Hin as [[=]|[[=]|[[= _ H]|[[=]|[]]]]].
    subst o3. destruct Hout3 as (c & _ & Herr & Hno).
    apply (deleteError_healthy env _ c e Hff) in Herr. subst e. congruence.
Qed.

Lemma removed_twice namespace sandboxName cl :
  removed namespace sandboxName (removed namespace sandboxName cl)
  = removed namespace sandboxName cl.
Proof.
  unfold removed. cbn [statefulSets services ingresses persistentVolumeClaims].
  f_equal.
  - apply delete_id, lookup_delete_eq.
  - apply delete_id, lookup_delete_eq.
  - rewrite (delete_id _ (namespace, getAppIngressName sandboxName))
      by (rewrite !lookup_delete_None; auto).
    rewrite (delete_id _ (namespace, getTtydIngressName sandboxName))
      by (rewrite !lookup_delete_None; auto).
    apply delete_id, lookup_delete_eq.
  - apply set_eq. intros key. rewrite !elem_of_difference. tauto.
Qed.

(** X13. Against a cluster that answers, [deleteSandbox] resolves and
    leaves the store without the workload, the service, the three routes
    and the storage claim of the sandbox, whichever of them existed, and
    with everything else as it was.  It is idempotent: a second call
    resolves as well and changes nothing. *)
Theorem deleteSandbox_removes isK8sNotFound namespace sandboxName env w :
  faultFree env → isK8sNotFound (apiError env 404) = true →
  let first := deleteSandbox isK8sNotFound namespace sandboxName env w in
  let second := deleteSandbox isK8sNotFound namespace sandboxName env (snd first) in
  fst first = Resolved tt
  ∧ cluster (snd first) = removed namespace sandboxName (cluster w)
  ∧ fst second = Resolved tt
  ∧ cluster (snd second) = cluster (snd first).
Proof.
  intros Hff Hnf first second.
  destruct (deleteSandbox_healthy isK8sNotFound namespace sandboxName env w Hff Hnf)
    as (Ho1 & Hc1 & _).
  destruct (deleteSandbox_healthy isK8sNotFound namespace sandboxName env (snd first)
              Hff Hnf) as (Ho2 & Hc2 & _).
  fold first in Ho1, Hc1, Ho2, Hc2. fold second in Ho2, Hc2.
  repeat split; auto. rewrite Hc2, Hc1. apply removed_twice.
Qed.

Lemma deleteSandbox_removes_witness :
  let first := deleteSandbox statusIs404 "ns1" "acme-x1" calmEnv
                 (freshWorld (clusterWith oneReplica)) in
  let second := deleteSandbox statusIs404 "ns1" "acme-x1" calmEnv (snd first) in
  fst first = Resolved tt
  ∧ cluster (snd first) = removed "ns1" "acme-x1" (clusterWith oneReplica)
  ∧ fst second = Resolved tt
  ∧ cluster (snd second) = cluster (snd first).
Proof.
  apply (deleteSandbox_removes statusIs404 "ns1" "acme-x1" calmEnv
           (freshWorld (clusterWith oneReplica))).
  - intros c. reflexivity.
  - reflexivity.
Defined.

Lemma ensureStatefulSet_absent namespace body cl :
  statefulSets cl !! (namespace, meta_name (sts_metadata body)) = None →
  ensureStatefulSet namespace body cl
  = setStatefulSets
      (<[(namespace, meta_name (sts_metadata body)) := body]> (statefulSets cl)) cl.
Proof. unfold ensureStatefulSet. now intros ->. Qed.

Lemma ensureService_absent namespace body cl :
  services cl !! (namespace, meta_name (svc_metadata body)) = None →
  ensureService namespace body cl
  = setServices (<[(namespace, meta_name (svc_metadata body)) := body]> (services cl)) cl.
Proof. unfold ensureService. now intros ->. Qed.

Lemma ensureIngress_absent namespace body cl :
  ingresses cl !! (namespace, meta_name (ing_metadata body)) = None →
  ensureIngress namespace body cl
  = setIngresses (<[(namespace, meta_name (ing_metadata body)) := body]> (ingresses cl))
      cl.
Proof. unfold ensureIngress. now intros ->. Qed.

Lemma removed_provisioned toK8sProjectName RUNTIME_IMAGE
    projectName namespace ingressDomain sandboxName envVars cl :
  noneOf namespace sandboxName cl →
  claimOf namespace sandboxName ∉ persistentVolumeClaims cl →
  removed namespace sandboxName
    (provisioned toK8sProjectName RUNTIME_IMAGE projectName namespace ingressDomain
       sandboxName envVars cl)
  = cl.
Proof.
  intros (Nsts & Nsvc & Napp & Nttyd & Nfb) Nclaim.
  unfold provisioned. cbv zeta.
  set (sts := statefulSetBody _ _ _ _ _). set (svc := serviceBody _ _ _).
  set (app := createAppIngress _ _ _ _ _). set (ttyd := createTtydIngress _ _ _ _ _).
  set (fb := createFileBrowserIngress _ _ _ _ _).
  destruct (ingressNames_distinct sandboxName) as (Hat & Haf & Htf).
  rewrite (ensureStatefulSet_absent namespace sts) by exact Nsts.
  rewrite (ensureService_absent namespace svc) by exact Nsvc.
  rewrite (ensureIngress_absent namespace app) by exact Napp.
  change (meta_name (sts_metadata sts)) with sandboxName.
  change (meta_name (svc_metadata svc)) with (getServiceName sandboxName).
  change (meta_name (ing_metadata app)) with (getAppIngressName sandboxName).
  rewrite (ensureIngress_absent namespace ttyd)
    by (change (meta_name (ing_metadata ttyd)) with (getTtydIngressName sandboxName);
        cbn [ingresses setIngresses];
        rewrite lookup_insert_ne by congruence; exact Nttyd).
  change (meta_name (ing_metadata ttyd)) with (getTtydIngressName sandboxName).
  rewrite (ensureIngress_absent namespace fb)
    by (change (meta_name (ing_metadata fb))
          with (getFileBrowserIngressName sandboxName);
        cbn [ingresses setIngresses];
        rewrite !lookup_insert_ne by congruence; exact Nfb).
  change (meta_name (ing_metadata fb)) with (getFileBrowserIngressName sandboxName).
  unfold removed, setIngresses, setServices, setStatefulSets.
  cbn [statefulSets services ingresses persistentVolumeClaims].
  destruct cl as [stsMap svcMap ingMap claims].
  cbn [statefulSets services ingresses persistentVolumeClaims] in *.
  f_equal.
  - apply map_eq. intros key. destruct (decide (key = (namespace, sandboxName))) as [->|N].
    + now rewrite lookup_delete_eq.
    + now rewrite lookup_delete_ne, lookup_insert_ne by congruence.
  - apply map_eq. intros key.
    destruct (decide (key = (namespace, getServiceName sandboxName))) as [->|N].
    + now rewrite lookup_delete_eq.
    + now rewrite lookup_delete_ne, lookup_insert_ne by congruence.
  - apply map_eq. intros key.
    destruct (decide (key = (namespace, getFileBrowserIngressName sandboxName)))
      as [->|N1]; [now rewrite lookup_delete_eq|].
    rewrite lookup_delete_ne by congruence.
    destruct (decide (key = (namespace, getTtydIngressName sandboxName)))
      as [->|N2]; [now rewrite lookup_delete_eq|].
    rewrite lookup_delete_ne by congruence.
    destruct (decide (key = (namespace, getAppIngressName sandboxName)))
      as [->|N3]; [now rewrite lookup_delete_eq|].
    rewrite lookup_delete_ne by congruence.
    now rewrite !lookup_insert_ne by congruence.
  - apply set_eq. intros key. rewrite elem_of_difference, elem_of_singleton.
    split; [tauto|]. intros Hkey. split; [exact Hkey|congruence].
Qed.

(** X14. Creating a sandbox and deleting it again is a round trip: when
    none of its five objects and no storage claim of its first pod was in
    the store, and the cluster answers, the store after [createSandbox]
    followed by [deleteSandbox] is the store before. *)
Theorem create_then_delete_restores isK8sNotFound toK8sProjectName RUNTIME_IMAGE
    projectName namespace ingressDomain sandboxName envVars env w :
  faultFree env → tells404 isK8sNotFound env →
  noneOf namespace sandboxName (cluster w) →
  claimOf namespace sandboxName ∉ persistentVolumeClaims (cluster w) →
  let created := createSandbox isK8sNotFound toK8sProjectName RUNTIME_IMAGE
                   projectName namespace ingressDomain sandboxName envVars env w in
  let deleted := deleteSandbox isK8sNotFound namespace sandboxName env (snd created) in
  (∃ info, fst created = Resolved info)
  ∧ fst deleted = Resolved tt
  ∧ cluster (snd deleted) = cluster w.
Proof.
  intros Hff H404 Hnone Hclaim created deleted.
  destruct (createSandbox_healthy isK8sNotFound toK8sProjectName RUNTIME_IMAGE
              projectName namespace ingressDomain sandboxName envVars env w Hff H404)
    as (Hres & Hcl & _).
  destruct (deleteSandbox_healthy isK8sNotFound namespace sandboxName env (snd created)
              Hff (proj1 H404)) as (Ho & Hc & _).
  fold created in Hres, Hcl. fold deleted in Ho, Hc.
  split; [exact Hres|]. split; [exact Ho|].
  rewrite Hc, Hcl. now apply removed_provisioned.
Qed.

Lemma create_then_delete_restores_witness :
  let created := createSandbox statusIs404 projectLabel "runtime:latest"
                   "proj" "ns1" "usw.example.io" "acme-x2" tokenAbc calmEnv
                   (freshWorld (clusterWith oneReplica)) in
  let deleted := deleteSandbox statusIs404 "ns1" "acme-x2" calmEnv (snd created) in
  (∃ info, fst created = Resolved info)
  ∧ fst deleted = Resolved tt
  ∧ cluster (snd deleted) = clusterWith oneReplica.
Proof.
  apply (create_then_delete_restores statusIs404 projectLabel "runtime:latest"
           "proj" "ns1" "usw.example.io" "acme-x2" tokenAbc calmEnv
           (freshWorld (clusterWith oneReplica))).
  - intros c. reflexivity.
  - repeat split; reflexivity.
  - repeat split; vm_compute; reflexivity.
  - apply not_elem_of_empty.
Defined.


(** ** An existence check that cannot be made *)

(** X15. The three existence checks of [createSandbox] treat a failed read
    differently.  When the read fails with an error that is not a
    not-found answer and that the guard of [createService] lets pass (no
    [response] object, as with a refused connection), [createStatefulSet]
    and [createIngressIfNotExists] reject with that error and send nothing
    more, whereas [createService] goes on and sends the create request: its
    outcome is that of the create.  (Where the [response] of the error is
    [null], the guard of [createService] throws instead, and the method
    rejects with that [TypeError].) *)
Theorem failed_existence_check isK8sNotFound RUNTIME_IMAGE
    sandboxName k8sProjectName namespace containerEnv ingress env w e :
  isK8sNotFound e = false →
  responseStatusIsNot 404 e = false →
  fault env (ReadStatefulSet sandboxName namespace) = Some e →
  fault env (ReadService (getServiceName sandboxName) namespace) = Some e →
  fault env (ReadIngress (meta_name (ing_metadata ingress)) namespace) = Some e →
  runs (createStatefulSet isK8sNotFound RUNTIME_IMAGE sandboxName k8sProjectName
          namespace containerEnv) env w
    (Rejected e) (cluster w) [ReadStatefulSet sandboxName namespace]
  ∧ runs (createIngressIfNotExists isK8sNotFound (meta_name (ing_metadata ingress))
            namespace ingress) env w
      (Rejected e) (cluster w)
      [ReadIngress (meta_name (ing_metadata ingress)) namespace]
  ∧ let checked :=
        mkWorld (cluster w)
          (calls w ++ [ReadService (getServiceName sandboxName) namespace])
          (now w + latency env (ReadService (getServiceName sandboxName) namespace))%nat
    in
    createService sandboxName k8sProjectName namespace env w
    = match statusCodeReadThrows e with
      | Some typeError => (Rejected typeError, checked)
      | None =>
          k8sApi_createNamespacedService namespace
            (serviceBody sandboxName k8sProjectName namespace) env checked
      end.
Proof.
  intros Hnf Hnot Fsts Fsvc Fing. unfold runs. split; [|split].
  - unfold createStatefulSet. rewrite bind_run, getStatefulSet_run.
    unfold k8sAppsApi_readNamespacedStatefulSet. rewrite request_run, Fsts, Hnf.
    cbn. auto.
  - unfold createIngressIfNotExists. rewrite tryCatch_run, bind_run.
    unfold k8sNetworkingApi_readNamespacedIngress. rewrite request_run, Fing, Hnf.
    cbn. auto.
  - cbv zeta. unfold createService. cbv zeta.
    rewrite bind_run, tryCatch_run, bind_run.
    unfold k8sApi_readNamespacedService, ifResponseStatusIsNot.
    rewrite request_run, Fsvc, Hnot.
    now destruct (statusCodeReadThrows e).
Qed.

Lemma failed_existence_check_witness :
  let ingress := createAppIngress "acme-x1" "proj" "ns1" "acme-x1-service"
                   "usw.example.io" in
  let w := freshWorld emptyCluster in
  runs (createStatefulSet statusIs404 "runtime:latest" "acme-x1" "proj" "ns1" [])
    readsRefused w (Rejected connectionRefused) (cluster w)
    [ReadStatefulSet "acme-x1" "ns1"]
  ∧ runs (createIngressIfNotExists statusIs404 (meta_name (ing_metadata ingress))
            "ns1" ingress) readsRefused w
      (Rejected connectionRefused) (cluster w)
      [ReadIngress (meta_name (ing_metadata ingress)) "ns1"]
  ∧ let checked :=
        mkWorld (cluster w)
          (calls w ++ [ReadService (getServiceName "acme-x1") "ns1"])
          (now w + latency readsRefused (ReadService (getServiceName "acme-x1") "ns1"))%nat
    in
    createService "acme-x1" "proj" "ns1" readsRefused w
    = k8sApi_createNamespacedService "ns1" (serviceBody "acme-x1" "proj" "ns1")
        readsRefused checked.
Proof.
  intros ingress w.
  apply (failed_existence_check statusIs404 "runtime:latest" "acme-x1" "proj" "ns1" []
           ingress readsRefused w connectionRefused); reflexivity.
Defined.

(** With every read refused, the service is the one object that gets
    created. *)
Example createService_created_unchecked :
  let run := createService "acme-x1" "proj" "ns1" readsRefused
               (freshWorld emptyCluster) in
  fst run = Resolved tt
  ∧ services (cluster (snd run)) !! ("ns1", "acme-x1-service")
    = Some (serviceBody "acme-x1" "proj" "ns1").
Proof. vm_compute. split; reflexivity. Qed.


(** ** What an update of the environment leaves alone *)

Lemma sameExceptEnv_refl sandboxName s : sameExceptEnv sandboxName s s.
Proof.
  unfold sameExceptEnv. repeat split; auto.
  induction (containersOf s); constructor; auto.
Qed.

Lemma onlyEnvOf_refl namespace sandboxName cl : onlyEnvOf namespace sandboxName cl cl.
Proof.
  unfold onlyEnvOf. repeat split; auto.
  destruct (statefulSets cl !! _) as [s|]; [|reflexivity].
  exists s. split; [reflexivity|apply sameExceptEnv_refl].
Qed.

Lemma sameExceptEnv_updated sandboxName s spec podSpec currentEnvMap envVars :
  sts_spec s = Some spec →
  tpl_spec (spec_template spec) = Some podSpec →
  sameExceptEnv sandboxName s
    (updatedStatefulSetOf sandboxName s spec podSpec currentEnvMap envVars).
Proof.
  intros Hspec Htpl. unfold sameExceptEnv, updatedStatefulSetOf, containersOf.
  rewrite Hspec. cbn. rewrite Htpl. cbn. repeat split.
  induction (pod_containers podSpec) as [|c rest IH]; cbn; constructor; [|exact IH].
  destruct (String.eqb_spec (c_name c) sandboxName) as [Heq|Hne]; cbn; tauto.
Qed.

(** X16. [updateStatefulSetEnvVars] changes nothing but the [env] of the
    containers named as the sandbox: whatever the cluster answers and
    whatever is requested, services, routes, storage claims and the other
    workloads stay as they are, a missing workload is not created, and an
    existing one keeps its metadata, status, replicas, service name, labels
    and its containers with their names and images, those of another name
    unchanged. *)
Theorem updateStatefulSetEnvVars_frame isK8sNotFound namespace sandboxName envVars
    env w :
  onlyEnvOf namespace sandboxName (cluster w)
    (cluster (snd (updateStatefulSetEnvVars isK8sNotFound namespace sandboxName
                     envVars env w))).
Proof.
  rewrite updateStatefulSetEnvVars_run.
  pose proof (getStatefulSet_world isK8sNotFound sandboxName namespace env w) as Hw.
  destruct (getStatefulSet isK8sNotFound sandboxName namespace env w)
    as [[[s|]|e] w1] eqn:Hget; cbn [snd] in Hw;
    try (subst w1; apply onlyEnvOf_refl).
  destruct (getStatefulSet_stored _ _ _ _ _ _ _ Hget) as [Hstore _].
  destruct (sts_spec s) as [spec|] eqn:Hspec; [|subst w1; apply onlyEnvOf_refl].
  destruct (tpl_spec (spec_template spec)) as [podSpec|] eqn:Htpl;
    [|subst w1; apply onlyEnvOf_refl].
  destruct (find _ (pod_containers podSpec)) as [main|];
    [|subst w1; apply onlyEnvOf_refl].
  destruct (hasChanges (currentEnvMapOf main) envVars);
    [|subst w1; apply onlyEnvOf_refl].
  unfold k8sAppsApi_replaceNamespacedStatefulSet. rewrite request_run.
  destruct (fault env (ReplaceStatefulSet _ _ _));
    [subst w1; apply onlyEnvOf_refl|].
  subst w1. cbn [cluster]. rewrite Hstore. cbn [fst snd cluster].
  unfold onlyEnvOf, setStatefulSets.
  cbn [services ingresses persistentVolumeClaims statefulSets].
  repeat split.
  - intros key Hkey. now rewrite lookup_insert_ne.
  - rewrite Hstore, lookup_insert_eq. eexists. split; [reflexivity|].
    now apply sameExceptEnv_updated.
Qed.


(** ** Names *)

Lemma list_ascii_append (a b : string) :
  list_ascii_of_string (a +:+ b) = list_ascii_of_string a ++ list_ascii_of_string b.
Proof.
  induction a as [|c a IH]; [reflexivity|].
  change (String c a +:+ b) with (String c (a +:+ b)). cbn. now rewrite IH.
Qed.

Lemma list_ascii_inj (a b : string) :
  list_ascii_of_string a = list_ascii_of_string b → a = b.
Proof.
  intros H. rewrite <- (string_of_list_ascii_of_string a),
    <- (string_of_list_ascii_of_string b). now rewrite H.
Qed.

Lemma append_inj_r (a b s : string) : a +:+ s = b +:+ s → a = b.
Proof.
  intros H. apply list_ascii_inj.
  apply (f_equal list_ascii_of_string) in H. rewrite !list_ascii_append in H.
  exact (app_inv_tail _ _ _ H).
Qed.

(** The characters of [a +:+ s] read from the end: those of [s], then
    those of [a]. *)
Lemma append_rev (a s : string) :
  rev (list_ascii_of_string (a +:+ s))
  = rev (list_ascii_of_string s) ++ rev (list_ascii_of_string a).
Proof. now rewrite list_ascii_append, rev_app_distr. Qed.

Lemma suffixes_clash (a b s1 s2 : string) :
  (∀ x y, rev (list_ascii_of_string s1) ++ x ≠ rev (list_ascii_of_string s2) ++ y) →
  a +:+ s1 ≠ b +:+ s2.
Proof.
  intros Hclash H. apply (f_equal (fun x => rev (list_ascii_of_string x))) in H.
  rewrite !append_rev in H. exact (Hclash _ _ H).
Qed.

Lemma names_distinct_for (a b : string) :
  (getServiceName a = getServiceName b → a = b)
  ∧ (getAppIngressName a = getAppIngressName b → a = b)
  ∧ (getTtydIngressName a = getTtydIngressName b → a = b)
  ∧ (getFileBrowserIngressName a = getFileBrowserIngressName b → a = b)
  ∧ ("vn-homevn-fulling-" +:+ a +:+ "-0" = "vn-homevn-fulling-" +:+ b +:+ "-0" → a = b)
  ∧ getAppIngressName a ≠ getTtydIngressName b
  ∧ getAppIngressName a ≠ getFileBrowserIngressName b
  ∧ getTtydIngressName a ≠ getAppIngressName b
  ∧ getTtydIngressName a ≠ getFileBrowserIngressName b
  ∧ getFileBrowserIngressName a ≠ getAppIngressName b
  ∧ getFileBrowserIngressName a ≠ getTtydIngressName b.
Proof.
  unfold getServiceName, getAppIngressName, getTtydIngressName,
    getFileBrowserIngressName.
  repeat split; try apply append_inj_r;
    try (apply suffixes_clash; intros x y; cbn; congruence).
  intros H. apply append_inj_l in H. now apply append_inj_r in H.
Qed.

(** X17. The names derived from sandbox names never collide.  Each naming
    function is injective, so two sandboxes of one namespace never share a
    service, a route or a storage claim; and a route of one kind (app,
    terminal, file browser) of a sandbox is never the route of another kind
    of any sandbox. *)
Theorem names_never_collide (a b : string) :
  (getServiceName a = getServiceName b → a = b)
  ∧ (getAppIngressName a = getAppIngressName b → a = b)
  ∧ (getTtydIngressName a = getTtydIngressName b → a = b)
  ∧ (getFileBrowserIngressName a = getFileBrowserIngressName b → a = b)
  ∧ (∀ namespace, claimOf namespace a = claimOf namespace b → a = b)
  ∧ getAppIngressName a ≠ getTtydIngressName b
  ∧ getAppIngressName a ≠ getFileBrowserIngressName b
  ∧ getTtydIngressName a ≠ getFileBrowserIngressName b.
Proof.
  destruct (names_distinct_for a b)
    as (Nsvc & Naa & Ntt & Nff & Nclaim & Nat & Naf & _ & Ntf & _).
  split; [exact Nsvc|]. split; [exact Naa|]. split; [exact Ntt|].
  split; [exact Nff|]. split; [|tauto].
  intros namespace H. apply Nclaim. exact (f_equal snd H).
Qed.

(** ** Deleting one sandbox among others *)

Lemma deleteSandbox_cluster isK8sNotFound namespace sandboxName env w :
  cluster (snd (deleteSandbox isK8sNotFound namespace sandboxName env w))
  = fold_left (afterDelete env)
      (resourceDeletions namespace sandboxName ++ [claimDeletion namespace sandboxName])
      (cluster w).
Proof.
  unfold deleteSandbox. rewrite bind_run.
  match goal with |- context [Promise_all ?ps env w] =>
    pose proof (Promise_all_run ps env w) as (Hcl & _ & _);
    destruct (Promise_all ps env w) as [o w1]
  end.
  cbn [startAll] in Hcl.
  rewrite deleteStatefulSet_run, deleteService_run in Hcl.
  cbn [fst snd cluster calls now] in Hcl.
  match type of Hcl with context [deleteIngresses _ _ _ env ?w0] =>
    pose proof (deleteIngresses_spec isK8sNotFound sandboxName namespace env w0)
      as (Hcl3 & _ & _);
    destruct (deleteIngresses isK8sNotFound sandboxName namespace env w0) as [o3 w3]
  end.
  rewrite deletePVCs_run in Hcl.
  cbn [fst snd cluster calls now] in Hcl, Hcl3.
  rewrite Hcl3 in Hcl.
  destruct o; rewrite ?ret_run; cbn [snd].
  all: exact Hcl.
Qed.

(** A delete request leaves every object but its own as it is, and adds
    none. *)
Lemma afterDelete_others env cl c :
  (∀ key, c ≠ DeleteStatefulSet (snd key) (fst key) →
          statefulSets (afterDelete env cl c) !! key = statefulSets cl !! key)
  ∧ (∀ key, c ≠ DeleteService (snd key) (fst key) →
            services (afterDelete env cl c) !! key = services cl !! key)
  ∧ (∀ key, c ≠ DeleteIngress (snd key) (fst key) →
            ingresses (afterDelete env cl c) !! key = ingresses cl !! key)
  ∧ (∀ key, c ≠ DeletePersistentVolumeClaim (snd key) (fst key) →
            key ∈ persistentVolumeClaims (afterDelete env cl c)
            ↔ key ∈ persistentVolumeClaims cl).
Proof.
  unfold afterDelete. destruct (deleteError env cl c); [tauto|].
  destruct c; try tauto; (split; [|split; [|split]]); intros [ns n] Hne;
    cbn [fst snd] in Hne;
    unfold setStatefulSets, setServices, setIngresses, setPersistentVolumeClaims;
    cbn [statefulSets services ingresses persistentVolumeClaims];
    try reflexivity; try (rewrite lookup_delete_ne; [reflexivity|congruence]).
  rewrite elem_of_difference, elem_of_singleton. split; [tauto|].
  intros H. split; [exact H|congruence].
Qed.

(** X18. Deleting a sandbox touches no other sandbox: whatever the cluster
    answers, the workload, the service, the three routes and the storage
    claim of every sandbox of another name, or of the same name in another
    namespace, are in the store afterwards exactly as before. *)
Theorem deleteSandbox_spares_others isK8sNotFound env w namespace sandboxName
    otherNamespace otherName :
  (otherNamespace, otherName) ≠ (namespace, sandboxName) →
  let after :=
    cluster (snd (deleteSandbox isK8sNotFound namespace sandboxName env w)) in
  statefulSets after !! (otherNamespace, otherName)
  = statefulSets (cluster w) !! (otherNamespace, otherName)
  ∧ services after !! (otherNamespace, getServiceName otherName)
    = services (cluster w) !! (otherNamespace, getServiceName otherName)
  ∧ ingresses after !! (otherNamespace, getAppIngressName otherName)
    = ingresses (cluster w) !! (otherNamespace, getAppIngressName otherName)
  ∧ ingresses after !! (otherNamespace, getTtydIngressName otherName)
    = ingresses (cluster w) !! (otherNamespace, getTtydIngressName otherName)
  ∧ ingresses after !! (otherNamespace, getFileBrowserIngressName otherName)
    = ingresses (cluster w) !! (otherNamespace, getFileBrowserIngressName otherName)
  ∧ (claimOf otherNamespace otherName ∈ persistentVolumeClaims after
     ↔ claimOf otherNamespace otherName ∈ persistentVolumeClaims (cluster w)).
Proof.
  intros Hother after. subst after. rewrite deleteSandbox_cluster.
  unfold resourceDeletions, claimDeletion. cbn [app fold_left].
  assert (Hname : namespace = otherNamespace → sandboxName = otherName → False)
    by (intros -> ->; now apply Hother).
  destruct (names_distinct_for sandboxName otherName)
    as (Nsvc & Naa & Ntt & Nff & Nclaim & Nat & Naf & Nta & Ntf & Nfa & Nft).
  set (c0 := DeleteStatefulSet sandboxName namespace).
  set (c1 := DeleteService (getServiceName sandboxName) namespace).
  set (c2 := DeleteIngress (getAppIngressName sandboxName) namespace).
  set (c3 := DeleteIngress (getTtydIngressName sandboxName) namespace).
  set (c4 := DeleteIngress (getFileBrowserIngressName sandboxName) namespace).
  set (c5 := DeletePersistentVolumeClaim
               ("vn-homevn-fulling-" +:+ sandboxName +:+ "-0") namespace).
  set (cl0 := cluster w).
  set (cl1 := afterDelete env cl0 c0). set (cl2 := afterDelete env cl1 c1).
  set (cl3 := afterDelete env cl2 c2). set (cl4 := afterDelete env cl3 c3).
  set (cl5 := afterDelete env cl4 c4).
  destruct (afterDelete_others env cl0 c0) as (S0 & V0 & I0 & P0).
  destruct (afterDelete_others env cl1 c1) as (S1 & V1 & I1 & P1).
  destruct (afterDelete_others env cl2 c2) as (S2 & V2 & I2 & P2).
  destruct (afterDelete_others env cl3 c3) as (S3 & V3 & I3 & P3).
  destruct (afterDelete_others env cl4 c4) as (S4 & V4 & I4 & P4).
  destruct (afterDelete_others env cl5 c5) as (S5 & V5 & I5 & P5).
  fold cl1 in S0, V0, I0, P0. fold cl2 in S1, V1, I1, P1. fold cl3 in S2, V2, I2, P2.
  fold cl4 in S3, V3, I3, P3. fold cl5 in S4, V4, I4, P4.
  subst c0 c1 c2 c3 c4 c5. unfold claimOf.
  split; [|split; [|split; [|split; [|split]]]].
  - rewrite S5, S4, S3, S2, S1, S0; cbn [fst snd]; try discriminate;
      try reflexivity; intros [= Hn Hns]; tauto.
  - rewrite V5, V4, V3, V2, V1, V0; cbn [fst snd]; try discriminate;
      try reflexivity; intros [= Hn Hns]; tauto.
  - rewrite I5, I4, I3, I2, I1, I0; cbn [fst snd]; try discriminate;
      try reflexivity; intros [= Hn Hns]; tauto.
  - rewrite I5, I4, I3, I2, I1, I0; cbn [fst snd]; try discriminate;
      try reflexivity; intros [= Hn Hns]; tauto.
  - rewrite I5, I4, I3, I2, I1, I0; cbn [fst snd]; try discriminate;
      try reflexivity; intros [= Hn Hns]; tauto.
  - rewrite P5, P4, P3, P2, P1, P0; cbn [fst snd]; try discriminate;
      try reflexivity; intros [= Hn Hns];
      apply (append_inj_r sandboxName otherName "-0") in Hn; tauto.
Qed.

Lemma deleteSandbox_spares_others_witness :
  let after :=
    cluster (snd (deleteSandbox statusIs404 "ns1" "acme-x2" claimDeletionFails
                    (freshWorld (clusterWith oneReplica)))) in
  statefulSets after !! ("ns1", "acme-x1")
  = statefulSets (clusterWith oneReplica) !! ("ns1", "acme-x1")
  ∧ services after !! ("ns1", getServiceName "acme-x1")
    = services (clusterWith oneReplica) !! ("ns1", getServiceName "acme-x1")
  ∧ ingresses after !! ("ns1", getAppIngressName "acme-x1")
    = ingresses (clusterWith oneReplica) !! ("ns1", getAppIngressName "acme-x1")
  ∧ ingresses after !! ("ns1", getTtydIngressName "acme-x1")
    = ingresses (clusterWith oneReplica) !! ("ns1", getTtydIngressName "acme-x1")
  ∧ ingresses after !! ("ns1", getFileBrowserIngressName "acme-x1")
    = ingresses (clusterWith oneReplica) !! ("ns1", getFileBrowserIngressName "acme-x1")
  ∧ (claimOf "ns1" "acme-x1" ∈ persistentVolumeClaims after
     ↔ claimOf "ns1" "acme-x1" ∈ persistentVolumeClaims (clusterWith oneReplica)).
Proof.
  apply (deleteSandbox_spares_others statusIs404 claimDeletionFails
           (freshWorld (clusterWith oneReplica)) "ns1" "acme-x2" "ns1" "acme-x1").
  discriminate.
Defined.


(** ** The route handlers *)

Lemma awaitOutcome_run {A} (o : Outcome A) env w : awaitOutcome o env w = Settled o w.
Proof. reflexivity. Qed.

Lemma isPortListening_run Buffer_toString namespace sandboxName port env w :
  isPortListening Buffer_toString namespace sandboxName port env w
  = match execChannel env namespace (sandboxName +:+ "-0") sandboxName
            ["bash"; "-c"; portProbeScript port] with
    | ExecStatus out _ _ _ =>
        Settled
          (Resolved (String.eqb (trim (collectChunks Buffer_toString out)) "listening"))
          w
    | ExecNoCallback => Pending
    end.
Proof.
  unfold isPortListening. rewrite tryCatchP_run, bindP_run. unfold execIgnoringStatus.
  now destruct (execChannel env _ _ _ _).
Qed.

Lemma killProcessOnPort_run Buffer_toString namespace sandboxName port env w :
  killProcessOnPort Buffer_toString namespace sandboxName port env w
  = match execChannel env namespace (sandboxName +:+ "-0") sandboxName
            ["bash"; "-c"; portKillScript port] with
    | ExecStatus out _ _ _ =>
        let result := trim (collectChunks Buffer_toString out) in
        Settled
          (Resolved
             (if String.prefix "killed" result then mkKillResult true None
              else if String.eqb result "no process" then mkKillResult true None
              else mkKillResult false (Some "Failed to kill process")))
          w
    | ExecNoCallback => Pending
    end.
Proof.
  unfold killProcessOnPort. rewrite tryCatchP_run, bindP_run. unfold execIgnoringStatus.
  destruct (execChannel env _ _ _ _); [|reflexivity]. cbv zeta.
  destruct (String.prefix _ _); [reflexivity|].
  now destruct (String.eqb _ _).
Qed.

(** The manager's calls never reject: they resolve or stay pending. *)
Lemma execCommandInBackground_no_rejection
    Buffer_toString namespace sandboxName command workdir env w e w1 :
  execCommandInBackground Buffer_toString namespace sandboxName command workdir env w
  ≠ Settled (Rejected e) w1.
Proof.
  rewrite execCommandInBackground_outcomes.
  now destruct (execChannel env _ _ _ _).
Qed.

Lemma isPortListening_no_rejection Buffer_toString namespace sandboxName port env w e w1 :
  isPortListening Buffer_toString namespace sandboxName port env w
  ≠ Settled (Rejected e) w1.
Proof. rewrite isPortListening_run. now destruct (execChannel env _ _ _ _). Qed.

Lemma killProcessOnPort_no_rejection Buffer_toString namespace sandboxName port env w e w1 :
  killProcessOnPort Buffer_toString namespace sandboxName port env w
  ≠ Settled (Rejected e) w1.
Proof. rewrite killProcessOnPort_run. now destruct (execChannel env _ _ _ _). Qed.

(** Case analysis on the settlement of a handler, once its lookups are
    decided. *)
Ltac route_leaf :=
  cbv zeta;
  repeat match goal with
    | |- _ ∧ _ => split
    | |- _ ↔ _ => split
    | |- ∀ _, _ => intro
    | |- ¬ _ => intro
    | H : _ ∧ _ |- _ => destruct H
    | H : ∃ _, _ |- _ => destruct H
    | H : _ ∨ _ |- _ => destruct H
    | H : ?x = ?y |- _ => first [is_var x; subst x | is_var y; subst y]
    | H : Resolved _ = Resolved _ |- _ => injection H as H
    | H : Rejected _ = Rejected _ |- _ => injection H as H
    | H : Some _ = Some _ |- _ => injection H as H
    | H : Settled _ _ = Settled _ _ |- _ => injection H; clear H; intros
    | H : ?a = Resolved _, H' : ?a = Resolved _ |- _ => rewrite H in H'
    | H : ?a = Resolved _, H' : ?a = Rejected _ |- _ => rewrite H in H'
    | H : ?a = Settled _ _, H' : ?a = Settled _ _ |- _ => rewrite H in H'
    | H : ?a = Settled _ _, H' : ?a = Pending |- _ => rewrite H in H'
    | H : ?a = true, H' : ?a = false |- _ => rewrite H in H'
    end;
  cbn [http_status http_body success] in *;
  try discriminate; try congruence; eauto 10.

(** X19. The handler of [POST /api/sandbox/[id]/exec].  It rejects exactly
    when the promise of the route parameters does, which is awaited before
    the [try] block.  Otherwise it never rejects, and what it answers has
    status 200, 400 or 500.  It answers 400, [command is required], exactly
    when the body is read, is not [null], and its [command] is falsy
    (missing, [null], [false], [0] or the empty string), and then no access
    check is made.  With a truthy [command] that has a text, a [workdir]
    that is missing or has a text, and both lookups resolved, it answers
    what the manager's [execCommandInBackground] resolves to, for the
    sandbox of the access check, the text of the command and the text of
    the working directory or the manager's default: 200 when that result
    reports success, 500 otherwise; and it stays pending when the manager's
    call does.  An unreadable or [null] body, a rejected access check, a
    rejected service lookup, and a [command] or [workdir] that has no text
    give 500 with the message after [Failed to execute command: ]. *)
Theorem exec_route_responds Buffer_toString deps params userId requestJson env w :
  let run := ExecRoute.POST Buffer_toString deps params userId requestJson env w in
  let failure := fun e =>
    mkResponse 500
      (mkExecResult false None
         (Some ("Failed to execute command: " +:+ messageOrUnknown e))) in
  (∀ e w1, run = Settled (Rejected e) w1 ↔ params = Rejected e ∧ w1 = w)
  ∧ (∀ response w1,
       run = Settled (Resolved response) w1 →
       (http_status response = 200 ∨ http_status response = 400
        ∨ http_status response = 500)
       ∧ (http_status response = 200 ↔ success (http_body response) = true)
       ∧ (http_status response = 400
          ↔ ∃ body command,
              requestJson = Resolved body
              ∧ readProperty body "command" = Resolved command
              ∧ truthy command = false)
       ∧ (http_status response = 400 →
          http_body response = mkExecResult false None (Some "command is required")))
  ∧ (∀ id body command,
       params = Resolved id →
       requestJson = Resolved body →
       readProperty body "command" = Resolved command →
       truthy command = false →
       run = Settled
               (Resolved (mkResponse 400
                            (mkExecResult false None (Some "command is required"))))
               w)
  ∧ (∀ id body command commandText workdir workdirText sandbox k8sService,
       params = Resolved id →
       requestJson = Resolved body →
       readProperty body "command" = Resolved command →
       truthy command = true →
       interpolate command = Resolved commandText →
       readProperty body "workdir" = Resolved workdir →
       interpolateIfDefined workdir = Resolved workdirText →
       verifySandboxAccess deps (paramId id) userId = Resolved sandbox →
       getK8sServiceForUser deps userId = Resolved k8sService →
       let call :=
         execCommandInBackground Buffer_toString
           (KubernetesService.orDefaultNamespace k8sService (row_k8sNamespace sandbox))
           (row_sandboxName sandbox) commandText
           (default "/home/fulling" workdirText) env w in
       (call = Pending → run = Pending)
       ∧ (∀ result w1,
            call = Settled (Resolved result) w1 →
            run = Settled
                    (Resolved (mkResponse (if success result then 200 else 500) result))
                    w1))
  ∧ (∀ id e,
       params = Resolved id →
       requestJson = Rejected e
       ∨ (requestJson = Resolved JsonNull ∧ e = typeErrorNull "command")
       ∨ (∃ body command,
            requestJson = Resolved body
            ∧ readProperty body "command" = Resolved command
            ∧ truthy command = true
            ∧ (verifySandboxAccess deps (paramId id) userId = Rejected e
               ∨ (∃ sandbox,
                    verifySandboxAccess deps (paramId id) userId = Resolved sandbox
                    ∧ (interpolate command = Rejected e
                       ∨ (∃ commandText,
                            interpolate command = Resolved commandText
                            ∧ (getK8sServiceForUser deps userId = Rejected e
                               ∨ (∃ k8sService workdir,
                                    getK8sServiceForUser deps userId
                                      = Resolved k8sService
                                    ∧ readProperty body "workdir" = Resolved workdir
                                    ∧ interpolateIfDefined workdir = Rejected e))))))) →
       run = Settled (Resolved (failure e)) w).
Proof.
  intros run failure. subst run failure. unfold ExecRoute.POST.
  rewrite bindP_run, awaitOutcome_run.
  destruct params as [id|e0]; [|route_leaf].
  rewrite tryCatchP_run, bindP_run, awaitOutcome_run.
  destruct requestJson as [body|e0]; [|rewrite retP_run; route_leaf].
  rewrite bindP_run, awaitOutcome_run.
  destruct (readProperty body "command") as [command|e0] eqn:Hcommand.
  2:{ assert (body = JsonNull ∧ e0 = typeErrorNull "command") as [-> ->]
        by (destruct body; cbn in Hcommand; try discriminate; now injection Hcommand).
      rewrite retP_run. route_leaf. }
  destruct (truthy command) eqn:Htruthy; cbn [negb]; [|rewrite retP_run; route_leaf].
  rewrite bindP_run, awaitOutcome_run.
  destruct (verifySandboxAccess deps (paramId id) userId) as [sandbox|e1] eqn:Haccess;
    [|rewrite retP_run; route_leaf].
  rewrite bindP_run, awaitOutcome_run.
  destruct (interpolate command) as [commandText|e2] eqn:Htext;
    [|rewrite retP_run; route_leaf].
  rewrite bindP_run, awaitOutcome_run.
  destruct (getK8sServiceForUser deps userId) as [k8sService|e3] eqn:Hservice;
    [|rewrite retP_run; route_leaf].
  rewrite bindP_run, awaitOutcome_run.
  assert (Hwork : ∃ workdir, readProperty body "workdir" = Resolved workdir)
    by (destruct body; cbn in *; try discriminate; eauto).
  destruct Hwork as [workdir Hworkdir]. rewrite Hworkdir, bindP_run, awaitOutcome_run.
  destruct (interpolateIfDefined workdir) as [workdirText|e4] eqn:Hdir;
    [|rewrite retP_run; route_leaf].
  rewrite bindP_run.
  unfold KubernetesService.execCommandInBackground.
  assert (Hdefault : match workdirText with
                     | Some dir => dir
                     | None => "/home/fulling"
                     end = default "/home/fulling" workdirText)
    by now destruct workdirText.
  rewrite Hdefault.
  pose proof (execCommandInBackground_no_rejection Buffer_toString
                (KubernetesService.orDefaultNamespace k8sService
                   (row_k8sNamespace sandbox))
                (row_sandboxName sandbox) commandText
                (default "/home/fulling" workdirText) env w) as Hnever.
  destruct (execCommandInBackground _ _ _ _ _ env w) as [[result|e'] w2|] eqn:Hcall;
    [rewrite retP_run|now destruct (Hnever e' w2)|].
  - destruct (success result) eqn:Hsuccess; route_leaf;
      match goal with H : success _ = _ |- _ => now rewrite H end.
  - route_leaf.
Qed.

(** A caller who is refused access gets a 500, not a 403 or 404. *)
Example exec_route_refused :
  ExecRoute.POST asciiText refusedDeps (Resolved (SingleParam "sb1")) "user1"
    (Resolved (JsonObject [("command", JsonString "pnpm dev")])) calmEnv
    (freshWorld emptyCluster)
  = Settled
      (Resolved (mkResponse 500
                   (mkExecResult false None
                      (Some "Failed to execute command: Sandbox not found"))))
      (freshWorld emptyCluster).
Proof. reflexivity. Qed.

(** A [command] that is the number 0 is answered like a missing one; one
    that is another number is run as its text; one that is an object with a
    property [toString] is refused once access is granted. *)
Example exec_route_numeric_command :
  (ExecRoute.POST asciiText ownerDeps (Resolved (SingleParam "sb1")) "user1"
     (Resolved (JsonObject [("command", JsonNumber "0")])) calmEnv
     (freshWorld emptyCluster),
   ExecRoute.POST asciiText ownerDeps (Resolved (SingleParam "sb1")) "user1"
     (Resolved (JsonObject [("command", JsonNumber "7")])) calmEnv
     (freshWorld emptyCluster),
   ExecRoute.POST asciiText ownerDeps (Resolved (SingleParam "sb1")) "user1"
     (Resolved (JsonObject [("command", JsonObject [("toString", JsonNull)])])) calmEnv
     (freshWorld emptyCluster))
  = (Settled
       (Resolved (mkResponse 400
                    (mkExecResult false None (Some "command is required"))))
       (freshWorld emptyCluster),
     Settled
       (Resolved (mkResponse 200 (mkExecResult true (Some (Finite 4242)) None)))
       (freshWorld emptyCluster),
     Settled
       (Resolved (mkResponse 500
                    (mkExecResult false None
                       (Some "Failed to execute command: Cannot convert object to primitive value"))))
       (freshWorld emptyCluster)).
Proof. reflexivity. Qed.

(** When the exec connection fails, the request is never answered. *)
Example exec_route_failed_connection :
  ExecRoute.POST asciiText ownerDeps (Resolved (SingleParam "sb1")) "user1"
    (Resolved (JsonObject [("command", JsonString "pnpm dev")])) deadChannelEnv
    (freshWorld emptyCluster)
  = Pending.
Proof. reflexivity. Qed.

(** X20. The handlers of [/api/sandbox/[id]/app-status].  Each rejects
    exactly when the promise of the route parameters does.  Otherwise:
    when the access check and the service lookup both resolve, [GET]
    answers 200 with the answer of the manager's [isPortListening] for
    port 3000 as [running], and [DELETE] answers 200 with the result of the
    manager's [killProcessOnPort], also when that result is a failure; each
    stays pending when the manager's call does.  When a lookup is rejected,
    [GET] answers 200 with [running: false], and [DELETE] answers 500 with
    [success: false] and the message of the error. *)
Theorem app_status_route_responds Buffer_toString deps params userId env w :
  let get := AppStatusRoute.GET Buffer_toString deps params userId env w in
  let delete := AppStatusRoute.DELETE Buffer_toString deps params userId env w in
  (∀ e w1, get = Settled (Rejected e) w1 ↔ params = Rejected e ∧ w1 = w)
  ∧ (∀ e w1, delete = Settled (Rejected e) w1 ↔ params = Rejected e ∧ w1 = w)
  ∧ (∀ response w1, get = Settled (Resolved response) w1 → http_status response = 200)
  ∧ (∀ id sandbox k8sService,
       params = Resolved id →
       verifySandboxAccess deps (paramId id) userId = Resolved sandbox →
       getK8sServiceForUser deps userId = Resolved k8sService →
       let namespace :=
         KubernetesService.orDefaultNamespace k8sService (row_k8sNamespace sandbox) in
       let probe :=
         isPortListening Buffer_toString namespace (row_sandboxName sandbox) 3000
           env w in
       let kill :=
         killProcessOnPort Buffer_toString namespace (row_sandboxName sandbox) 3000
           env w in
       (probe = Pending → get = Pending)
       ∧ (∀ running w1,
            probe = Settled (Resolved running) w1 →
            get = Settled (Resolved (mkResponse 200 running)) w1)
       ∧ (kill = Pending → delete = Pending)
       ∧ (∀ result w1,
            kill = Settled (Resolved result) w1 →
            delete = Settled (Resolved (mkResponse 200 result)) w1))
  ∧ (∀ id e,
       params = Resolved id →
       verifySandboxAccess deps (paramId id) userId = Rejected e
       ∨ (∃ sandbox,
            verifySandboxAccess deps (paramId id) userId = Resolved sandbox
            ∧ getK8sServiceForUser deps userId = Rejected e) →
       get = Settled (Resolved (mkResponse 200 false)) w
       ∧ delete
         = Settled
             (Resolved (mkResponse 500 (mkKillResult false (Some (messageOrUnknown e)))))
             w).
Proof.
  intros get delete. subst get delete.
  unfold AppStatusRoute.GET, AppStatusRoute.DELETE.
  rewrite !bindP_run, !awaitOutcome_run.
  destruct params as [id|e0]; [|route_leaf].
  rewrite !tryCatchP_run, !bindP_run, !awaitOutcome_run.
  destruct (verifySandboxAccess deps (paramId id) userId) as [sandbox|e1] eqn:Haccess;
    [|rewrite !retP_run; route_leaf].
  rewrite !bindP_run, !awaitOutcome_run.
  destruct (getK8sServiceForUser deps userId) as [k8sService|e2] eqn:Hservice;
    [|rewrite !retP_run; route_leaf].
  rewrite !bindP_run.
  unfold KubernetesService.isPortListening, KubernetesService.killProcessOnPort.
  change AppStatusRoute.APP_PORT with 3000.
  set (namespace := KubernetesService.orDefaultNamespace k8sService
                      (row_k8sNamespace sandbox)).
  pose proof (isPortListening_no_rejection Buffer_toString namespace
                (row_sandboxName sandbox) 3000 env w) as Hprobe.
  pose proof (killProcessOnPort_no_rejection Buffer_toString namespace
                (row_sandboxName sandbox) 3000 env w) as Hkill.
  destruct (isPortListening _ _ _ _ env w) as [[running|e'] w2|] eqn:Hprobed;
    [rewrite ?retP_run|now destruct (Hprobe e' w2)|];
    (destruct (killProcessOnPort _ _ _ _ env w) as [[result|e'] w3|] eqn:Hkilled;
     [rewrite ?retP_run|now destruct (Hkill e' w3)|]);
    subst namespace; route_leaf.
Qed.

(** A kill that failed is still answered with 200. *)
Example app_status_delete_failed_kill :
  AppStatusRoute.DELETE asciiText ownerDeps (Resolved (SingleParam "sb1")) "user1"
    killFails (freshWorld emptyCluster)
  = Settled
      (Resolved (mkResponse 200 (mkKillResult false (Some "Failed to kill process"))))
      (freshWorld emptyCluster).
Proof. reflexivity. Qed.


(** ** Waiting for the application to start *)

Lemma poll_spec (pollStatus : nat → bool) (remaining attempts : nat) :
  let result := poll pollStatus remaining attempts in
  (attempts ≤ snd result ≤ attempts + remaining)%nat
  ∧ (fst result = true →
     (attempts < snd result)%nat ∧ pollStatus (snd result) = true)
  ∧ (fst result = false → snd result = (attempts + remaining)%nat)
  ∧ (∀ j, (attempts < j)%nat → (j < snd result)%nat → pollStatus j = false)
  ∧ (fst result = false →
     ∀ j, (attempts < j ≤ attempts + remaining)%nat → pollStatus j = false).
Proof.
  revert attempts. induction remaining as [|remaining IH]; intros attempts; cbn.
  - repeat split; intros; try lia; try discriminate.
  - destruct (pollStatus (S attempts)) eqn:Hfirst; cbn.
    + repeat split; intros; try lia; try discriminate; auto.
    + destruct (IH (S attempts)) as (Hbound & Htrue & Hfalse & Hbefore & Hnone).
      cbv zeta in *. split; [lia|]. split; [|split; [|split]].
      * intros Hr. destruct (Htrue Hr) as [Hlt Hat]. split; [lia|exact Hat].
      * intros Hr. rewrite (Hfalse Hr). lia.
      * intros j Hlo Hhi. destruct (decide (j = S attempts)) as [->|Hne];
          [exact Hfirst|]. apply Hbefore; lia.
      * intros Hr j Hj. destruct (decide (j = S attempts)) as [->|Hne];
          [exact Hfirst|]. apply (Hnone Hr). lia.
Qed.

(** X21. The polling loop of [startApp] asks for the status at most 30
    times.  It reports the application as running exactly when one of the
    first 30 answers is [true], and then it stops at the first such answer;
    otherwise it gives up after exactly 30 attempts. *)
Theorem poll_gives_up_after_30 (pollStatus : nat → bool) :
  let result := poll pollStatus maxAttempts 0 in
  (snd result ≤ 30)%nat
  ∧ (fst result = true ↔ ∃ k, (1 ≤ k ≤ 30)%nat ∧ pollStatus k = true)
  ∧ (fst result = true →
     pollStatus (snd result) = true
     ∧ ∀ j, (1 ≤ j < snd result)%nat → pollStatus j = false)
  ∧ (fst result = false → snd result = 30%nat).
Proof.
  intros result. subst result.
  destruct (poll_spec pollStatus maxAttempts 0)
    as (Hbound & Htrue & Hfalse & Hbefore & Hnone).
  cbv zeta in *. unfold maxAttempts in *.
  split; [lia|]. split; [split|split].
  - intros Hr. destruct (Htrue Hr) as [Hpos Hat]. eexists. split; [|exact Hat]. lia.
  - intros (k & Hk & Hat).
    destruct (fst (poll pollStatus 30 0)) eqn:Hr; [reflexivity|].
    rewrite (Hnone eq_refl k) in Hat by lia. discriminate.
  - intros Hr. split; [now apply Htrue|]. intros j Hj. apply Hbefore; lia.
  - intros Hr. rewrite (Hfalse Hr). reflexivity.
Qed.

Example poll_third_attempt :
  poll (fun attempt => Nat.eqb attempt 3 || Nat.eqb attempt 5) maxAttempts 0
  = (true, 3%nat).
Proof. reflexivity. Qed.

Example workdirOf_samples :
  (workdirOf "./", workdirOf ".", workdirOf "./apps/web", workdirOf "apps/web")
  = ("/home/fulling/next", "/home/fulling/next",
     "/home/fulling/next/apps/web", "/home/fulling/next/apps/web").
Proof. reflexivity. Qed.


(** ** Life cycle *)

Lemma getSandboxStatus_stored isK8sNotFound namespace sandboxName env w :
  fst (getSandboxStatus isK8sNotFound namespace sandboxName env w)
  = match fst (getStatefulSetStatus isK8sNotFound sandboxName namespace env w) with
    | Resolved detail => Resolved (status detail)
    | Rejected e => Rejected e
    end.
Proof.
  unfold getSandboxStatus. rewrite bind_run.
  now destruct (getStatefulSetStatus _ _ _ env w) as [[detail|e] w1].
Qed.

Lemma removed_absent namespace sandboxName cl :
  statefulSets (removed namespace sandboxName cl) !! (namespace, sandboxName) = None.
Proof. unfold removed. cbn [statefulSets]. apply lookup_delete_eq. Qed.

(** X22. The status along the life of a sandbox, against a cluster that
    answers: TERMINATED before it is created, STARTING right after
    [createSandbox] (the workload declares one replica and the cluster has
    reported none yet), TERMINATED again after [deleteSandbox]. *)
Theorem status_over_lifetime isK8sNotFound toK8sProjectName RUNTIME_IMAGE
    projectName namespace ingressDomain sandboxName envVars env w :
  faultFree env → tells404 isK8sNotFound env →
  statefulSets (cluster w) !! (namespace, sandboxName) = None →
  let created := createSandbox isK8sNotFound toK8sProjectName RUNTIME_IMAGE
                   projectName namespace ingressDomain sandboxName envVars env w in
  let deleted := deleteSandbox isK8sNotFound namespace sandboxName env (snd created) in
  let statusAt := fun w0 =>
    fst (getSandboxStatus isK8sNotFound namespace sandboxName env w0) in
  statusAt w = Resolved TERMINATED
  ∧ statusAt (snd created) = Resolved STARTING
  ∧ statusAt (snd deleted) = Resolved TERMINATED.
Proof.
  intros Hff H404 Nsts created deleted statusAt. subst statusAt. cbv beta.
  destruct (createSandbox_healthy isK8sNotFound toK8sProjectName RUNTIME_IMAGE
              projectName namespace ingressDomain sandboxName envVars env w Hff H404)
    as (_ & Hcl & _).
  destruct (deleteSandbox_healthy isK8sNotFound namespace sandboxName env (snd created)
              Hff (proj1 H404)) as (_ & Hdel & _).
  fold created in Hcl. fold deleted in Hdel.
  pose proof (provisioned_lookup toK8sProjectName RUNTIME_IMAGE projectName namespace
                ingressDomain sandboxName envVars (cluster w)) as (Lsts & _).
  rewrite <- Hcl, Nsts in Lsts. cbn [default from_option id] in Lsts.
  rewrite !getSandboxStatus_stored, !getStatefulSetStatus_stored by apply Hff.
  rewrite Nsts, Lsts, Hdel, removed_absent.
  rewrite (proj1 H404). cbn. auto.
Qed.

Lemma status_over_lifetime_witness :
  let created := createSandbox statusIs404 projectLabel "runtime:latest"
                   "proj" "ns1" "usw.example.io" "acme-x1" tokenAbc calmEnv
                   (freshWorld emptyCluster) in
  let deleted := deleteSandbox statusIs404 "ns1" "acme-x1" calmEnv (snd created) in
  let statusAt := fun w0 => fst (getSandboxStatus statusIs404 "ns1" "acme-x1" calmEnv w0) in
  statusAt (freshWorld emptyCluster) = Resolved TERMINATED
  ∧ statusAt (snd created) = Resolved STARTING
  ∧ statusAt (snd deleted) = Resolved TERMINATED.
Proof.
  apply (status_over_lifetime statusIs404 projectLabel "runtime:latest"
           "proj" "ns1" "usw.example.io" "acme-x1" tokenAbc calmEnv
           (freshWorld emptyCluster)).
  - intros c. reflexivity.
  - repeat split; reflexivity.
  - reflexivity.
Defined.

(** X23. On a sandbox that has been deleted, the other operations are
    harmless: against a cluster that answers, after [deleteSandbox],
    [stopSandbox] and [startSandbox] resolve, [updateStatefulSetEnvVars]
    resolves to [false], and each of them only reads: the store stays as
    the deletion left it and nothing is created again. *)
Theorem after_delete_nothing_revives isK8sNotFound namespace sandboxName envVars env w :
  faultFree env → isK8sNotFound (apiError env 404) = true →
  let deleted := snd (deleteSandbox isK8sNotFound namespace sandboxName env w) in
  runs (stopSandbox isK8sNotFound namespace sandboxName) env deleted
    (Resolved tt) (cluster deleted) [ReadStatefulSet sandboxName namespace]
  ∧ runs (startSandbox isK8sNotFound namespace sandboxName) env deleted
      (Resolved tt) (cluster deleted) [ReadStatefulSet sandboxName namespace]
  ∧ runs (updateStatefulSetEnvVars isK8sNotFound namespace sandboxName envVars) env
      deleted (Resolved false) (cluster deleted)
      [ReadStatefulSet sandboxName namespace].
Proof.
  intros Hff Hnf deleted.
  destruct (deleteSandbox_healthy isK8sNotFound namespace sandboxName env w Hff Hnf)
    as (_ & Hdel & _).
  fold deleted in Hdel.
  assert (Habsent : statefulSets (cluster deleted) !! (namespace, sandboxName) = None)
    by (rewrite Hdel; apply removed_absent).
  unfold runs. split; [|split].
  - rewrite stopSandbox_spec, Hff, Habsent, Hnf. cbn. auto.
  - rewrite startSandbox_spec, Hff, Habsent, Hnf. cbn. auto.
  - rewrite updateStatefulSetEnvVars_run, getStatefulSet_run.
    unfold k8sAppsApi_readNamespacedStatefulSet.
    rewrite request_run, Hff, Habsent. cbn [fst snd]. rewrite Hnf. cbn. auto.
Qed.

Lemma after_delete_nothing_revives_witness :
  let deleted := snd (deleteSandbox statusIs404 "ns1" "acme-x1" calmEnv
                        (freshWorld (clusterWith oneReplica))) in
  runs (stopSandbox statusIs404 "ns1" "acme-x1") calmEnv deleted
    (Resolved tt) (cluster deleted) [ReadStatefulSet "acme-x1" "ns1"]
  ∧ runs (startSandbox statusIs404 "ns1" "acme-x1") calmEnv deleted
      (Resolved tt) (cluster deleted) [ReadStatefulSet "acme-x1" "ns1"]
  ∧ runs (updateStatefulSetEnvVars statusIs404 "ns1" "acme-x1" modeProd) calmEnv
      deleted (Resolved false) (cluster deleted) [ReadStatefulSet "acme-x1" "ns1"].
Proof.
  apply (after_delete_nothing_revives statusIs404 "ns1" "acme-x1" modeProd calmEnv
           (freshWorld (clusterWith oneReplica))).
  - intros c. reflexivity.
  - reflexivity.
Defined.
